(** * somnisoft/cron: the schedule parser, the job store, the change detector
      and the matcher of the cron daemon (src/crond.c, src/cron.c, src/crond.h)

    The development embeds the C functions of the daemon as Rocq functions
    with explicit state passing.  Machine integers are [Z] with the
    wrap-around of [size_t] written out, C strings are lists of byte values
    read through [line_at] (which yields the NUL terminator at the end of the
    list), the boolean arrays of [struct crond_job] are one flat list of
    cells laid out as the struct declares them, and the heap is a finite map
    from block identifiers to byte buffers. *)

From Stdlib Require Import ZArith String Ascii List Bool Lia.
From stdpp Require Import base numbers option list gmap.

Open Scope Z_scope.

(** ** Bytes and C strings *)

Module Ch.
Definition NUL : Z := 0.
Definition TAB : Z := 9.
Definition LF : Z := 10.
Definition SPACE : Z := 32.
Definition HASH : Z := 35.
Definition PERCENT : Z := 37.
Definition STAR : Z := 42.
Definition COMMA : Z := 44.
Definition MINUS : Z := 45.
Definition ZERO : Z := 48.
Definition NINE : Z := 57.
Definition AT : Z := 64.
Definition BACKSLASH : Z := 92.
End Ch.

(** The bytes of a string literal, without the terminator. *)
Fixpoint cstr (s : string) : list Z :=
  match s with
  | EmptyString => []
  | String c s' => Z.of_N (N_of_ascii c) :: cstr s'
  end.

(** [line[i]] for a C string held as the list of its bytes: the byte after
    the last one is the NUL terminator. *)
Definition line_at (line : list Z) (i : nat) : Z := nth i line Ch.NUL.

(** [isblank] and [isdigit] of <ctype.h> in the C locale. *)
Definition isblank (c : Z) : bool := (c =? Ch.SPACE) || (c =? Ch.TAB).
Definition isdigit (c : Z) : bool := (Ch.ZERO <=? c) && (c <=? Ch.NINE).

(** [strlen]: the bytes before the first NUL. *)
Fixpoint c_strlen (s : list Z) : nat :=
  match s with
  | [] => O
  | c :: s' => if c =? Ch.NUL then O else S (c_strlen s')
  end.

(** ** [size_t] arithmetic (src/cron.c) *)

Definition SIZE_MAX : Z := 2 ^ 64 - 1.
Definition size_wrap (z : Z) : Z := z mod 2 ^ 64.

(** [si_add_size_t] and [si_mul_size_t].  [seam] is the CRON_TEST error
    counter reaching its end, which makes the function report a wrap without
    writing the result.  The functions return the wrap indicator and the
    value stored in [*result], if any. *)
Definition si_add_size_t (seam : bool) (a b : Z) : bool * option Z :=
  if seam then (true, None)
  else
    let result := size_wrap (a + b) in
    (result <? a, Some result).

Definition si_mul_size_t (seam : bool) (a b : Z) : bool * option Z :=
  if seam then (true, None)
  else
    let result := size_wrap (a * b) in
    (negb (b =? 0) && (SIZE_MAX / b <? a), Some result).

(** ** The heap: blocks of bytes handed out by the allocator *)

Abbreviation heap := (gmap nat (list Z)).

(** A pointer is NULL ([None]) or the identifier of a block. *)
Definition ptr : Type := option nat.

(** A successful allocation takes a block identifier that is not live. *)
Definition heap_alloc (h : heap) (contents : list Z) : ptr * heap :=
  let b := fresh (dom h) in (Some b, <[b := contents]> h).

(** [free(p)]; [free(NULL)] does nothing. *)
Definition c_free (h : heap) (p : ptr) : heap :=
  match p with
  | None => h
  | Some b => delete b h
  end.

(** [strndup(&line[from], n)]: at most [n] bytes of the string that starts at
    [from], NUL-terminated; [ok] is whether the allocation succeeds. *)
Definition c_strndup (ok : bool) (h : heap) (line : list Z) (from n : nat)
  : ptr * heap :=
  if ok then
    let s := drop from line in
    heap_alloc h (take (Nat.min n (c_strlen s)) s ++ [Ch.NUL])
  else (None, h).

(** [strdup(&line[from])]. *)
Definition c_strdup (ok : bool) (h : heap) (line : list Z) (from : nat)
  : ptr * heap :=
  if ok then
    let s := drop from line in
    heap_alloc h (take (c_strlen s) s ++ [Ch.NUL])
  else (None, h).

(** ** [struct crond_job] (src/crond.h) *)

(** The boolean members of the struct, in declaration order. *)
Inductive field : Type := minute | hour | day | month | weekday | pad.

#[global] Instance field_eq_dec : EqDecision field.
Proof. solve_decision. Defined.

(** [sizeof] of each member: the number of entries of the array. *)
Definition field_len (f : field) : Z :=
  match f with
  | minute => 60 | hour => 24 | day => 31 | month => 12 | weekday => 7
  | pad => 2
  end.

(** Offset of each member from [minute], the first boolean member: the
    arrays are of [bool], so they follow one another without padding. *)
Definition field_base (f : field) : Z :=
  match f with
  | minute => 0 | hour => 60 | day => 84 | month => 115 | weekday => 127
  | pad => 134
  end.


(** Number of boolean cells of the struct. *)
Definition JOB_CELLS : nat := 136.

Record crond_job : Type := mk_job {
  command : ptr;
  stdin_lines : ptr;
  stdin_lines_len : Z;
  cells : list bool
}.

(** [memset(&job, 0, sizeof(job))]. *)
Definition job_zero : crond_job :=
  {| command := None; stdin_lines := None; stdin_lines_len := 0;
     cells := replicate JOB_CELLS false |}.

(** [f[i]] read through the member's base address: the cell [i] entries
    after the start of [f].  [None] is a read outside the job object. *)
Definition field_get (c : list bool) (f : field) (i : Z) : option bool :=
  if 0 <=? field_base f + i then c !! Z.to_nat (field_base f + i) else None.

(** [i] is a valid index of the array [f]. *)
Definition field_index_ok (f : field) (i : Z) : Prop := 0 <= i < field_len f.

(** The set of indices of [f] whose cell is true. *)
Definition field_bits (c : list bool) (f : field) : list Z :=
  filter (fun i => field_get c f i = Some true) (seqZ 0 (field_len f)).

(** ** Setting a range of a field *)

(** [crond_set_field_range(field, start, end)]:
    [for(i = start; i <= end; i++) field[i] = true;] with [field] the array
    at offset [base]. *)
Definition crond_set_field_range (c : list bool) (base start end_ : Z)
  : list bool :=
  foldl (fun m i => <[Z.to_nat (base + i) := true]> m) c
        (seqZ start (end_ - start + 1)).

(** ** Parsing one time field *)

(** [crond_crontab_parse_blank]: the number of blanks skipped and the
    updated index. *)
Fixpoint count_blank (rest : list Z) : nat :=
  match rest with
  | c :: rest' => if isblank c then S (count_blank rest') else O
  | [] => O
  end.

Definition crond_crontab_parse_blank (line : list Z) (line_idx : nat)
  : nat * nat :=
  let num_blanks := count_blank (drop line_idx line) in
  (num_blanks, (line_idx + num_blanks)%nat).

(** [crond_strtoul_field] on a three-byte digit buffer. *)
Definition crond_strtoul_field (str : list Z) : Z :=
  if nth 1 str 0 =? Ch.NUL then nth 0 str 0 - Ch.ZERO
  else 10 * (nth 0 str 0 - Ch.ZERO) + 1 * (nth 1 str 0 - Ch.ZERO).

(** [for(i = 0; i < 2 && isdigit(line[*line_idx]); i++)]: the zeroed buffer
    with the digits read, the final [i] and the updated index. *)
Definition read_digits (line : list Z) (line_idx : nat)
  : list Z * nat * nat :=
  let c1 := line_at line line_idx in
  if isdigit c1 then
    let c2 := line_at line (S line_idx) in
    if isdigit c2 then ([c1; c2; 0], 2%nat, S (S line_idx))
    else ([c1; 0; 0], 1%nat, S line_idx)
  else ([0; 0; 0], 0%nat, line_idx).

(** The state of [crond_parse_field_int]: [rc], [*line_idx] and the cells of
    the job being filled. *)
Record fstate : Type := mk_fstate {
  f_rc : Z;
  f_idx : nat;
  f_cells : list bool
}.

(** The part of the loop body after both numbers are known: the check of
    [d1], the single value, and the swap, clamp and fill of a range. *)
Definition crond_field_apply (f : field) (d1 d2 : Z) (rc : Z) (c : list bool)
  : Z * list bool :=
  if field_len f <=? d1 then (-1, c)
  else if d2 =? SIZE_MAX then
    (rc, crond_set_field_range c (field_base f) d1 d1)
  else
    let '(d1, d2) := if d2 <? d1 then (d2, d1) else (d1, d2) in
    let d2 := if field_len f <=? d2 then field_len f else d2 in
    (rc, crond_set_field_range c (field_base f) d1 d2).

(** One iteration of the do-while loop.  The boolean is [true] when the loop
    goes on ([has_comma]) and [false] on [break] or when no comma follows. *)
Definition crond_field_item (line : list Z) (f : field) (offset : Z)
  (st : fstate) : fstate * bool :=
  let '(digit_1, i1, idx1) := read_digits line (f_idx st) in
  if (i1 =? 0)%nat then (mk_fstate (-1) idx1 (f_cells st), false)
  else
    let second :=
      if line_at line idx1 =? Ch.MINUS then
        let '(digit_2, i2, idx2) := read_digits line (S idx1) in
        if (i2 =? 0)%nat then (None, idx2)
        else (Some (size_wrap (crond_strtoul_field digit_2 - offset)), idx2)
      else (Some SIZE_MAX, idx1) in
    match second with
    | (None, idx2) => (mk_fstate (-1) idx2 (f_cells st), false)
    | (Some d2, idx2) =>
      let d1 := size_wrap (crond_strtoul_field digit_1 - offset) in
      let '(rc, c) := crond_field_apply f d1 d2 (f_rc st) (f_cells st) in
      if line_at line idx2 =? Ch.COMMA then (mk_fstate rc (S idx2) c, true)
      else (mk_fstate rc idx2 c, false)
    end.

(** The do-while loop; every iteration that goes on has consumed a digit and
    a comma, so [fuel] above the length of the line is never used up. *)
Fixpoint crond_field_items (fuel : nat) (line : list Z) (f : field)
  (offset : Z) (st : fstate) : fstate :=
  match fuel with
  | O => st
  | S fuel' =>
    let '(st', has_comma) := crond_field_item line f offset st in
    if has_comma then crond_field_items fuel' line f offset st' else st'
  end.

(** [crond_parse_field_int(line, line_idx, field, field_len, offset)]. *)
Definition crond_parse_field_int (line : list Z) (line_idx : nat)
  (c : list bool) (f : field) (offset : Z) : fstate :=
  let st :=
    if line_at line line_idx =? Ch.STAR then
      mk_fstate 0 (S line_idx)
                (crond_set_field_range c (field_base f) 0 (field_len f))
    else
      crond_field_items (S (length line)) line f offset
                        (mk_fstate 0 line_idx c) in
  let '(num_blanks, idx) := crond_crontab_parse_blank line (f_idx st) in
  mk_fstate (if (num_blanks =? 0)%nat then -1 else f_rc st) idx (f_cells st).


(** ** The command section *)

(** Outcomes of the calls that can fail while one line is parsed: the two
    string duplications, the CRON_TEST seam of [si_mul_size_t], and
    [realloc]. *)
Record alloc_env : Type := mk_env {
  strndup_ok : bool;
  strdup_ok : bool;
  si_mul_seam : bool;
  realloc_ok : bool
}.

(** Every allocation succeeds and no seam fires. *)
Definition env_ok : alloc_env := mk_env true true false true.

(** The first loop of [crond_crontab_parse_command]: the final [i] and
    [stdin_start_idx] ([None] for [SIZE_MAX]).  The loop stops at the NUL
    terminator, so [fuel] above the length of the line is never used up. *)
Fixpoint find_stdin_start (fuel : nat) (line : list Z) (i : nat)
  : nat * option nat :=
  match fuel with
  | O => (i, None)
  | S fuel' =>
    if line_at line i =? Ch.NUL then (i, None)
    else if (line_at line i =? Ch.PERCENT) && (0 <? i)%nat
            && negb (line_at line (i - 1) =? Ch.BACKSLASH)
    then (i, Some (S i))
    else find_stdin_start fuel' line (S i)
  end.

(** The second loop, on the duplicated buffer: [buf] is rewritten in place,
    [i] is the write position and [i_fwd] the read position. *)
Fixpoint stdin_lines_loop (fuel : nat) (buf : list Z) (i i_fwd : nat)
  : list Z * nat :=
  match fuel with
  | O => (buf, i)
  | S fuel' =>
    if line_at buf i_fwd =? Ch.NUL then (buf, i)
    else
      let '(buf, i_fwd) :=
        if (line_at buf i_fwd =? Ch.BACKSLASH)
           && negb (line_at buf (S i_fwd) =? Ch.NUL)
        then (buf, S i_fwd)
        else if line_at buf i_fwd =? Ch.PERCENT
             then (<[i_fwd := Ch.LF]> buf, i_fwd)
             else (buf, i_fwd) in
      let buf := <[i := line_at buf i_fwd]> buf in
      stdin_lines_loop fuel' buf (S i) (S i_fwd)
  end.

(** [crond_crontab_parse_command(line, line_idx, job)]. *)
Definition crond_crontab_parse_command (env : alloc_env) (h : heap)
  (line : list Z) (line_idx : nat) (job : crond_job)
  : bool * heap * crond_job :=
  let job := mk_job (command job) (stdin_lines job) 0 (cells job) in
  let '(i, stdin_start_idx) :=
    find_stdin_start (S (length line)) line line_idx in
  let '(cmd, h) :=
    c_strndup (strndup_ok env) h line line_idx (i - line_idx) in
  match cmd with
  | None => (false, h, mk_job None (stdin_lines job) 0 (cells job))
  | Some _ =>
    match stdin_start_idx with
    | None => (true, h, mk_job cmd (stdin_lines job) 0 (cells job))
    | Some start =>
      let '(sl, h) := c_strdup (strdup_ok env) h line start in
      match sl with
      | None => (false, c_free h cmd, mk_job None None 0 (cells job))
      | Some b =>
        let buf := default [] (h !! b) in
        let '(buf, i) := stdin_lines_loop (length buf) buf 0 0 in
        let buf := <[i := Ch.LF]> buf in
        (true, <[b := buf]> h, mk_job cmd (Some b) (Z.of_nat i + 1) (cells job))
      end
    end
  end.

(** The bytes a pointer of the job designates. *)
Definition deref (h : heap) (p : ptr) : option (list Z) := p ≫= (h !!.).

(** The command of a job as a C string: the bytes before the terminator. *)
Definition job_command (h : heap) (job : crond_job) : option (list Z) :=
  (fun s => take (c_strlen s) s) <$> deref h (command job).

(** The stdin payload of a job: the first [stdin_lines_len] bytes of
    [stdin_lines], or nothing when the pointer is NULL. *)
Definition job_payload (h : heap) (job : crond_job) : option (list Z) :=
  take (Z.to_nat (stdin_lines_len job)) <$> deref h (stdin_lines job).

(** [crond_job_free]. *)
Definition crond_job_free (h : heap) (job : crond_job) : heap :=
  c_free (c_free h (command job)) (stdin_lines job).

(** ** The daemon context and the job store *)

Record timespec : Type := mk_timespec { tv_sec : Z; tv_nsec : Z }.

(** The members of [struct tm] the daemon reads. *)
Record tm : Type := mk_tm {
  tm_sec : Z; tm_min : Z; tm_hour : Z; tm_mday : Z; tm_mon : Z; tm_wday : Z
}.

Definition EXIT_SUCCESS : Z := 0.
Definition EXIT_FAILURE : Z := 1.

(** The members of [struct crond] the modelled functions use.  [job_list] is
    the contents of the array the pointer designates. *)
Record crond : Type := mk_crond {
  status_code : Z;
  mtime_crontab : timespec;
  job_list : list crond_job;
  num_jobs : Z
}.

(** [memset(&crond, 0, sizeof(crond))] in [crond_main]. *)
Definition crond_zero : crond := mk_crond 0 (mk_timespec 0 0) [] 0.

(** [crond_errx_noexit]: the message goes to stderr, the status is set. *)
Definition crond_errx_noexit (cr : crond) : crond :=
  mk_crond EXIT_FAILURE (mtime_crontab cr) (job_list cr) (num_jobs cr).

(** [sizeof(struct crond_job)]: two pointers, a [size_t] and 136 booleans. *)
Definition sizeof_crond_job : Z := 160.

(** [crond_reallocarray(ptr, nmemb, size)] on the job array: [None] is NULL,
    and then the old array is untouched.  On success the array has [nmemb]
    entries; the ones past the old contents are written by the caller before
    they are read. *)
Definition crond_reallocarray (env : alloc_env) (old : list crond_job)
  (nmemb size : Z) : option (list crond_job) :=
  let '(wraps, _) := si_mul_size_t (si_mul_seam env) nmemb size in
  if wraps then None
  else if realloc_ok env then Some (resize (Z.to_nat nmemb) job_zero old)
  else None.

(** [crond_job_append(crond, job)]. *)
Definition crond_job_append (env : alloc_env) (cr : crond) (job : crond_job)
  : crond * bool :=
  match crond_reallocarray env (job_list cr) (size_wrap (num_jobs cr + 1))
                           sizeof_crond_job with
  | None => (crond_errx_noexit cr, false)
  | Some new_job_list =>
    (mk_crond (status_code cr) (mtime_crontab cr)
              (<[Z.to_nat (num_jobs cr) := job]> new_job_list)
              (size_wrap (num_jobs cr + 1)),
     true)
  end.

(** [crond_job_list_free]: every job's buffers are released. *)
Definition crond_job_list_free (h : heap) (cr : crond) : heap * crond :=
  (foldl crond_job_free h (take (Z.to_nat (num_jobs cr)) (job_list cr)),
   mk_crond (status_code cr) (mtime_crontab cr) [] 0).

(** ** Parsing one line *)

(** [strncmp(&line[i], str, strlen(str)) == 0] for a literal [str]. *)
Definition strncmp_eq (line : list Z) (i : nat) (str : list Z) : bool :=
  bool_decide (take (length str) (drop i line) = str).

Module Preset.
Definition STR_YEARLY : list Z := Eval cbv in cstr "yearly".
Definition STR_ANNUALLY : list Z := Eval cbv in cstr "annually".
Definition STR_MONTHLY : list Z := Eval cbv in cstr "monthly".
Definition STR_WEEKLY : list Z := Eval cbv in cstr "weekly".
Definition STR_DAILY : list Z := Eval cbv in cstr "daily".
Definition STR_MIDNIGHT : list Z := Eval cbv in cstr "midnight".
Definition STR_HOURLY : list Z := Eval cbv in cstr "hourly".
End Preset.

(** [crond_set_field_range(job.f, start, end)]. *)
Definition set_range (f : field) (start end_ : Z) (c : list bool)
  : list bool :=
  crond_set_field_range c (field_base f) start end_.

(** The branch of [crond_crontab_parse_line] taken on ['@']: [valid_line],
    the updated index and the cells. *)
Definition parse_special (line : list Z) (i : nat) (c : list bool)
  : bool * nat * list bool :=
  let i := S i in
  if strncmp_eq line i Preset.STR_YEARLY
     || strncmp_eq line i Preset.STR_ANNUALLY then
    let c := set_range minute 0 0 c in
    let c := set_range hour 0 0 c in
    let c := set_range day 0 0 c in
    let c := set_range month 0 0 c in
    let c := set_range weekday 0 (field_len weekday) c in
    if line_at line i =? nth 0 Preset.STR_YEARLY 0
    then (true, (i + length Preset.STR_YEARLY)%nat, c)
    else (true, (i + length Preset.STR_ANNUALLY)%nat, c)
  else if strncmp_eq line i Preset.STR_MONTHLY then
    let c := set_range minute 0 0 c in
    let c := set_range hour 0 0 c in
    let c := set_range day 0 0 c in
    let c := set_range month 0 (field_len month) c in
    let c := set_range weekday 0 (field_len weekday) c in
    (true, (i + length Preset.STR_MONTHLY)%nat, c)
  else if strncmp_eq line i Preset.STR_WEEKLY then
    let c := set_range minute 0 0 c in
    let c := set_range hour 0 0 c in
    let c := set_range day 0 (field_len day) c in
    let c := set_range month 0 (field_len month) c in
    let c := set_range weekday 0 0 c in
    (true, (i + length Preset.STR_WEEKLY)%nat, c)
  else if strncmp_eq line i Preset.STR_DAILY
          || strncmp_eq line i Preset.STR_MIDNIGHT then
    let c := set_range minute 0 0 c in
    let c := set_range hour 0 0 c in
    let c := set_range day 0 (field_len day) c in
    let c := set_range month 0 (field_len month) c in
    let c := set_range weekday 0 (field_len weekday) c in
    if line_at line i =? nth 0 Preset.STR_DAILY 0
    then (true, (i + length Preset.STR_DAILY)%nat, c)
    else (true, (i + length Preset.STR_MIDNIGHT)%nat, c)
  else if strncmp_eq line i Preset.STR_HOURLY then
    let c := set_range minute 0 0 c in
    let c := set_range hour 0 (field_len hour) c in
    let c := set_range day 0 (field_len day) c in
    let c := set_range month 0 (field_len month) c in
    let c := set_range weekday 0 (field_len weekday) c in
    (true, (i + length Preset.STR_HOURLY)%nat, c)
  else (false, i, c).

(** The source offset of each time field. *)
Definition field_offset (f : field) : Z :=
  match f with
  | day | month => 1
  | _ => 0
  end.

(** The five calls of [crond_parse_field_int] joined by [||]: a field is
    parsed only when all the fields before it were accepted. *)
Fixpoint parse_fields (fs : list field) (line : list Z) (i : nat)
  (c : list bool) : bool * nat * list bool :=
  match fs with
  | [] => (true, i, c)
  | f :: fs' =>
    let st := crond_parse_field_int line i c f (field_offset f) in
    if f_rc st <? 0 then (false, f_idx st, f_cells st)
    else parse_fields fs' line (f_idx st) (f_cells st)
  end.

Definition time_fields : list field := [minute; hour; day; month; weekday].

(** [crond_crontab_parse_line(crond, line)]. *)
Definition crond_crontab_parse_line (env : alloc_env) (h : heap) (cr : crond)
  (line : list Z) : heap * crond :=
  let '(_, i) := crond_crontab_parse_blank line 0 in
  if negb (line_at line i =? Ch.NUL) && negb (line_at line i =? Ch.HASH) then
    let job := job_zero in
    let '(valid_line, i, c) :=
      if line_at line i =? Ch.AT then parse_special line i (cells job)
      else parse_fields time_fields line i (cells job) in
    let job := mk_job (command job) (stdin_lines job) (stdin_lines_len job) c in
    if valid_line then
      let '(_, i) := crond_crontab_parse_blank line i in
      let '(parsed, h, job) := crond_crontab_parse_command env h line i job in
      if parsed then
        let '(cr', appended) := crond_job_append env cr job in
        if appended then (h, cr') else (crond_job_free h job, cr')
      else (crond_job_free h job, cr)
    else (h, cr)
  else (h, cr).


(** ** The change detector *)

(** What [stat] on the crontab path gives: the modification time of the
    file, or the error number. *)
Inductive stat_result : Type :=
| StatOk (st_mtim : timespec)
| StatErr (errno : Z).

Definition ENOENT : Z := 2.

(** The [n] bytes of the two's complement representation of [z], least
    significant first. *)
Definition le_bytes (n : nat) (z : Z) : list Z :=
  map (fun k => Z.land (Z.shiftr z (8 * Z.of_nat k)) 255) (seq 0 n).

(** The object representation of a [struct timespec]: an eight-byte
    [time_t] and an eight-byte [long]. *)
Definition timespec_bytes (t : timespec) : list Z :=
  le_bytes 8 (tv_sec t) ++ le_bytes 8 (tv_nsec t).

(** [memcmp(a, b, n) != 0] on two objects of the same size. *)
Definition memcmp_ne (a b : list Z) : bool := negb (bool_decide (a = b)).

(** [crond_crontab_has_changed(crond)]. *)
Definition crond_crontab_has_changed (sr : stat_result) (cr : crond)
  : crond * bool :=
  match sr with
  | StatOk st_mtim =>
    if memcmp_ne (timespec_bytes (mtime_crontab cr)) (timespec_bytes st_mtim)
    then (mk_crond (status_code cr) st_mtim (job_list cr) (num_jobs cr), true)
    else (cr, false)
  | StatErr errno =>
    if errno =? ENOENT then
      if negb (tv_sec (mtime_crontab cr) =? 0)
         || negb (tv_nsec (mtime_crontab cr) =? 0)
      then (mk_crond (status_code cr) (mk_timespec 0 0)
                     (job_list cr) (num_jobs cr), true)
      else (cr, false)
    else (crond_errx_noexit cr, false)
  end.

(** ** Reading the crontab again *)

(** The successive results of [getline] on a stream: every line keeps its
    newline, and bytes left after the last newline make a final line.
    [cur] holds the bytes of the line being read. *)
Fixpoint getlines (cur rest : list Z) : list (list Z) :=
  match rest with
  | [] => match cur with [] => [] | _ => [cur] end
  | c :: rest' =>
    if c =? Ch.LF then (cur ++ [c]) :: getlines [] rest'
    else getlines (cur ++ [c]) rest'
  end.

(** [if(read){ line[read - 1] = '\0'; }] on a line of [read] bytes. *)
Definition chop_last (l : list Z) : list Z :=
  match l with
  | [] => l
  | _ => <[(length l - 1)%nat := Ch.NUL]> l
  end.

(** The bytes of a buffer that make its C string. *)
Definition c_string (buf : list Z) : list Z := take (c_strlen buf) buf.

(** What the file system and the allocator do during one reparse. *)
Record file_env : Type := mk_file_env {
  stat_res : stat_result;
  fopen_res : option (list Z);
  ferror_set : bool;
  fclose_ok : bool;
  line_env : nat -> alloc_env
}.

(** The while loop of [crond_crontab_reparse]; [n] numbers the lines. *)
Fixpoint parse_lines (fe : file_env) (n : nat) (h : heap) (cr : crond)
  (ls : list (list Z)) : heap * crond :=
  match ls with
  | [] => (h, cr)
  | l :: ls' =>
    let '(h, cr) := crond_crontab_parse_line (line_env fe n) h cr (chop_last l) in
    parse_lines fe (S n) h cr ls'
  end.

(** [crond_crontab_reparse(crond)]. *)
Definition crond_crontab_reparse (fe : file_env) (h : heap) (cr : crond)
  : heap * crond :=
  let '(cr, changed) := crond_crontab_has_changed (stat_res fe) cr in
  if changed then
    let '(h, cr) := crond_job_list_free h cr in
    match fopen_res fe with
    | Some content =>
      let '(h, cr) := parse_lines fe 0 h cr (getlines [] content) in
      if ferror_set fe then crond_job_list_free h (crond_errx_noexit cr)
      else if fclose_ok fe then (h, cr)
      else crond_job_list_free h (crond_errx_noexit cr)
    | None => (h, cr)
    end
  else (h, cr).

(** ** The matcher *)

(** One array lookup of the matcher: the member and the index used. *)
Definition lookup_log : Type := list (field * Z).

(** [a && f[i]]: the lookup is made only when everything before it was
    true. *)
Definition and_lookup (c : list bool) (f : field) (i : Z)
  (a : lookup_log * option bool) : lookup_log * option bool :=
  match a with
  | (log, Some true) => (log ++ [(f, i)], field_get c f i)
  | _ => a
  end.

(** The condition of [crond_job_should_run] with the lookups it makes, in
    the order of evaluation. *)
Definition should_run_lookups (t : tm) (job : crond_job)
  : lookup_log * option bool :=
  let c := cells job in
  and_lookup c minute (tm_min t)
    (and_lookup c hour (tm_hour t)
      (and_lookup c day (tm_mday t - 1)
        (and_lookup c month (tm_mon t - 1)
          (and_lookup c weekday (tm_wday t) ([], Some true))))).

(** [crond_job_should_run(crond, job)] with [crond->tm] pointing to [t];
    [None] when a lookup falls outside the job object. *)
Definition crond_job_should_run (t : tm) (job : crond_job) : option bool :=
  (should_run_lookups t job).2.

(** [t] is a broken-down time as [localtime] gives it. *)
Definition tm_valid (t : tm) : Prop :=
  0 <= tm_sec t <= 60 /\ 0 <= tm_min t <= 59 /\ 0 <= tm_hour t <= 23 /\
  1 <= tm_mday t <= 31 /\ 0 <= tm_mon t <= 11 /\ 0 <= tm_wday t <= 6.


(** ** The preset table *)

(** The tokens accepted after ['@'] and, from the comment of each branch of
    [crond_crontab_parse_line], the five-field line each one stands for. *)
Inductive preset : Type :=
  yearly | annually | monthly | weekly | daily | midnight | hourly.

Definition preset_token (p : preset) : list Z :=
  match p with
  | yearly => Preset.STR_YEARLY
  | annually => Preset.STR_ANNUALLY
  | monthly => Preset.STR_MONTHLY
  | weekly => Preset.STR_WEEKLY
  | daily => Preset.STR_DAILY
  | midnight => Preset.STR_MIDNIGHT
  | hourly => Preset.STR_HOURLY
  end.




(** ** Notions used in the statements *)

(** A timestamp whose members fit their 64-bit signed types. *)
Definition timespec_ok (t : timespec) : Prop :=
  (- 2 ^ 63 <= tv_sec t < 2 ^ 63) /\ (- 2 ^ 63 <= tv_nsec t < 2 ^ 63).

(** The job a line gives when it is parsed into the empty store. *)
Definition parsed_job (s : string) : option crond_job :=
  head (job_list (crond_crontab_parse_line env_ok ∅ crond_zero (cstr s)).2).

(** The cells [parse_special] gives for a line that carries the token of
    [p] after the ['@']. *)
Definition preset_cells (p : preset) (c : list bool) : list bool :=
  let full f := field_len f in
  match p with
  | yearly | annually =>
    set_range weekday 0 (full weekday) (set_range month 0 0 (set_range day 0 0
      (set_range hour 0 0 (set_range minute 0 0 c))))
  | monthly =>
    set_range weekday 0 (full weekday) (set_range month 0 (full month)
      (set_range day 0 0 (set_range hour 0 0 (set_range minute 0 0 c))))
  | weekly =>
    set_range weekday 0 0 (set_range month 0 (full month)
      (set_range day 0 (full day) (set_range hour 0 0 (set_range minute 0 0 c))))
  | daily | midnight =>
    set_range weekday 0 (full weekday) (set_range month 0 (full month)
      (set_range day 0 (full day) (set_range hour 0 0 (set_range minute 0 0 c))))
  | hourly =>
    set_range weekday 0 (full weekday) (set_range month 0 (full month)
      (set_range day 0 (full day) (set_range hour 0 (full hour)
        (set_range minute 0 0 c))))
  end.

(** The cells of a job whose five fields are single values, written as the
    five-field path writes them: one [crond_set_field_range(f, x, x)] per
    field, in the order of the fields, into zeroed cells.  The arguments are
    the indices, after the offset of the day and the month is taken off. *)
Definition singleton_cells (m h d mo w : Z) : list bool :=
  set_range weekday w w (set_range month mo mo (set_range day d d
    (set_range hour h h (set_range minute m m (cells job_zero))))).

(** The index each field of such a job holds. *)
Definition singleton_value (m h d mo w : Z) (f : field) : Z :=
  match f with
  | minute => m | hour => h | day => d | month => mo | weekday => w
  | pad => 0
  end.

(** A five-field line whose fields are single numbers, followed by the
    command section. *)
Definition singleton_line (dm dh dd dmo dw cmd : list Z) : list Z :=
  dm ++ Ch.SPACE :: dh ++ Ch.SPACE :: dd ++ Ch.SPACE :: dmo ++ Ch.SPACE ::
  dw ++ Ch.SPACE :: cmd.

(** The text of a number in a field: one or two decimal digits. *)
Definition is_digits (ds : list Z) : Prop :=
  (1 <= length ds <= 2)%nat /\ Forall (fun ch => isdigit ch = true) ds.

(** The number a digit string writes. *)
Definition digits_value (ds : list Z) : Z :=
  foldl (fun acc ch => 10 * acc + (ch - Ch.ZERO)) 0 ds.


(** The payload transformation in the words of the specification, one pass
    from left to right: a backslash followed by a byte becomes that byte
    alone, any other percent sign becomes a newline, and every other byte
    (a backslash at the very end included) is kept. *)
Fixpoint stdin_unescape (s : list Z) : list Z :=
  match s with
  | [] => []
  | ch :: s' =>
    if ch =? Ch.BACKSLASH then
      match s' with
      | next :: s'' => next :: stdin_unescape s''
      | [] => [ch]
      end
    else if ch =? Ch.PERCENT then Ch.LF :: stdin_unescape s'
    else ch :: stdin_unescape s'
  end.

(** The first loop of [crond_crontab_parse_command] seen from the text it
    scans: the number of bytes before the stop and whether a split was
    found.  [allowed] tells whether a percent sign at the head qualifies. *)
Fixpoint scan_split (allowed : bool) (s : list Z) : nat * bool :=
  match s with
  | [] => (O, false)
  | ch :: s' =>
    if ch =? Ch.NUL then (O, false)
    else if (ch =? Ch.PERCENT) && allowed then (O, true)
    else let '(r, found) := scan_split (negb (ch =? Ch.BACKSLASH)) s' in
         (S r, found)
  end.

(** Whether a percent sign at index [i] would qualify: the test the loop
    makes on the byte before it. *)
Definition allowed_at (line : list Z) (i : nat) : bool :=
  (0 <? i)%nat && negb (line_at line (i - 1) =? Ch.BACKSLASH).

(** What is left of [crond_crontab_parse_line] once the time fields are
    settled, for a line whose command section follows a space. *)
Definition finish_line (env : alloc_env) (h : heap) (cr : crond)
  (c : list bool) (cmd : list Z) : heap * crond :=
  let '(parsed, h', job) :=
    crond_crontab_parse_command env h
      (Ch.SPACE :: drop (count_blank cmd) cmd) 1 (mk_job None None 0 c) in
  if parsed then
    let '(cr', appended) := crond_job_append env cr job in
    if appended then (h', cr') else (crond_job_free h' job, cr')
  else (crond_job_free h' job, cr).

(** ** Feeding a child through a pipe *)

Definition EINTR : Z := 4.

(** What one call of [write] gives: -1 with an error number, or the number
    of bytes written, which is the count asked for or the room the pipe has,
    whichever is less. *)
Inductive write_result : Type :=
| WriteErr (errno : Z)
| WriteOk (room : nat).

(** How a function that may call [exit] ends: it called [exit] with the
    failure status, it returned, or the environment has given no further
    answer. *)
Inductive ending : Type := Exited | Returned | Pending.

(** The state of the loop of [crond_fd_write]: the calls of [write] made so
    far, each with the offset into [data] and the count it was given, and
    the bytes the pipe has taken. *)
Record fd_write_state : Type := mk_fd_write {
  fw_calls : list (Z * Z);
  fw_sent : list Z
}.

(** [while(bytes_to_write)] of [crond_fd_write]; [ws] are the results of the
    successive calls of [write]. *)
Fixpoint fd_write_loop (ws : list write_result) (data : list Z)
  (datasz bytes_to_write : Z) (st : fd_write_state)
  : ending * fd_write_state :=
  if bytes_to_write =? 0 then (Returned, st)
  else
    match ws with
    | [] => (Pending, st)
    | w :: ws' =>
      let off := size_wrap (datasz - bytes_to_write) in
      let st := mk_fd_write (fw_calls st ++ [(off, bytes_to_write)])
                            (fw_sent st) in
      match w with
      | WriteErr errno =>
        if errno =? EINTR then fd_write_loop ws' data datasz bytes_to_write st
        else (Exited, st)
      | WriteOk room =>
        let bytes_written := Z.min (Z.of_nat room) bytes_to_write in
        fd_write_loop ws' data datasz
          (size_wrap (bytes_to_write - bytes_written))
          (mk_fd_write (fw_calls st)
             (fw_sent st ++ take (Z.to_nat bytes_written)
                                 (drop (Z.to_nat off) data)))
      end
    end.

(** A call of [write] that is given an offset into the data and a count
    that reaches the end of the data and no further. *)
Definition call_ok (datasz : Z) (call : Z * Z) : Prop :=
  0 <= call.1 /\ 0 < call.2 /\ call.1 + call.2 = datasz.

(** What the environment does during one call of [crond_fd_write]. *)
Record fd_write_env : Type := mk_fd_write_env {
  close_read_end_ok : bool;
  write_results : list write_result;
  close_write_end_ok : bool
}.

(** [crond_fd_write(pipe_write, data, datasz)]. *)
Definition crond_fd_write (e : fd_write_env) (data : list Z) (datasz : Z)
  : ending * fd_write_state :=
  if close_read_end_ok e then
    match fd_write_loop (write_results e) data datasz datasz
                        (mk_fd_write [] []) with
    | (Returned, st) =>
      if close_write_end_ok e then (Returned, st) else (Exited, st)
    | r => r
    end
  else (Exited, mk_fd_write [] []).

(** ** Collecting the output of a job *)

Definition CRON_READ_BUFFER_SZ : Z := 1000.

(** What one call of [read] gives, with the outcomes of the calls that
    follow it in the loop body: -1 with an error number, or the bytes read
    (none at end of file), the seam of [si_add_size_t] and whether [realloc]
    succeeds. *)
Inductive read_result : Type :=
| ReadErr (errno : Z)
| ReadOk (chunk : list Z) (add_seam realloc_succeeds : bool).

(** [memcpy(&buf[off], src, n)] with [n] the length of [src]. *)
Definition memcpy_at (buf : list Z) (off : nat) (src : list Z) : list Z :=
  take off buf ++ src ++ drop (off + length src) buf.

(** The do-while loop of [crond_job_run] in the monitor process.
    [mail_body] is NULL or the bytes of the buffer; a grown buffer keeps its
    old bytes and has [fill] in the new ones until [memcpy] writes them. *)
Fixpoint read_loop (rs : list read_result) (fill : Z)
  (mail_body : option (list Z)) (mail_body_sz : Z)
  : ending * option (list Z) * Z :=
  match rs with
  | [] => (Pending, mail_body, mail_body_sz)
  | ReadErr errno :: rs' =>
    if errno =? EINTR then read_loop rs' fill mail_body mail_body_sz
    else (Exited, mail_body, mail_body_sz)
  | ReadOk chunk add_seam realloc_succeeds :: rs' =>
    let bytes_read := Z.of_nat (length chunk) in
    if bytes_read =? 0 then (Returned, mail_body, mail_body_sz)
    else
      let old_mail_body_sz := mail_body_sz in
      match si_add_size_t add_seam mail_body_sz bytes_read with
      | (true, _) => (Exited, mail_body, mail_body_sz)
      | (false, res) =>
        let mail_body_sz := default mail_body_sz res in
        if realloc_succeeds then
          let new_mail_body :=
            resize (Z.to_nat mail_body_sz) fill (default [] mail_body) in
          read_loop rs' fill
            (Some (memcpy_at new_mail_body (Z.to_nat old_mail_body_sz) chunk))
            mail_body_sz
        else (Exited, None, mail_body_sz)
      end
  end.

(** [crond_waitpid]: [ws] are the results of the successive calls of
    [waitpid], [None] for a call that succeeds and the error number
    otherwise. *)
Fixpoint crond_waitpid (ws : list (option Z)) : ending :=
  match ws with
  | [] => Pending
  | None :: _ => Returned
  | Some errno :: ws' =>
    if errno =? EINTR then crond_waitpid ws' else Exited
  end.

(** The output of the bytes a run of [read] results delivers before the end
    of file. *)
Fixpoint output_read (rs : list read_result) : list Z :=
  match rs with
  | [] => []
  | ReadErr _ :: rs' => output_read rs'
  | ReadOk chunk _ _ :: rs' =>
    match chunk with [] => [] | _ => chunk ++ output_read rs' end
  end.

(** [read] never gives more bytes than the size of [read_buf]. *)
Definition read_ok (r : read_result) : Prop :=
  match r with
  | ReadErr _ => True
  | ReadOk chunk _ _ => Z.of_nat (length chunk) <= CRON_READ_BUFFER_SZ
  end.

(** The part of [crond_job_run] that the monitor process runs from
    [mail_body = NULL] to the decision to mail: how it ends, and the body
    and size handed to [crond_mailx], if it is called. *)
Definition crond_job_run_collect (rs : list read_result) (fill : Z)
  (close_ok : bool) (ws : list (option Z))
  : ending * option (list Z * Z) :=
  match read_loop rs fill None 0 with
  | (Returned, mail_body, mail_body_sz) =>
    if close_ok then
      match crond_waitpid ws with
      | Returned =>
        (Returned,
         match mail_body with
         | Some body => Some (body, mail_body_sz)
         | None => None
         end)
      | e => (e, None)
      end
    else (Exited, None)
  | (e, _, _) => (e, None)
  end.

(** ** Building paths and the mail address *)

(** [stpcpy(&buf[off], src)] on a buffer whose size is known: the bytes of
    the string [src] and its terminator are written from [off] on, and the
    offset of the terminator written is returned.  [None] is a write past
    the end of the buffer. *)
Definition c_stpcpy (buf : list Z) (off : nat) (src : list Z)
  : option (list Z * nat) :=
  let s := c_string src ++ [Ch.NUL] in
  if (off + length s <=? length buf)%nat
  then Some (memcpy_at buf off s, (off + c_strlen src)%nat)
  else None.

(** [malloc(n)]: a block of [n] bytes, which hold [fill] until they are
    written. *)
Definition c_malloc (ok : bool) (fill : Z) (h : heap) (n : Z) : ptr * heap :=
  if ok then heap_alloc h (replicate (Z.to_nat n) fill) else (None, h).

(** What the environment gives while a path is built: the value of [HOME],
    the home directory of the password entry, and the outcomes of [strdup],
    of the seam of [si_add_size_t] and of [malloc]. *)
Record path_env : Type := mk_path_env {
  getenv_home : option (list Z);
  getpwuid_dir : option (list Z);
  path_strdup_ok : bool;
  path_add_seam : bool;
  path_malloc_ok : bool;
  path_malloc_fill : Z
}.

(** [cron_get_path_home] (src/cron.c). *)
Definition cron_get_path_home (pe : path_env) (h : heap) : ptr * heap :=
  match getenv_home pe with
  | Some env_home => c_strdup (path_strdup_ok pe) h env_home 0
  | None =>
    match getpwuid_dir pe with
    | Some pw_dir => c_strdup (path_strdup_ok pe) h pw_dir 0
    | None => (None, h)
    end
  end.

Definition PATH_CRONTAB : list Z := Eval cbv in cstr "/.config/.crontab".

(** [cron_get_path_crontab] (src/cron.c).  [None] is a write past the end
    of the allocated block. *)
Definition cron_get_path_crontab (pe : path_env) (h : heap)
  : option (ptr * heap) :=
  let '(path_home, h) := cron_get_path_home pe h in
  match path_home with
  | None => Some (None, h)
  | Some bh =>
    let home := default [] (h !! bh) in
    let path_home_len := Z.of_nat (c_strlen home) in
    let path_crontab_rel_len := Z.of_nat (c_strlen PATH_CRONTAB) in
    match si_add_size_t (path_add_seam pe) path_home_len
                        (size_wrap (path_crontab_rel_len + 1)) with
    | (false, alloc_len) =>
      let '(path_crontab, h) :=
        c_malloc (path_malloc_ok pe) (path_malloc_fill pe) h
                 (default 0 alloc_len) in
      match path_crontab with
      | Some b =>
        match c_stpcpy (default [] (h !! b)) 0 home with
        | Some (buf, path_copy) =>
          match c_stpcpy buf path_copy PATH_CRONTAB with
          | Some (buf, _) => Some (Some b, c_free (<[b := buf]> h) (Some bh))
          | None => None
          end
        | None => None
        end
      | None => Some (None, c_free h (Some bh))
      end
    | (true, _) => Some (None, c_free h (Some bh))
    end
  end.

Definition LOCK_FILE_SUFFIX : list Z := Eval cbv in cstr ".lock".

(** [crond_get_path_lock_file(path_crontab)].  [None] is a write past the
    end of the allocated block. *)
Definition crond_get_path_lock_file (pe : path_env) (h : heap)
  (path_crontab : ptr) : option (ptr * heap) :=
  match path_crontab with
  | None => Some (None, h)
  | Some bc =>
    let crontab := default [] (h !! bc) in
    let path_crontab_len := Z.of_nat (c_strlen crontab) in
    let lock_file_suffix_len := Z.of_nat (c_strlen LOCK_FILE_SUFFIX) in
    match si_add_size_t (path_add_seam pe) path_crontab_len
                        (size_wrap (lock_file_suffix_len + 1)) with
    | (false, alloc_len) =>
      let '(path_lock_file, h) :=
        c_malloc (path_malloc_ok pe) (path_malloc_fill pe) h
                 (default 0 alloc_len) in
      match path_lock_file with
      | Some b =>
        match c_stpcpy (default [] (h !! b)) 0 crontab with
        | Some (buf, copy_ptr) =>
          match c_stpcpy buf copy_ptr LOCK_FILE_SUFFIX with
          | Some (buf, _) => Some (Some b, <[b := buf]> h)
          | None => None
          end
        | None => None
        end
      | None => Some (None, h)
      end
    | (true, _) => Some (None, h)
    end
  end.

(** The string the home directory is taken from, if there is one. *)
Definition home_source (pe : path_env) : option (list Z) :=
  match getenv_home pe with
  | Some env_home => Some env_home
  | None => getpwuid_dir pe
  end.

(** ** The mail address *)

Definition CROND_MAX_HOST_NAME_SZ : nat := 256.
Definition CROND_MAX_USER_NAME : nat := 256.

(** [sizeof(crond->email_to)]. *)
Definition EMAIL_TO_SZ : nat :=
  (CROND_MAX_HOST_NAME_SZ + CROND_MAX_USER_NAME + 1)%nat.

(** What the environment gives while the address is built: the value of
    [LOGNAME], the name of the password entry, the bytes [gethostname]
    leaves in its buffer, and the byte the arrays on the stack hold before
    they are written. *)
Record id_env : Type := mk_id_env {
  getenv_logname : option (list Z);
  getpwuid_name : option (list Z);
  gethostname_buf : list Z;
  stack_fill : Z
}.

(** [strncpy(dest, src, n)]: exactly [n] bytes are written, the bytes of the
    string and then NUL bytes.  [None] is a write past the end of [dest]. *)
Definition c_strncpy (dest src : list Z) (n : nat) : option (list Z) :=
  if (n <=? length dest)%nat
  then Some (memcpy_at dest 0 (take n (c_string src ++ replicate n Ch.NUL)))
  else None.

(** [crond_get_user_name(user_name, user_name_sz)]; [None] is a write
    outside [user_name]. *)
Definition crond_get_user_name (ie : id_env) (user_name : list Z)
  (user_name_sz : nat) : option (list Z) :=
  let user_name_copy :=
    match getenv_logname ie with
    | Some env_logname => env_logname
    | None =>
      match getpwuid_name ie with
      | Some pw_name => pw_name
      | None => []
      end
    end in
  match c_strncpy user_name user_name_copy user_name_sz with
  | Some user_name =>
    if (0 <? user_name_sz)%nat && (user_name_sz <=? length user_name)%nat
    then Some (<[(user_name_sz - 1)%nat := Ch.NUL]> user_name)
    else None
  | None => None
  end.

(** [crond_get_email_to(crond)] on the array [crond->email_to]; [None] is a
    write past the end of an array. *)
Definition crond_get_email_to (ie : id_env) (email_to : list Z)
  : option (list Z) :=
  let host_name :=
    resize CROND_MAX_HOST_NAME_SZ (stack_fill ie) (gethostname_buf ie) in
  let host_name := <[(CROND_MAX_HOST_NAME_SZ - 1)%nat := Ch.NUL]> host_name in
  match crond_get_user_name ie
          (replicate CROND_MAX_USER_NAME (stack_fill ie))
          CROND_MAX_USER_NAME with
  | None => None
  | Some user_name =>
    match c_stpcpy email_to 0 user_name with
    | None => None
    | Some (email, p) =>
      match c_stpcpy email p [Ch.AT] with
      | None => None
      | Some (email, p) =>
        match c_stpcpy email p host_name with
        | None => None
        | Some (email, _) => Some email
        end
      end
    end
  end.

(** The string the user name is taken from. *)
Definition user_source (ie : id_env) : list Z :=
  match getenv_logname ie with
  | Some env_logname => env_logname
  | None => default [] (getpwuid_name ie)
  end.

(** ** The lock file and the signals *)

Definition EEXIST : Z := 17.
Definition SIGHUP : Z := 1.
Definition SIGINT : Z := 2.
Definition SIGTERM : Z := 15.

(** The daemon context with the members the lock functions use: the
    members of [crond] above, [fd_lock_file], [path_lock_file] and
    [path_crontab]. *)
Record crond_ctx : Type := mk_ctx {
  ctx : crond;
  fd_lock_file : Z;
  path_lock_file : ptr;
  path_crontab : ptr
}.

(** [crond_errx_noexit] on the whole context. *)
Definition ctx_errx_noexit (c : crond_ctx) : crond_ctx :=
  mk_ctx (crond_errx_noexit (ctx c)) (fd_lock_file c) (path_lock_file c)
         (path_crontab c).

(** The files that exist, by path. *)
Abbreviation files := (gset (list Z)).

(** What [open] gives when the file does not exist yet: a descriptor, or an
    error number. *)
Inductive open_result : Type :=
| OpenFd (fd : nat)
| OpenErr (errno : Z).

(** [open(path, O_CREAT | O_EXCL | ...)]: the value returned, [errno] and
    the files afterwards.  With [O_EXCL] the call fails with EEXIST when the
    file exists. *)
Definition c_open_excl (fs : files) (path : list Z) (r : open_result)
  : Z * Z * files :=
  if bool_decide (path ∈ fs) then (-1, EEXIST, fs)
  else
    match r with
    | OpenFd fd => (Z.of_nat fd, 0, {[path]} ∪ fs)
    | OpenErr errno => (-1, errno, fs)
    end.

(** What the environment does while the lock file is handled. *)
Record lock_env : Type := mk_lock_env {
  lock_path_env : path_env;
  open_res : open_result;
  close_lock_ok : bool;
  remove_lock_ok : bool
}.

(** [crond_lock_file_create(crond)]; [None] is a write past the end of the
    block of the path.  The two failures of [open] are reported through
    [crond_errx_noexit] with different messages. *)
Definition crond_lock_file_create (le : lock_env) (fs : files) (h : heap)
  (c : crond_ctx) : option (files * heap * crond_ctx) :=
  match crond_get_path_lock_file (lock_path_env le) h (path_crontab c) with
  | None => None
  | Some (p, h) =>
    let c := mk_ctx (ctx c) (fd_lock_file c) p (path_crontab c) in
    match p with
    | None => Some (fs, h, ctx_errx_noexit c)
    | Some b =>
      let '(fd, errno, fs) :=
        c_open_excl fs (c_string (default [] (h !! b))) (open_res le) in
      let c := mk_ctx (ctx c) fd (path_lock_file c) (path_crontab c) in
      if fd <? 0 then
        if errno =? EEXIST then Some (fs, h, ctx_errx_noexit c)
        else Some (fs, h, ctx_errx_noexit c)
      else Some (fs, h, c)
    end
  end.

(** [crond_lock_file_delete(crond)]: a failed [remove] only prints a
    message. *)
Definition crond_lock_file_delete (le : lock_env) (fs : files) (h : heap)
  (c : crond_ctx) : files * crond_ctx :=
  if 0 <? fd_lock_file c then
    let c := if close_lock_ok le then c else ctx_errx_noexit c in
    let path := c_string (default [] (path_lock_file c ≫= (h !!.))) in
    ((if remove_lock_ok le then fs ∖ {[path]} else fs), c)
  else (fs, c).

(** The two indicators the signal handler sets. *)
Record signals : Type := mk_signals {
  g_signal_sigterm : Z;
  g_signal_sigint : Z
}.

(** [crond_signal_handler(signum)]. *)
Definition crond_signal_handler (signum : Z) (g : signals) : signals :=
  if signum =? SIGTERM then mk_signals 1 (g_signal_sigint g)
  else if signum =? SIGINT then mk_signals (g_signal_sigterm g) 1
  else g.

(** [crond_should_exit(crond)]. *)
Definition crond_should_exit (cr : crond) (g : signals) : bool :=
  if (status_code cr =? 0) && (g_signal_sigterm g =? 0)
     && (g_signal_sigint g =? 0)
  then false else true.

(** The signals delivered one after the other. *)
Definition deliver (sigs : list Z) (g : signals) : signals :=
  foldl (fun g signum => crond_signal_handler signum g) g sigs.

(** ** One pass of the main loop *)

(** What [clock_gettime] and [localtime] give in one call of
    [crond_gettime]. *)
Record time_env : Type := mk_time_env {
  clock_gettime_ok : bool;
  localtime_res : option tm
}.

(** [crond_gettime(crond)]: the context and [crond->tm], which is NULL
    ([None]) or points to a broken-down time. *)
Definition crond_gettime (te : time_env) (cr : crond) (tmp : option tm)
  : crond * option tm :=
  if clock_gettime_ok te then
    match localtime_res te with
    | Some t => (cr, Some t)
    | None => (crond_errx_noexit cr, None)
    end
  else (crond_errx_noexit cr, tmp).

(** One iteration of the loop of [crond_job_list_run]: [ran] holds the jobs
    handed to [crond_job_run] so far.  [None] is a read past the job array,
    through a NULL [crond->tm], or outside the job object. *)
Definition job_list_run_step (cr : crond) (tmp : option tm)
  (ran : option (list crond_job)) (i : nat) : option (list crond_job) :=
  match ran, job_list cr !! i, tmp with
  | Some ran, Some job, Some t =>
    match crond_job_should_run t job with
    | Some true => Some (ran ++ [job])
    | Some false => Some ran
    | None => None
    end
  | _, _, _ => None
  end.

(** [crond_job_list_run(crond)]: [for(i = 0; i < crond->num_jobs; i++)]. *)
Definition crond_job_list_run (cr : crond) (tmp : option tm)
  : option (list crond_job) :=
  foldl (job_list_run_step cr tmp) (Some [])
        (seq 0 (Z.to_nat (num_jobs cr))).

(** [unsigned int] arithmetic. *)
Definition uint_wrap (z : Z) : Z := z mod 2 ^ 32.

(** What the environment does during one pass of the loop of [crond_main]:
    the file system and the allocator during the reparse, the clock at the
    two calls of [crond_gettime], and the indicators of the signals when
    [crond_should_exit] is called after the second one. *)
Record pass_env : Type := mk_pass_env {
  pass_files : file_env;
  pass_time_1 : time_env;
  pass_time_2 : time_env;
  pass_signals : signals
}.

(** What one pass leaves: the heap, the context, [crond->tm], the jobs
    handed to [crond_job_run] and the seconds slept, if the pass sleeps. *)
Record pass_result : Type := mk_pass_result {
  pr_heap : heap;
  pr_crond : crond;
  pr_tm : option tm;
  pr_ran : list crond_job;
  pr_sleep : option Z
}.

(** The body of the loop of [crond_main], up to [sleep]; [None] is a read
    through a NULL [crond->tm] or outside an object. *)
Definition crond_main_pass (pe : pass_env) (h : heap) (cr : crond)
  (tmp : option tm) : option pass_result :=
  let '(h, cr) := crond_crontab_reparse (pass_files pe) h cr in
  let '(cr, tmp) := crond_gettime (pass_time_1 pe) cr tmp in
  match crond_job_list_run cr tmp with
  | None => None
  | Some ran =>
    let '(cr, tmp) := crond_gettime (pass_time_2 pe) cr tmp in
    if crond_should_exit cr (pass_signals pe)
    then Some (mk_pass_result h cr tmp ran None)
    else
      match tmp with
      | None => None
      | Some t =>
        let sleep_sec := uint_wrap (60 - uint_wrap (tm_sec t)) in
        let sleep_sec :=
          if sleep_sec =? 0 then uint_wrap (sleep_sec + 1) else sleep_sec in
        Some (mk_pass_result h cr tmp ran (Some sleep_sec))
      end
  end.

(** ** Installing a crontab (src/crontab.c) *)

(** The contents of the regular files, by path. *)
Abbreviation file_contents := (gmap (list Z) (list Z)).

(** What [mkdir] gives. *)
Inductive mkdir_result : Type :=
| MkdirOk
| MkdirErr (errno : Z).

(** One turn of the loop of [crontab_copy_file] as the two streams see it:
    the bytes [fread] delivers, whether it sets the error indicator of the
    input and whether it sets its end-of-file indicator; and, for [fwrite],
    whether it sets the error indicator of the output and how many bytes it
    writes when it does. *)
Record copy_step : Type := mk_copy_step {
  fread_bytes : list Z;
  fread_error : bool;
  fread_eof : bool;
  fwrite_error : bool;
  fwrite_count : nat
}.

(** The indicators of the two streams, which no call clears, and the bytes
    written to the output. *)
Record stream_state : Type := mk_stream {
  in_error : bool;
  out_error : bool;
  out_bytes : list Z
}.

(** What the environment does during [crontab_file_set]. *)
Record file_set_env : Type := mk_file_set_env {
  set_path_env : path_env;
  set_mkdir : mkdir_result;
  set_fopen_ok : bool;
  set_steps : list copy_step;
  set_fclose_ok : bool;
  set_flushed : nat;
  set_rename_ok : bool
}.

Module Crontab.

(** [struct crontab]; the two paths are the strings the pointers
    designate. *)
Record crontab : Type := mk_crontab {
  path_crontab : list Z;
  path_crontab_tmp : list Z;
  status_code : Z;
  flags : Z
}.

(** [crontab_errx_noexit]. *)
Definition crontab_errx_noexit (ct : crontab) : crontab :=
  mk_crontab (path_crontab ct) (path_crontab_tmp ct) EXIT_FAILURE (flags ct).

Definition PATH_APPEND_CONFIG : list Z := Eval cbv in cstr "/.config".

(** [crontab_create_config_dir(crontab)]: the heap, the context and the
    value returned.  [None] is a write past the end of the block of the
    path. *)
Definition crontab_create_config_dir (pe : path_env) (mk : mkdir_result)
  (h : heap) (ct : crontab) : option (heap * crontab * Z) :=
  let '(path_home, h) := cron_get_path_home pe h in
  match path_home with
  | None =>
    let ct := crontab_errx_noexit ct in Some (h, ct, status_code ct)
  | Some bh =>
    let home := default [] (h !! bh) in
    let path_home_len := Z.of_nat (c_strlen home) in
    let path_append_config_len := Z.of_nat (c_strlen PATH_APPEND_CONFIG) in
    match si_add_size_t (path_add_seam pe) path_home_len
                        (size_wrap (path_append_config_len + 1)) with
    | (true, _) =>
      let ct := crontab_errx_noexit ct in
      Some (c_free h (Some bh), ct, status_code ct)
    | (false, alloc_len) =>
      let '(path_config, h) :=
        c_malloc (path_malloc_ok pe) (path_malloc_fill pe) h
                 (default 0 alloc_len) in
      match path_config with
      | None =>
        let ct := crontab_errx_noexit ct in
        Some (c_free h (Some bh), ct, status_code ct)
      | Some b =>
        match c_stpcpy (default [] (h !! b)) 0 home with
        | None => None
        | Some (buf, path_copy) =>
          match c_stpcpy buf path_copy PATH_APPEND_CONFIG with
          | None => None
          | Some (buf, _) =>
            let ct :=
              match mk with
              | MkdirOk => ct
              | MkdirErr errno =>
                if errno =? EEXIST then ct else crontab_errx_noexit ct
              end in
            Some (c_free (c_free (<[b := buf]> h) (Some b)) (Some bh),
                  ct, status_code ct)
          end
        end
      end
    end
  end.

(** What [fwrite] puts in the output in one turn. *)
Definition written (s : copy_step) : list Z :=
  if fwrite_error s then take (fwrite_count s) (fread_bytes s)
  else fread_bytes s.

(** [crontab_copy_file(crontab, fp_in, fp_out)]: the do-while loop, one
    turn per element of [steps]. *)
Fixpoint crontab_copy_file (steps : list copy_step) (ct : crontab)
  (st : stream_state) : ending * crontab * stream_state :=
  match steps with
  | [] => (Pending, ct, st)
  | s :: steps' =>
    let in_err := in_error st || fread_error s in
    let '(ct, st) :=
      if in_err
      then (crontab_errx_noexit ct,
            mk_stream in_err (out_error st) (out_bytes st))
      else
        let out_err := out_error st || fwrite_error s in
        ((if out_err then crontab_errx_noexit ct else ct),
         mk_stream in_err out_err (out_bytes st ++ written s)) in
    if fread_eof s then (Returned, ct, st)
    else crontab_copy_file steps' ct st
  end.

(** [crontab_rename_file(crontab, path_old, path_new)]. *)
Definition crontab_rename_file (ok : bool) (fs : file_contents)
  (ct : crontab) (path_old path_new : list Z)
  : file_contents * crontab * Z :=
  if ok then
    (match fs !! path_old with
     | Some c => <[path_new := c]> (delete path_old fs)
     | None => fs
     end, ct, status_code ct)
  else
    let ct := crontab_errx_noexit ct in (fs, ct, status_code ct).

(** [crontab_file_set(crontab, fp_in)] on an input stream that has just been
    opened.  The output file is created empty by [fopen] and holds what was
    written once [fclose] has succeeded. *)
Definition crontab_file_set (e : file_set_env) (fs : file_contents)
  (h : heap) (ct : crontab)
  : option (ending * file_contents * heap * crontab) :=
  match crontab_create_config_dir (set_path_env e) (set_mkdir e) h ct with
  | None => None
  | Some (h, ct, rc) =>
    if rc =? 0 then
      if set_fopen_ok e then
        let fs := <[path_crontab_tmp ct := []]> fs in
        match crontab_copy_file (set_steps e) ct
                                (mk_stream false false []) with
        | (Returned, ct, st) =>
          if set_fclose_ok e then
            let fs := <[path_crontab_tmp ct := out_bytes st]> fs in
            let '(fs, ct, _) :=
              crontab_rename_file (set_rename_ok e) fs ct
                                  (path_crontab_tmp ct) (path_crontab ct) in
            Some (Returned, fs, h, ct)
          else
            Some (Returned,
                  <[path_crontab_tmp ct
                    := take (set_flushed e) (out_bytes st)]> fs,
                  h, crontab_errx_noexit ct)
        | (en, ct, _) => Some (en, fs, h, ct)
        end
      else Some (Returned, fs, h, crontab_errx_noexit ct)
    else Some (Returned, fs, h, ct)
  end.

(** The bytes the loop writes: those of the turns before the first read
    error, up to the turn that reaches the end of the file. *)
Fixpoint copied (steps : list copy_step) : list Z :=
  match steps with
  | [] => []
  | s :: steps' =>
    if fread_error s then []
    else written s ++ (if fread_eof s then [] else copied steps')
  end.

(** The bytes read up to the end of the file. *)
Fixpoint input_read (steps : list copy_step) : list Z :=
  match steps with
  | [] => []
  | s :: steps' =>
    fread_bytes s ++ (if fread_eof s then [] else input_read steps')
  end.

(** No turn up to the end of the file sets an error indicator. *)
Fixpoint clean (steps : list copy_step) : bool :=
  match steps with
  | [] => true
  | s :: steps' =>
    negb (fread_error s) && negb (fwrite_error s)
    && (if fread_eof s then true else clean steps')
  end.

(** Some turn reaches the end of the file. *)
Definition reaches_eof (steps : list copy_step) : Prop :=
  Exists (fun s => fread_eof s = true) steps.

End Crontab.

(** The job array is consistent with its count, and an array of that many
    entries is an object the address space can hold. *)
Definition store_ok (cr : crond) : Prop :=
  num_jobs cr = Z.of_nat (length (job_list cr)) /\
  num_jobs cr * sizeof_crond_job <= SIZE_MAX.

(** The blocks the pointers of a job designate. *)
Definition job_blocks (job : crond_job) : list nat :=
  match command job with Some b => [b] | None => [] end ++
  match stdin_lines job with Some b => [b] | None => [] end.

Definition store_blocks (cr : crond) : list nat :=
  concat (job_blocks <$> job_list cr).

(** The store owns its buffers over a base heap [h0]: the store is
    consistent, every pointer of a stored job designates a live block that
    is not a block of [h0], no block is designated twice, every stored job
    has a command, and the heap holds nothing else beyond [h0]. *)
Definition owns (h0 h : heap) (cr : crond) : Prop :=
  store_ok cr /\ NoDup (store_blocks cr) /\
  (forall b, b ∈ store_blocks cr -> h0 !! b = None /\ is_Some (h !! b)) /\
  (forall b, b ∉ store_blocks cr -> h !! b = h0 !! b) /\
  Forall (fun job => command job <> None) (job_list cr).

(** Some valid index of the array [f] is set. *)
Definition field_nonempty (c : list bool) (f : field) : Prop :=
  exists i, field_index_ok f i /\ field_get c f i = Some true.

(** A job whose five time fields each allow at least one value. *)
Definition job_schedule_ok (job : crond_job) : Prop :=
  length (cells job) = JOB_CELLS /\
  forall f, f ∈ time_fields -> field_nonempty (cells job) f.

(** The local times at which the job of a preset line is run, as the cells
    the preset writes and the indices the matcher reads make it: [tm_mon] is
    the month as [localtime] gives it, 0 for January. *)
Definition preset_due (p : preset) (t : tm) : bool :=
  match p with
  | yearly | annually =>
    (tm_min t =? 0) && (tm_hour t =? 0) && (tm_mday t =? 1) && (tm_mon t =? 1)
  | monthly =>
    (tm_min t =? 0) && (tm_hour t =? 0) && (tm_mday t =? 1)
    && negb (tm_mon t =? 0)
  | weekly => (tm_min t =? 0) && (tm_hour t =? 0) && (tm_wday t =? 0)
  | daily | midnight => (tm_min t =? 0) && (tm_hour t =? 0)
  | hourly => tm_min t =? 0
  end.

(** The cell the preset [p] leaves at distance [i] from the start of [f],
    for the distances the matcher uses at a valid local time. *)
Definition preset_bit (p : preset) (f : field) (i : Z) : bool :=
  match f, p with
  | minute, _ => i =? 0
  | hour, hourly => true
  | hour, _ => i =? 0
  | day, (yearly | annually | monthly) => i =? 0
  | day, _ => true
  | month, (yearly | annually) => i =? 0
  | month, monthly => negb (i =? -1)
  | month, _ => true
  | weekday, weekly => i =? 0
  | weekday, _ => true
  | pad, _ => false
  end.

(** The five fields all given as a star. *)
Definition STR_ALL_STAR : list Z := Eval cbv in cstr "* * * * *".

(** The text of a field as a list of items: a number, or a range of two
    numbers, each written with one or two digits. *)
Inductive item : Type :=
| ItemSingle (ds : list Z)
| ItemRange (da db : list Z).

Definition item_text (it : item) : list Z :=
  match it with
  | ItemSingle ds => ds
  | ItemRange da db => da ++ Ch.MINUS :: db
  end.

(** The items separated by commas. *)
Fixpoint items_text (its : list item) : list Z :=
  match its with
  | [] => []
  | it :: its' =>
    match its' with
    | [] => item_text it
    | _ => item_text it ++ Ch.COMMA :: items_text its'
    end
  end.

(** The least and the greatest index an item names, the offset taken off. *)
Definition item_bounds (off : Z) (it : item) : Z * Z :=
  match it with
  | ItemSingle ds => (digits_value ds - off, digits_value ds - off)
  | ItemRange da db =>
    (Z.min (digits_value da - off) (digits_value db - off),
     Z.max (digits_value da - off) (digits_value db - off))
  end.

(** Every number of the item is a valid index of [f] once the offset of
    [f] is taken off. *)
Definition item_ok (f : field) (it : item) : Prop :=
  match it with
  | ItemSingle ds =>
    is_digits ds /\ field_index_ok f (digits_value ds - field_offset f)
  | ItemRange da db =>
    is_digits da /\ is_digits db /\
    field_index_ok f (digits_value da - field_offset f) /\
    field_index_ok f (digits_value db - field_offset f)
  end.

(** The cell at position [k] of the job belongs to the indices the item
    names in [f]. *)
Definition item_covers (f : field) (k : nat) (it : item) : Prop :=
  field_base f + (item_bounds (field_offset f) it).1 <= Z.of_nat k
  <= field_base f + (item_bounds (field_offset f) it).2.

#[global] Instance item_covers_dec (f : field) (k : nat) (it : item) :
  Decision (item_covers f k it).
Proof. unfold item_covers. apply _. Defined.

(** * Properties *)

(** ** Lines and indices *)

Section line_facts.

Lemma line_at_drop (line : list Z) (i j : nat) :
line_at (drop i line) j = line_at line (i + j).
Proof. unfold line_at. by rewrite !nth_lookup, lookup_drop. Qed.

Lemma line_at_app_r (pre l : list Z) (j : nat) :
line_at (pre ++ l) (length pre + j) = line_at l j.
Proof.
unfold line_at. rewrite !nth_lookup, lookup_app_r by lia.
by replace (length pre + j - length pre)%nat with j by lia.
Qed.

Lemma drop_head (line : list Z) (i : nat) (x : Z) (l : list Z) :
  drop i line = x :: l -> line_at line i = x /\ drop (S i) line = l.
Proof.
  intros H. split.
  - replace i with (i + 0)%nat by lia. rewrite <- line_at_drop. by rewrite H.
  - replace (S i) with (i + 1)%nat by lia. rewrite <- drop_drop. by rewrite H.
Qed.

Lemma drop_nil_line_at (line : list Z) (i : nat) :
  drop i line = [] -> line_at line i = Ch.NUL.
Proof.
  intros H. replace i with (i + 0)%nat by lia.
  rewrite <- line_at_drop. by rewrite H.
Qed.

Lemma drop_text (line : list Z) (i : nat) (l1 l2 : list Z) :
  drop i line = l1 ++ l2 -> drop (i + length l1) line = l2.
Proof. intros H. by rewrite <- drop_drop, H, drop_app_length. Qed.

Lemma line_at_text (line : list Z) (i : nat) (l : list Z) :
  drop i line = l -> line_at line i = line_at l 0.
Proof.
  intros <-. rewrite line_at_drop. f_equal. lia.
Qed.

Lemma drop_lt_length (buf : list Z) (j : nat) (x : Z) (l : list Z) :
  drop j buf = x :: l -> (j < length buf)%nat.
Proof.
  intros H. apply (f_equal length) in H. rewrite length_drop in H.
  simpl in H. lia.
Qed.


Lemma line_at_beyond (line : list Z) (j : nat) :
  (length line <= j)%nat -> line_at line j = Ch.NUL.
Proof.
  intros H. unfold line_at. by rewrite nth_lookup, lookup_ge_None_2.
Qed.

(** What [crond_crontab_parse_blank] returns is what its loop computes: the
    bytes from [line_idx] up to the returned index are blanks and the byte
    at the returned index is not. *)
Lemma count_blank_spec (s : list Z) :
  (forall j, (j < count_blank s)%nat -> isblank (line_at s j) = true) /\
  isblank (line_at s (count_blank s)) = false.
Proof.
  induction s as [|ch s [IH1 IH2]]; [split; [simpl; lia|reflexivity]|].
  simpl. destruct (isblank ch) eqn:Hb.
  - split; [|exact IH2]. intros [|j] Hj; [exact Hb|]. apply IH1. lia.
  - split; [lia|exact Hb].
Qed.

Lemma crond_crontab_parse_blank_spec (line : list Z) (line_idx : nat) :
  let '(num_blanks, idx) := crond_crontab_parse_blank line line_idx in
  idx = (line_idx + num_blanks)%nat /\
  (forall j, (line_idx <= j < idx)%nat -> isblank (line_at line j) = true) /\
  isblank (line_at line idx) = false.
Proof.
  unfold crond_crontab_parse_blank.
  destruct (count_blank_spec (drop line_idx line)) as [H1 H2].
  split; [reflexivity|]. split.
  - intros j Hj. replace j with (line_idx + (j - line_idx))%nat by lia.
    rewrite <- line_at_drop. apply H1. lia.
  - by rewrite <- line_at_drop.
Qed.

End line_facts.

(** ** Cells and ranges *)

Section set_range_facts.

Implicit Types (c : list bool) (k : nat).

Lemma set_true_lookup (js : list nat) c k :
  foldl (fun m j => <[j := true]> m) c js !! k =
  if bool_decide (k ∈ js) then (fun _ => true) <$> c !! k else c !! k.
Proof.
  revert c. induction js as [|j js IH]; intros c; simpl.
  - reflexivity.
  - rewrite IH. destruct (decide (k = j)) as [->|Hne].
    + rewrite (bool_decide_eq_true_2 (j ∈ j :: js)) by left.
      destruct (decide (j < length c)%nat) as [Hlt|Hge].
      * rewrite list_lookup_insert_eq by done.
        destruct (lookup_lt_is_Some_2 c j Hlt) as [x ->].
        by destruct (bool_decide _).
      * rewrite list_insert_ge by lia.
        rewrite (lookup_ge_None_2 c j) by lia.
        by destruct (bool_decide _).
    + rewrite list_lookup_insert_ne by done.
      destruct (decide (k ∈ js)) as [Hin|Hnin].
      * rewrite !bool_decide_eq_true_2; [done|by right|done].
      * rewrite !bool_decide_eq_false_2; [done| |done].
        intros [?| ?]%elem_of_cons; done.
Qed.

Lemma set_true_length (js : list nat) c :
  length (foldl (fun m j => <[j := true]> m) c js) = length c.
Proof.
  revert c. induction js as [|j js IH]; intros c; simpl; [done|].
  by rewrite IH, length_insert.
Qed.

Lemma crond_set_field_range_fold c base start end_ :
  crond_set_field_range c base start end_ =
  foldl (fun m j => <[j := true]> m) c
        ((fun i => Z.to_nat (base + i)) <$> seqZ start (end_ - start + 1)).
Proof. unfold crond_set_field_range. by rewrite foldl_fmap. Qed.

Lemma crond_set_field_range_length c base start end_ :
  length (crond_set_field_range c base start end_) = length c.
Proof. rewrite crond_set_field_range_fold. apply set_true_length. Qed.

(** The loop writes exactly the cells [base + start .. base + end]. *)
Lemma crond_set_field_range_lookup c base start end_ k :
  0 <= base + start ->
  crond_set_field_range c base start end_ !! k =
  if bool_decide (base + start <= Z.of_nat k <= base + end_)
  then (fun _ => true) <$> c !! k else c !! k.
Proof.
  intros Hnn. rewrite crond_set_field_range_fold, set_true_lookup.
  destruct (decide (base + start <= Z.of_nat k <= base + end_)) as [Hin|Hout].
  - rewrite !bool_decide_eq_true_2; [done|done|].
    apply list_elem_of_fmap. exists (Z.of_nat k - base). split; [lia|].
    apply elem_of_seqZ. lia.
  - rewrite !bool_decide_eq_false_2; [done|done|].
    intros (i & -> & Hi%elem_of_seqZ)%list_elem_of_fmap. lia.
Qed.

(** A cell that is true stays true. *)
Lemma crond_set_field_range_mono c base start end_ k :
  c !! k = Some true ->
  crond_set_field_range c base start end_ !! k = Some true.
Proof.
  intros Hk. rewrite crond_set_field_range_fold, set_true_lookup, Hk.
  by destruct (bool_decide _).
Qed.


End set_range_facts.




(** ** The change detector *)

Section le_bytes_facts.

Lemma byte_testbit (a k r : Z) :
  0 <= k -> 0 <= r < 8 ->
  Z.testbit (Z.land (Z.shiftr a (8 * k)) 255) r = Z.testbit a (8 * k + r).
Proof.
  intros Hk Hr. rewrite Z.land_spec, Z.shiftr_spec by lia.
  change 255 with (Z.ones 8). rewrite Z.ones_spec_low by lia.
  rewrite andb_true_r. f_equal. lia.
Qed.

Lemma le_bytes_8_low_bits (a b n : Z) :
  le_bytes 8 a = le_bytes 8 b -> 0 <= n < 64 ->
  Z.testbit a n = Z.testbit b n.
Proof.
  intros Heq Hn. unfold le_bytes in Heq. simpl in Heq.
  injection Heq as E0 E1 E2 E3 E4 E5 E6 E7.
  assert (Hsplit : n = 8 * (n / 8) + n mod 8) by (apply Z.div_mod; lia).
  assert (Hr : 0 <= n mod 8 < 8) by (apply Z.mod_pos_bound; lia).
  assert (Hq : 0 <= n / 8 < 8)
    by (split; [apply Z.div_pos; lia | apply Z.div_lt_upper_bound; lia]).
  rewrite Hsplit.
  assert (Hcase : n / 8 = 0 \/ n / 8 = 1 \/ n / 8 = 2 \/ n / 8 = 3 \/
                  n / 8 = 4 \/ n / 8 = 5 \/ n / 8 = 6 \/ n / 8 = 7) by lia.
  destruct Hcase as [Hk|[Hk|[Hk|[Hk|[Hk|[Hk|[Hk|Hk]]]]]]]; rewrite Hk;
    rewrite <- !byte_testbit by lia; f_equal; assumption.
Qed.

(** Two values of a 64-bit signed type with the same bytes are equal. *)
Lemma le_bytes_8_inj (a b : Z) :
  - 2 ^ 63 <= a < 2 ^ 63 -> - 2 ^ 63 <= b < 2 ^ 63 ->
  le_bytes 8 a = le_bytes 8 b -> a = b.
Proof.
  intros Ha Hb Heq.
  assert (Hmod : a mod 2 ^ 64 = b mod 2 ^ 64).
  { apply Z.bits_inj'. intros n Hn.
    destruct (Z_lt_le_dec n 64) as [Hlt|Hge].
    - rewrite !Z.mod_pow2_bits_low by lia.
      apply le_bytes_8_low_bits; [assumption|lia].
    - rewrite !Z.mod_pow2_bits_high by lia. reflexivity. }
  pose proof (Z.div_mod a (2 ^ 64) ltac:(lia)) as Da.
  pose proof (Z.div_mod b (2 ^ 64) ltac:(lia)) as Db.
  pose proof (Z.mod_pos_bound a (2 ^ 64) ltac:(lia)) as Ba.
  rewrite Hmod in Da, Ba. lia.
Qed.

Lemma le_bytes_length (n : nat) (a : Z) : length (le_bytes n a) = n.
Proof. unfold le_bytes. by rewrite length_map, length_seq. Qed.

Lemma timespec_bytes_inj (t1 t2 : timespec) :
  timespec_ok t1 -> timespec_ok t2 ->
  timespec_bytes t1 = timespec_bytes t2 -> t1 = t2.
Proof.
  intros [H1s H1n] [H2s H2n] Heq. unfold timespec_bytes in Heq.
  apply app_inj_1 in Heq as [Es En]; [|by rewrite !le_bytes_length].
  destruct t1, t2; simpl in *. f_equal; by apply le_bytes_8_inj.
Qed.

End le_bytes_facts.

(** C6, the claim as it is written, at the start state of the daemon and a
    crontab whose modification time is the epoch: the stored timestamp is
    all-zero, the file exists, and the detector reports unchanged. *)
Lemma has_changed_first_observation_epoch :
  mtime_crontab crond_zero = mk_timespec 0 0 /\
  (crond_crontab_has_changed (StatOk (mk_timespec 0 0)) crond_zero).2 = false.
Proof. split; reflexivity. Qed.

(** C6, amended.  When stat succeeds the detector reports changed exactly
    when the timestamp of the file differs byte for byte (equivalently, as a
    pair of 64-bit values) from the stored one, and the stored value is then
    the file's; the first observation of an existing file after start
    reports changed when the file's timestamp is not all-zero.  When stat
    fails with ENOENT it reports changed exactly when the stored value is not
    zero, and the stored value is zero afterwards.  On any other error it
    sets the failure status and reports unchanged.  The job store is never
    touched. *)
Theorem has_changed_cases (cr : crond) (st_mtim : timespec) (errno : Z) :
  timespec_ok (mtime_crontab cr) -> timespec_ok st_mtim ->
  (let r := crond_crontab_has_changed (StatOk st_mtim) cr in
   (r.2 = true <->
    timespec_bytes (mtime_crontab cr) <> timespec_bytes st_mtim) /\
   (r.2 = true <-> mtime_crontab cr <> st_mtim) /\
   mtime_crontab r.1 = st_mtim /\
   status_code r.1 = status_code cr /\
   job_list r.1 = job_list cr /\ num_jobs r.1 = num_jobs cr) /\
  (mtime_crontab cr = mk_timespec 0 0 -> st_mtim <> mk_timespec 0 0 ->
   (crond_crontab_has_changed (StatOk st_mtim) cr).2 = true) /\
  (let r := crond_crontab_has_changed (StatErr ENOENT) cr in
   (r.2 = true <-> mtime_crontab cr <> mk_timespec 0 0) /\
   mtime_crontab r.1 = mk_timespec 0 0 /\
   status_code r.1 = status_code cr /\
   job_list r.1 = job_list cr /\ num_jobs r.1 = num_jobs cr) /\
  (errno <> ENOENT ->
   let r := crond_crontab_has_changed (StatErr errno) cr in
   r.2 = false /\ status_code r.1 = EXIT_FAILURE /\
   mtime_crontab r.1 = mtime_crontab cr /\
   job_list r.1 = job_list cr /\ num_jobs r.1 = num_jobs cr).
Proof.
  intros Hcr Hst.
  assert (Hbytes : timespec_bytes (mtime_crontab cr) = timespec_bytes st_mtim
                   <-> mtime_crontab cr = st_mtim).
  { split; [by apply timespec_bytes_inj | by intros ->]. }
  assert (Hok : let r := crond_crontab_has_changed (StatOk st_mtim) cr in
                r.2 = true <->
                timespec_bytes (mtime_crontab cr) <> timespec_bytes st_mtim).
  { simpl. unfold memcmp_ne. case_bool_decide; simpl; split; congruence. }
  split; [|split; [|split]].
  - split; [exact Hok|]. split; [rewrite <- Hbytes; exact Hok|].
    simpl. unfold memcmp_ne. case_bool_decide as Heq; simpl.
    + apply Hbytes in Heq. by rewrite Heq.
    + done.
  - intros Hzero Hne. apply Hok. rewrite Hbytes. congruence.
  - simpl. destruct cr as [sc [s n] jl nj]; simpl.
    destruct (Z.eqb_spec s 0) as [->|Hs]; destruct (Z.eqb_spec n 0) as [->|Hn];
      simpl; (split; [split; [congruence|done || (intros H; by destruct H)]|done]).
  - intros Hne. simpl. destruct (Z.eqb_spec errno ENOENT); [done|].
    by simpl.
Qed.

Lemma has_changed_cases_witness :
  timespec_ok (mtime_crontab crond_zero) /\ timespec_ok (mk_timespec 5 7) /\
  13 <> ENOENT /\
  (crond_crontab_has_changed (StatOk (mk_timespec 5 7)) crond_zero).2 = true /\
  (crond_crontab_has_changed (StatErr 13) crond_zero).2 = false.
Proof.
  assert (H0 : timespec_ok (mtime_crontab crond_zero))
    by (unfold timespec_ok; simpl; lia).
  assert (H1 : timespec_ok (mk_timespec 5 7))
    by (unfold timespec_ok; simpl; lia).
  assert (H2 : 13 <> ENOENT) by (unfold ENOENT; lia).
  destruct (has_changed_cases crond_zero (mk_timespec 5 7) 13 H0 H1)
    as (_ & Hfirst & _ & Hother).
  split; [exact H0|]. split; [exact H1|]. split; [exact H2|]. split.
  - apply Hfirst; [reflexivity|congruence].
  - apply (Hother H2).
Defined.

(** ** The matcher *)

Lemma and_lookup_log_mono (c : list bool) (f : field) (i : Z)
  (a : lookup_log * option bool) (x : field * Z) :
  x ∈ a.1 -> x ∈ (and_lookup c f i a).1.
Proof.
  destruct a as [log [[|]|]]; simpl; [|done..].
  intros H. apply elem_of_app. by left.
Qed.

Lemma and_lookup_stuck (c : list bool) (f : field) (i : Z)
  (log : lookup_log) (o : option bool) :
  o <> Some true -> and_lookup c f i (log, o) = (log, o).
Proof. destruct o as [[|]|]; simpl; congruence. Qed.

(** C8, the claim as it is written, at the job of [5 5 31 5 5 /bin/x] and a
    Wednesday in January: the weekday lookup is false, the conjunction stops
    there, and the month array is not indexed at all. *)
Lemma month_lookup_skipped :
  exists job, parsed_job "5 5 31 5 5 /bin/x" = Some job /\
  let t := mk_tm 0 5 5 31 0 3 in
  tm_mon t = 0 /\
  should_run_lookups t job = ([(weekday, 3)], Some false) /\
  (month, -1) ∉ (should_run_lookups t job).1.
Proof.
  eexists. split; [vm_compute; reflexivity|].
  split; [reflexivity|]. split; [vm_compute; reflexivity|].
  vm_compute. intros H. apply list_elem_of_singleton in H. discriminate H.
Qed.

(** C8, amended.  For every job and every broken-down time with
    [tm_mon = 0], the matcher indexes the month array at [tm_mon - 1 = -1]
    exactly when the job's weekday lookup at [tm_wday] is true (otherwise the
    conjunction has stopped before the month lookup).  The index -1 is
    outside the valid range 0..11 of the month array, and under the declared
    layout the cell read is element 30 of the day array. *)
Theorem month_lookup_january (job : crond_job) (t : tm) :
  tm_mon t = 0 ->
  ((month, -1) ∈ (should_run_lookups t job).1 <->
   field_get (cells job) weekday (tm_wday t) = Some true) /\
  ~ field_index_ok month (-1) /\
  field_index_ok day 30 /\
  field_get (cells job) month (-1) = field_get (cells job) day 30.
Proof.
  intros Hmon. split; [|split; [|split]].
  - unfold should_run_lookups. rewrite Hmon. simpl.
    destruct (field_get (cells job) weekday (tm_wday t)) as [[|]|] eqn:Hw.
    + split; [done|]. intros _.
      do 3 apply and_lookup_log_mono. simpl.
      apply elem_of_cons. right. apply list_elem_of_singleton. reflexivity.
    + rewrite !and_lookup_stuck by done. simpl. split; [|done].
      intros [=]%list_elem_of_singleton.
    + rewrite !and_lookup_stuck by done. simpl. split; [|done].
      intros [=]%list_elem_of_singleton.
  - unfold field_index_ok. simpl. lia.
  - unfold field_index_ok. simpl. lia.
  - reflexivity.
Qed.

Lemma month_lookup_january_witness :
  exists job, parsed_job "5 5 31 5 5 /bin/x" = Some job /\
  let t := mk_tm 0 5 5 31 0 5 in
  tm_valid t /\ tm_mon t = 0 /\
  (month, -1) ∈ (should_run_lookups t job).1.
Proof.
  eexists. split; [vm_compute; reflexivity|].
  split; [unfold tm_valid; simpl; lia|]. split; [reflexivity|].
  eapply month_lookup_january; [reflexivity|].
  vm_compute. reflexivity.
Defined.

(** C4 at the failing input: the job of [5 5 31 5 5 /bin/x] has singleton
    fields, the time is a valid 31 January (tm_mon = 0 differs from the
    job's month 5), and the matcher returns true: the month lookup at index
    -1 reads element 30 of the day array, which day 31 has set. *)
Lemma should_run_january_31 :
  exists job, parsed_job "5 5 31 5 5 /bin/x" = Some job /\
  map (field_bits (cells job)) time_fields = [[5]; [5]; [30]; [4]; [5]] /\
  let t := mk_tm 0 5 5 31 0 5 in
  tm_valid t /\ tm_mon t <> 5 /\
  crond_job_should_run t job = Some true.
Proof.
  eexists. split; [vm_compute; reflexivity|].
  split; [vm_compute; reflexivity|].
  split; [unfold tm_valid; simpl; lia|]. split; [simpl; lia|].
  vm_compute. reflexivity.
Qed.

(** Scenario 6 of the specification. *)
Example should_run_scenario :
  exists job, parsed_job "2 3 4 5 6 /bin/x" = Some job /\
  cells job = singleton_cells 2 3 3 4 6 /\
  crond_job_should_run (mk_tm 0 2 3 4 5 6) job = Some true /\
  crond_job_should_run (mk_tm 0 3 3 4 5 6) job = Some false.
Proof.
  eexists. split; [vm_compute; reflexivity|].
  split; [vm_compute; reflexivity|].
  split; vm_compute; reflexivity.
Qed.

Section singleton_facts.

Variables m h d mo w : Z.
Hypothesis Hm : field_index_ok minute m.
Hypothesis Hh : field_index_ok hour h.
Hypothesis Hd : field_index_ok day d.
Hypothesis Hmo : field_index_ok month mo.
Hypothesis Hw : field_index_ok weekday w.

Lemma field_get_set_single (c : list bool) (g f : field) (x i : Z) :
  length c = JOB_CELLS -> 0 <= field_base g + x ->
  0 <= field_base f + i < Z.of_nat JOB_CELLS ->
  field_get (set_range g x x c) f i =
  if bool_decide (field_base f + i = field_base g + x) then Some true
  else field_get c f i.
Proof.
  intros Hlen Hg Hf. unfold field_get, set_range.
  rewrite (proj2 (Z.leb_le _ _)) by lia.
  rewrite crond_set_field_range_lookup by lia.
  destruct (lookup_lt_is_Some_2 c (Z.to_nat (field_base f + i))) as [b Hb];
    [lia|].
  rewrite Hb. repeat case_bool_decide; try lia; done.
Qed.

(** Inside the arrays, the cells of the job are true at the value of each
    field and nowhere else. *)
Lemma field_get_singleton_cells (f : field) (i : Z) :
  f <> pad -> field_index_ok f i ->
  field_get (singleton_cells m h d mo w) f i
  = Some (bool_decide (i = singleton_value m h d mo w f)).
Proof.
  intros Hf Hi. unfold singleton_cells.
  unfold field_index_ok in *.
  assert (Hlens : forall c0 g s e, length c0 = JOB_CELLS ->
            length (set_range g s e c0) = JOB_CELLS).
  { intros. unfold set_range. by rewrite crond_set_field_range_length. }
  assert (Hzero : field_get (cells job_zero) f i = Some false).
  { unfold field_get. change (cells job_zero) with (replicate JOB_CELLS false).
    assert (0 <= field_base f + i < 136)
      by (destruct f; cbn [field_base field_len] in *; try done; lia).
    rewrite (proj2 (Z.leb_le _ _)) by lia.
    apply lookup_replicate_2. unfold JOB_CELLS. lia. }
  rewrite !field_get_set_single, Hzero;
    try (repeat apply Hlens; reflexivity);
    try (destruct f; simpl in *; unfold JOB_CELLS; lia).
  destruct f; simpl in *; try done;
    repeat case_bool_decide; try lia; reflexivity.
Qed.

(** For a time whose five indices fall inside the arrays (so [tm_mon] is
    at least 1), the matcher returns true exactly when the time equals the
    job in all five fields. *)
Lemma should_run_singleton (t : tm) (job : crond_job) :
  cells job = singleton_cells m h d mo w ->
  field_index_ok minute (tm_min t) -> field_index_ok hour (tm_hour t) ->
  field_index_ok day (tm_mday t - 1) -> field_index_ok month (tm_mon t - 1) ->
  field_index_ok weekday (tm_wday t) ->
  crond_job_should_run t job
  = Some (bool_decide (tm_min t = m /\ tm_hour t = h /\ tm_mday t - 1 = d /\
                       tm_mon t - 1 = mo /\ tm_wday t = w)).
Proof.
  intros Hc Tm Th Td Tmo Tw.
  unfold crond_job_should_run, should_run_lookups. rewrite Hc.
  unfold and_lookup at 5.
  rewrite (field_get_singleton_cells weekday) by done.
  case_bool_decide as Ew; simpl in Ew;
    [|rewrite !and_lookup_stuck by done; simpl;
      rewrite bool_decide_eq_false_2; [done|tauto]].
  unfold and_lookup at 4.
  rewrite (field_get_singleton_cells month) by done.
  case_bool_decide as Emo; simpl in Emo;
    [|rewrite !and_lookup_stuck by done; simpl;
      rewrite bool_decide_eq_false_2; [done|tauto]].
  unfold and_lookup at 3.
  rewrite (field_get_singleton_cells day) by done.
  case_bool_decide as Ed; simpl in Ed;
    [|rewrite !and_lookup_stuck by done; simpl;
      rewrite bool_decide_eq_false_2; [done|tauto]].
  unfold and_lookup at 2.
  rewrite (field_get_singleton_cells hour) by done.
  case_bool_decide as Eh; simpl in Eh;
    [|rewrite !and_lookup_stuck by done; simpl;
      rewrite bool_decide_eq_false_2; [done|tauto]].
  unfold and_lookup.
  rewrite (field_get_singleton_cells minute) by done. simpl.
  f_equal. apply bool_decide_ext. simpl. tauto.
Qed.

End singleton_facts.

(** ** The job store *)

Section store_facts.

Lemma heap_alloc_spec (h : heap) (v : list Z) :
  exists b, h !! b = None /\ heap_alloc h v = (Some b, <[b := v]> h).
Proof.
  exists (fresh (dom h)). split; [|reflexivity].
  apply not_elem_of_dom, is_fresh.
Qed.

(** Whatever [crond_crontab_parse_command] allocated for a job that held
    no buffer is released by [crond_job_free]. *)
Lemma parse_command_then_free (env : alloc_env) (h : heap) (line : list Z)
  (idx : nat) (job : crond_job) :
  command job = None -> stdin_lines job = None ->
  let r := crond_crontab_parse_command env h line idx job in
  crond_job_free r.1.2 r.2 = h.
Proof.
  destruct job as [cmd sl len c]. cbn [command stdin_lines]. intros -> ->.
  unfold crond_crontab_parse_command. cbn [command stdin_lines cells].
  destruct (find_stdin_start (S (length line)) line idx) as [i start].
  unfold c_strndup, c_strdup.
  destruct (strndup_ok env); [|reflexivity].
  match goal with |- context [heap_alloc h ?v] =>
    destruct (heap_alloc_spec h v) as (b1 & Hb1 & ->) end.
  destruct start as [start|]; simpl.
  2: { unfold crond_job_free. simpl. by apply delete_insert_id. }
  destruct (strdup_ok env).
  2: { unfold crond_job_free. simpl. by apply delete_insert_id. }
  match goal with |- context [heap_alloc ?h1 ?v] =>
    destruct (heap_alloc_spec h1 v) as (b2 & Hb2 & ->) end.
  apply lookup_insert_None in Hb2 as [Hb2 Hne].
  rewrite lookup_insert_eq. simpl.
  destruct (stdin_lines_loop _ _ 0 0) as [buf n]. simpl.
  unfold crond_job_free, c_free. cbn [command stdin_lines fst snd].
  rewrite insert_insert_eq, delete_insert_ne by done.
  rewrite (delete_insert_id h b1) by done.
  by apply delete_insert_id.
Qed.

Lemma crond_job_append_failure (env : alloc_env) (cr : crond)
  (job : crond_job) :
  (si_mul_size_t (si_mul_seam env) (size_wrap (num_jobs cr + 1))
                 sizeof_crond_job).1 = true
  \/ realloc_ok env = false ->
  crond_job_append env cr job = (crond_errx_noexit cr, false).
Proof.
  intros Hfail. unfold crond_job_append, crond_reallocarray.
  destruct (si_mul_size_t _ _ _) as [wraps res]. simpl in Hfail.
  destruct wraps; [reflexivity|].
  destruct Hfail as [?| ->]; [discriminate|reflexivity].
Qed.

End store_facts.

(** C7.  When the size computation [(num_jobs + 1) * sizeof(job)] reports a
    wrap (by itself or forced through the seam) or [realloc] fails,
    [crond_job_append] returns false and leaves [job_list] and [num_jobs] as
    they were, so the job is not in the store, complete or partial; and
    [crond_crontab_parse_line], its caller, has released every buffer it
    allocated for the job: the heap after the call is the heap before it. *)
Theorem job_append_failure_keeps_store (env : alloc_env) (h : heap)
  (cr : crond) (job : crond_job) (line : list Z) :
  (si_mul_size_t (si_mul_seam env) (size_wrap (num_jobs cr + 1))
                 sizeof_crond_job).1 = true
  \/ realloc_ok env = false ->
  (let r := crond_job_append env cr job in
   r.2 = false /\ job_list r.1 = job_list cr /\ num_jobs r.1 = num_jobs cr) /\
  (let r := crond_crontab_parse_line env h cr line in
   r.1 = h /\ job_list r.2 = job_list cr /\ num_jobs r.2 = num_jobs cr).
Proof.
  intros Hfail. split.
  - rewrite crond_job_append_failure by assumption. by simpl.
  - unfold crond_crontab_parse_line.
    destruct (crond_crontab_parse_blank line 0) as [n0 i0].
    destruct (negb _ && negb _); [|by simpl].
    destruct (if line_at line i0 =? Ch.AT then _ else _) as [[valid i1] c].
    destruct valid; [|by simpl].
    destruct (crond_crontab_parse_blank line i1) as [n2 i2].
    pose proof (parse_command_then_free env h line i2
                  (mk_job None None 0 c) eq_refl eq_refl) as Hfree.
    simpl in Hfree. change (command job_zero) with (@None nat).
    change (stdin_lines job_zero) with (@None nat).
    change (stdin_lines_len job_zero) with 0.
    destruct (crond_crontab_parse_command env h line i2 _)
      as [[parsed h'] job'].
    simpl in Hfree. destruct parsed.
    + rewrite crond_job_append_failure by assumption. by simpl.
    + by simpl.
Qed.

Lemma job_append_failure_keeps_store_witness :
  let env := mk_env true true false false in
  realloc_ok env = false /\
  (crond_crontab_parse_line env ∅ crond_zero
     (cstr "* * * * * /bin/cat%in")).1 = ∅ /\
  job_list (crond_crontab_parse_line env ∅ crond_zero
     (cstr "* * * * * /bin/cat%in")).2 = [].
Proof.
  intros env. split; [reflexivity|].
  destruct (job_append_failure_keeps_store env ∅ crond_zero job_zero
              (cstr "* * * * * /bin/cat%in") (or_intror eq_refl))
    as (_ & Hheap & Hlist & _).
  split; [exact Hheap|exact Hlist].
Defined.

(** The size computation does report a wrap for a store that large. *)
Example si_mul_size_t_wraps :
  (si_mul_size_t false (SIZE_MAX / sizeof_crond_job + 1) sizeof_crond_job).1
  = true /\
  (si_mul_size_t false (SIZE_MAX / sizeof_crond_job) sizeof_crond_job).1
  = false.
Proof. split; vm_compute; reflexivity. Qed.

(** ** Reading the crontab again *)

Section getlines_facts.

Lemma getlines_app (pre rest cur : list Z) :
  last pre = Some Ch.LF ->
  getlines cur (pre ++ rest) = getlines cur pre ++ getlines [] rest.
Proof.
  revert cur. induction pre as [|c pre IH]; intros cur Hlast.
  - discriminate.
  - simpl. destruct pre as [|c' pre'].
    + simpl in Hlast. injection Hlast as ->. reflexivity.
    + assert (Hl : last (c' :: pre') = Some Ch.LF) by exact Hlast.
      destruct (c =? Ch.LF).
      * rewrite (IH [] Hl). reflexivity.
      * apply (IH _ Hl).
Qed.

Lemma getlines_no_newline (l cur : list Z) :
  Ch.LF ∉ l -> cur ++ l <> [] -> getlines cur l = [cur ++ l].
Proof.
  revert cur. induction l as [|c l IH]; intros cur Hnl Hne.
  - simpl. rewrite app_nil_r in *. by destruct cur.
  - simpl. apply not_elem_of_cons in Hnl as [Hc Hl].
    destruct (Z.eqb_spec c Ch.LF) as [->|_]; [done|].
    rewrite IH; [by rewrite <- app_assoc|done|].
    rewrite <- app_assoc. simpl. by destruct cur.
Qed.

Lemma chop_last_snoc (l : list Z) (x : Z) :
  chop_last (l ++ [x]) = l ++ [Ch.NUL].
Proof.
  unfold chop_last. destruct (l ++ [x]) eqn:E; [by destruct l|].
  rewrite <- E. rewrite length_app. simpl.
  replace (length l + 1 - 1)%nat with (length l + 0)%nat by lia.
  by rewrite insert_app_r.
Qed.

Lemma c_strlen_no_nul (l rest : list Z) :
  Ch.NUL ∉ l -> c_strlen (l ++ Ch.NUL :: rest) = length l.
Proof.
  induction l as [|c l IH]; intros Hnn; simpl; [reflexivity|].
  apply not_elem_of_cons in Hnn as [Hc Hl].
  destruct (Z.eqb_spec c Ch.NUL); [congruence|]. by rewrite IH.
Qed.


Lemma c_string_terminated (l rest : list Z) :
  Ch.NUL ∉ l -> c_string (l ++ Ch.NUL :: rest) = l.
Proof.
  intros Hnn. unfold c_string. rewrite c_strlen_no_nul by done.
  by rewrite take_app_length.
Qed.

Lemma parse_lines_app (fe : file_env) (l1 l2 : list (list Z)) (n : nat)
  (h : heap) (cr : crond) :
  parse_lines fe n h cr (l1 ++ l2) =
  let '(h1, cr1) := parse_lines fe n h cr l1 in
  parse_lines fe (n + length l1) h1 cr1 l2.
Proof.
  revert n h cr. induction l1 as [|l l1 IH]; intros n h cr; simpl.
  - by rewrite Nat.add_0_r.
  - destruct (crond_crontab_parse_line _ h cr _) as [h' cr'].
    rewrite IH. by replace (S n + length l1)%nat with (n + S (length l1))%nat by lia.
Qed.

End getlines_facts.

(** C10.  When the bytes after the last newline of the file are not empty,
    [getline] returns them as a final line, the loop replaces the last of
    them by the terminator, and the parser gets the line without its final
    byte. *)
Theorem reparse_chops_unterminated_line (fe : file_env) (n : nat) (h : heap)
  (cr : crond) (pre final : list Z) (x : Z) :
  pre = [] \/ last pre = Some Ch.LF ->
  Ch.LF ∉ final ++ [x] ->
  getlines [] (pre ++ final ++ [x]) = getlines [] pre ++ [final ++ [x]] /\
  chop_last (final ++ [x]) = final ++ [Ch.NUL] /\
  (Ch.NUL ∉ final -> c_string (chop_last (final ++ [x])) = final) /\
  parse_lines fe n h cr (getlines [] (pre ++ final ++ [x])) =
  (let '(h1, cr1) := parse_lines fe n h cr (getlines [] pre) in
   crond_crontab_parse_line (line_env fe (n + length (getlines [] pre)))
                            h1 cr1 (final ++ [Ch.NUL])).
Proof.
  intros Hpre Hnl.
  assert (Hlines : getlines [] (pre ++ final ++ [x])
                   = getlines [] pre ++ [final ++ [x]]).
  { destruct Hpre as [->|Hlast].
    - simpl. apply (getlines_no_newline (final ++ [x]) []); [done|].
      by destruct final.
    - rewrite getlines_app by done. f_equal.
      apply (getlines_no_newline (final ++ [x]) []); [done|].
      by destruct final. }
  split; [exact Hlines|]. split; [apply chop_last_snoc|].
  split.
  - intros Hnn. rewrite chop_last_snoc. by apply c_string_terminated.
  - rewrite Hlines, parse_lines_app.
    destruct (parse_lines fe n h cr (getlines [] pre)) as [h1 cr1].
    simpl. rewrite chop_last_snoc.
    by destruct (crond_crontab_parse_line _ h1 cr1 _).
Qed.

Lemma reparse_chops_unterminated_line_witness :
  let content := cstr "* * * * * /bin/true" in
  let fe := mk_file_env (StatOk (mk_timespec 5 7)) (Some content) false true
                        (fun _ => env_ok) in
  (Ch.LF ∉ content) /\
  getlines [] content = [content] /\
  chop_last content = cstr "* * * * * /bin/tru" ++ [Ch.NUL] /\
  (let r := crond_crontab_reparse fe ∅ crond_zero in
   job_command r.1 <$> job_list r.2) = [Some (cstr "/bin/tru")].
Proof.
  intros content fe.
  assert (Hnl : Ch.LF ∉ content).
  { intros Hin. apply list_elem_of_In in Hin. vm_compute in Hin.
    repeat (destruct Hin as [Hin|Hin]; [discriminate Hin|]). exact Hin. }
  split; [exact Hnl|].
  destruct (reparse_chops_unterminated_line fe 0 ∅ crond_zero []
              (cstr "* * * * * /bin/tru") 101 (or_introl eq_refl) Hnl)
    as (Hlines & Hchop & _ & _).
  split; [exact Hlines|]. split; [exact Hchop|].
  vm_compute. reflexivity.
Defined.


(** ** Fields given as a star *)

Lemma field_end_in_job (f : field) :
  f <> pad -> 0 <= field_base f /\ 0 < field_len f /\
  field_base f + field_len f < Z.of_nat JOB_CELLS.
Proof. destruct f; simpl; intros; try done; lia. Qed.


Lemma strncmp_eq_app (line : list Z) (i : nat) (tok rest str : list Z) :
  drop i line = tok ++ rest ->
  strncmp_eq line i str = bool_decide (take (length str) (tok ++ rest) = str).
Proof. intros H. unfold strncmp_eq. by rewrite H. Qed.

(** The token decides the branch: no token is a prefix of another. *)
Lemma parse_special_token (p : preset) (line rest : list Z) (i : nat)
  (c : list bool) :
  drop (S i) line = preset_token p ++ rest ->
  parse_special line i c
  = (true, (S i + length (preset_token p))%nat, preset_cells p c).
Proof.
  intros Hdrop. unfold parse_special.
  rewrite !(strncmp_eq_app line (S i) _ rest _ Hdrop).
  replace (line_at line (S i)) with (line_at (preset_token p ++ rest) 0)
    by (rewrite <- Hdrop, line_at_drop; f_equal; lia).
  destruct p; vm_compute; reflexivity.
Qed.



(** Scenario 2 of the specification: in the job of [* * * * * /bin/true]
    every time field also has the cell past its end set, the last one being
    the first padding byte. *)
Example all_star_line :
  exists job, parsed_job "* * * * * /bin/true" = Some job /\
  map (fun f => length (field_bits (cells job) f)) time_fields
  = [60; 24; 31; 12; 7]%nat /\
  map (fun f => field_get (cells job) f (field_len f)) time_fields
  = [Some true; Some true; Some true; Some true; Some true] /\
  field_get (cells job) pad 0 = Some true.
Proof.
  eexists. split; [vm_compute; reflexivity|].
  split; [vm_compute; reflexivity|]. split; vm_compute; reflexivity.
Qed.

(** ** Ranges *)

Section range_facts.

Lemma isdigit_bounds (ch : Z) : isdigit ch = true -> 48 <= ch <= 57.
Proof. unfold isdigit, Ch.ZERO, Ch.NINE. lia. Qed.


(** The digit loop on a line that carries [ds] at [idx]. *)
Lemma read_digits_text (line : list Z) (idx : nat) (ds rest : list Z) :
  drop idx line = ds ++ rest -> is_digits ds ->
  (length ds = 1%nat -> isdigit (line_at rest 0) = false) ->
  exists buf,
    read_digits line idx = (buf, length ds, (idx + length ds)%nat) /\
    crond_strtoul_field buf = digits_value ds.
Proof.
  intros Hdrop [Hlen Hall] Hrest. unfold read_digits.
  destruct ds as [|a [|b [|]]]; simpl in Hlen; try lia.
  - apply Forall_cons in Hall as [Ha _].
    destruct (drop_head _ _ _ _ Hdrop) as [-> Hd1]. rewrite Ha.
    rewrite (line_at_text _ _ _ Hd1), (Hrest eq_refl).
    eexists. split; [repeat f_equal; simpl; lia|].
    unfold crond_strtoul_field, digits_value. simpl. lia.
  - apply Forall_cons in Hall as [Ha Hall].
    apply Forall_cons in Hall as [Hb _].
    destruct (drop_head _ _ _ _ Hdrop) as [-> Hd1]. rewrite Ha.
    destruct (drop_head _ _ _ _ Hd1) as [-> Hd2]. rewrite Hb.
    eexists. split; [repeat f_equal; simpl; lia|].
    apply isdigit_bounds in Hb.
    unfold crond_strtoul_field, digits_value, Ch.NUL. simpl.
    destruct (Z.eqb_spec b 0); lia.
Qed.

(** One iteration of the loop on the text of a range. *)
Lemma field_item_range (line : list Z) (idx : nat) (da db rest : list Z)
  (f : field) (off rc : Z) (c : list bool) :
  drop idx line = da ++ Ch.MINUS :: db ++ rest ->
  is_digits da -> is_digits db ->
  (length db = 1%nat -> isdigit (line_at rest 0) = false) ->
  crond_field_item line f off (mk_fstate rc idx c) =
  let '(rc', c') :=
    crond_field_apply f (size_wrap (digits_value da - off))
                      (size_wrap (digits_value db - off)) rc c in
  let idx2 := (idx + length da + 1 + length db)%nat in
  if line_at rest 0 =? Ch.COMMA then (mk_fstate rc' (S idx2) c', true)
  else (mk_fstate rc' idx2 c', false).
Proof.
  intros Hdrop Hda Hdb Hrest. unfold crond_field_item. cbn [f_idx f_rc f_cells].
  destruct (read_digits_text line idx da _ Hdrop Hda (fun _ => eq_refl))
    as (buf1 & -> & Hv1).
  assert (Hla : (length da =? 0)%nat = false)
    by (destruct Hda as [? _]; apply Nat.eqb_neq; lia).
  rewrite Hla.
  pose proof (drop_text _ _ _ _ Hdrop) as Hd1.
  destruct (drop_head _ _ _ _ Hd1) as [-> Hd2].
  rewrite Z.eqb_refl.
  destruct (read_digits_text line _ db rest Hd2 Hdb Hrest)
    as (buf2 & -> & Hv2).
  assert (Hlb : (length db =? 0)%nat = false)
    by (destruct Hdb as [? _]; apply Nat.eqb_neq; lia).
  rewrite Hlb, Hv1, Hv2.
  pose proof (drop_text _ _ _ _ Hd2) as Hd3.
  rewrite (line_at_text _ _ _ Hd3).
  replace (S (idx + length da) + length db)%nat
    with (idx + length da + 1 + length db)%nat by lia.
  reflexivity.
Qed.

(** The order of the endpoints does not matter when both are indices of
    the field, or neither is. *)
Lemma crond_field_apply_comm (f : field) (a b rc : Z) (c : list bool) :
  (a < field_len f <-> b < field_len f) ->
  crond_field_apply f a b rc c = crond_field_apply f b a rc c.
Proof.
  intros Hab. unfold crond_field_apply.
  assert (Hmax : field_len f < SIZE_MAX) by (destruct f; vm_compute; reflexivity).
  destruct (Z.leb_spec (field_len f) a), (Z.leb_spec (field_len f) b);
    try lia; [reflexivity|].
  destruct (Z.eqb_spec b SIZE_MAX), (Z.eqb_spec a SIZE_MAX); try lia.
  destruct (Z.ltb_spec b a), (Z.ltb_spec a b); try lia; try reflexivity.
  by replace b with a by lia.
Qed.




Lemma parse_field_int_digit (line : list Z) (idx : nat) (c : list bool)
  (f : field) (off : Z) :
  isdigit (line_at line idx) = true ->
  crond_parse_field_int line idx c f off =
  let st := crond_field_items (S (length line)) line f off
                              (mk_fstate 0 idx c) in
  let '(num_blanks, idx') := crond_crontab_parse_blank line (f_idx st) in
  mk_fstate (if (num_blanks =? 0)%nat then -1 else f_rc st) idx' (f_cells st).
Proof.
  intros Hd%isdigit_bounds. unfold crond_parse_field_int.
  destruct (Z.eqb_spec (line_at line idx) Ch.STAR) as [E|_]; [|done].
  unfold Ch.STAR in E. lia.
Qed.

Lemma read_digits_advance (line : list Z) (idx : nat) (buf : list Z)
  (i idx' : nat) :
  read_digits line idx = (buf, i, idx') -> idx' = (idx + i)%nat.
Proof.
  unfold read_digits.
  destruct (isdigit (line_at line idx));
    [destruct (isdigit (line_at line (S idx)))|];
    intros [= <- <- <-]; lia.
Qed.

(** An iteration after which the loop goes on has moved the index forward,
    and not past the end of the line. *)
Lemma field_item_progress (line : list Z) (f : field) (off : Z)
  (st st' : fstate) :
  crond_field_item line f off st = (st', true) ->
  (f_idx st < f_idx st' <= length line)%nat.
Proof.
  unfold crond_field_item.
  destruct (read_digits line (f_idx st)) as [[d1 i1] idx1] eqn:E1.
  apply read_digits_advance in E1.
  destruct (Nat.eqb_spec i1 0); [intros [= _ ?]; discriminate|].
  assert (Hcomma : forall j, line_at line j = Ch.COMMA ->
                             (j < length line)%nat).
  { intros j Hj. destruct (decide (j < length line)%nat); [done|].
    rewrite line_at_beyond in Hj by lia. discriminate Hj. }
  destruct (line_at line idx1 =? Ch.MINUS).
  - destruct (read_digits line (S idx1)) as [[d2 i2] idx2] eqn:E2.
    apply read_digits_advance in E2.
    destruct (i2 =? 0)%nat; [intros [= _ ?]; discriminate|].
    destruct (crond_field_apply _ _ _ _ _) as [rc c].
    destruct (Z.eqb_spec (line_at line idx2) Ch.COMMA) as [Hc|];
      [|intros [= _ ?]; discriminate].
    apply Hcomma in Hc. intros [= <-]. simpl. lia.
  - destruct (crond_field_apply _ _ _ _ _) as [rc c].
    destruct (Z.eqb_spec (line_at line idx1) Ch.COMMA) as [Hc|];
      [|intros [= _ ?]; discriminate].
    apply Hcomma in Hc. intros [= <-]. simpl. lia.
Qed.

(** The do-while loop never uses up its fuel: any two amounts above the
    number of bytes left give the same result. *)
Lemma crond_field_items_fuel (line : list Z) (f : field) (off : Z)
  (fuel1 : nat) :
  forall (fuel2 : nat) (st : fstate),
    (length line - f_idx st < fuel1)%nat ->
    (length line - f_idx st < fuel2)%nat ->
    crond_field_items fuel1 line f off st
    = crond_field_items fuel2 line f off st.
Proof.
  induction fuel1 as [|fuel1 IH]; intros fuel2 st H1 H2; [lia|].
  destruct fuel2 as [|fuel2]; [lia|]. simpl.
  destruct (crond_field_item line f off st) as [st' more] eqn:Eitem.
  destruct more; [|reflexivity].
  apply field_item_progress in Eitem. apply IH; lia.
Qed.

End range_facts.


(** ** Lines of single numbers *)

Section singleton_line_facts.

Lemma count_blank_digits (ds rest : list Z) :
  is_digits ds -> count_blank (ds ++ rest) = O.
Proof.
  intros [Hlen Hall]. destruct ds as [|a ds]; [simpl in Hlen; lia|].
  apply Forall_cons in Hall as [Ha%isdigit_bounds _]. simpl.
  assert (Hb : isblank a = false)
    by (unfold isblank, Ch.SPACE, Ch.TAB; lia).
  by rewrite Hb.
Qed.

(** [crond_parse_field_int] on a single number that is an index of the
    field, followed by a space. *)
Lemma parse_field_int_single (line : list Z) (idx : nat) (ds rest : list Z)
  (f : field) (c : list bool) :
  drop idx line = ds ++ Ch.SPACE :: rest -> is_digits ds ->
  field_index_ok f (digits_value ds - field_offset f) ->
  crond_parse_field_int line idx c f (field_offset f) =
  mk_fstate 0 (idx + length ds + S (count_blank rest))
            (set_range f (digits_value ds - field_offset f)
                         (digits_value ds - field_offset f) c).
Proof.
  intros Hdrop Hds [Hv1 Hv2].
  assert (Hdig : isdigit (line_at line idx) = true).
  { destruct Hds as [Hn Hall]. destruct ds as [|a ds']; [simpl in Hn; lia|].
    apply Forall_cons in Hall as [Hisd _].
    by destruct (drop_head _ _ _ _ Hdrop) as [-> _]. }
  assert (Hmax : field_len f < SIZE_MAX)
    by (destruct f; vm_compute; reflexivity).
  rewrite parse_field_int_digit by exact Hdig. cbv zeta.
  cbn [crond_field_items]. unfold crond_field_item. cbn [f_idx f_rc f_cells].
  destruct (read_digits_text line idx ds _ Hdrop Hds (fun _ => eq_refl))
    as (buf & -> & Hval).
  assert (Hl : (length ds =? 0)%nat = false)
    by (destruct Hds as [? _]; apply Nat.eqb_neq; lia).
  rewrite Hl.
  pose proof (drop_text _ _ _ _ Hdrop) as Hd1.
  destruct (drop_head _ _ _ _ Hd1) as [Hat Hd2].
  rewrite Hat. change (Ch.SPACE =? Ch.MINUS) with false. cbv iota.
  rewrite Hval. unfold size_wrap.
  rewrite Z.mod_small by (unfold SIZE_MAX in Hmax; lia).
  unfold crond_field_apply.
  destruct (Z.leb_spec (field_len f) (digits_value ds - field_offset f));
    [lia|].
  rewrite Z.eqb_refl, Hat. change (Ch.SPACE =? Ch.COMMA) with false.
  cbn [f_idx f_rc f_cells].
  unfold crond_crontab_parse_blank. rewrite Hd1.
  change (count_blank (Ch.SPACE :: rest)) with (S (count_blank rest)).
  reflexivity.
Qed.

Variables dm dh dd dmo dw cmd : list Z.
Hypothesis Dm : is_digits dm.
Hypothesis Dh : is_digits dh.
Hypothesis Dd : is_digits dd.
Hypothesis Dmo : is_digits dmo.
Hypothesis Dw : is_digits dw.
Hypothesis Vm : field_index_ok minute (digits_value dm).
Hypothesis Vh : field_index_ok hour (digits_value dh).
Hypothesis Vd : field_index_ok day (digits_value dd - 1).
Hypothesis Vmo : field_index_ok month (digits_value dmo - 1).
Hypothesis Vw : field_index_ok weekday (digits_value dw).

(** The five fields of the line are accepted and fill the cells of the five
    numbers, the day and the month moved down by one. *)
Lemma parse_fields_singletons :
  exists i,
    parse_fields time_fields (singleton_line dm dh dd dmo dw cmd) 0
                 (cells job_zero)
    = (true, i,
       singleton_cells (digits_value dm) (digits_value dh)
                       (digits_value dd - 1) (digits_value dmo - 1)
                       (digits_value dw)).
Proof.
  unfold singleton_line, time_fields, singleton_cells.
  set (l4 := dw ++ Ch.SPACE :: cmd).
  set (l3 := dmo ++ Ch.SPACE :: l4).
  set (l2 := dd ++ Ch.SPACE :: l3).
  set (l1 := dh ++ Ch.SPACE :: l2).
  set (line := dm ++ Ch.SPACE :: l1).
  assert (B1 : count_blank l1 = O) by (by apply count_blank_digits).
  assert (B2 : count_blank l2 = O) by (by apply count_blank_digits).
  assert (B3 : count_blank l3 = O) by (by apply count_blank_digits).
  assert (B4 : count_blank l4 = O) by (by apply count_blank_digits).
  assert (E0 : drop 0 line = dm ++ Ch.SPACE :: l1) by reflexivity.
  assert (E1 : drop (0 + length dm + 1) line = l1).
  { pose proof (drop_text _ _ _ _ E0) as H.
    destruct (drop_head _ _ _ _ H) as [_ H']. rewrite <- H'. f_equal. lia. }
  assert (E2 : drop (0 + length dm + 1 + length dh + 1) line = l2).
  { pose proof (drop_text _ _ _ _ E1 : drop _ line = Ch.SPACE :: l2) as H.
    destruct (drop_head _ _ _ _ H) as [_ H']. rewrite <- H'. f_equal. lia. }
  assert (E3 : drop (0 + length dm + 1 + length dh + 1 + length dd + 1) line
               = l3).
  { pose proof (drop_text _ _ _ _ E2 : drop _ line = Ch.SPACE :: l3) as H.
    destruct (drop_head _ _ _ _ H) as [_ H']. rewrite <- H'. f_equal. lia. }
  assert (E4 : drop (0 + length dm + 1 + length dh + 1 + length dd + 1
                     + length dmo + 1) line = l4).
  { pose proof (drop_text _ _ _ _ E3 : drop _ line = Ch.SPACE :: l4) as H.
    destruct (drop_head _ _ _ _ H) as [_ H']. rewrite <- H'. f_equal. lia. }
  eexists. cbn [parse_fields].
  rewrite (parse_field_int_single line 0 dm l1 minute _ E0 Dm)
    by (cbn [field_offset]; rewrite Z.sub_0_r; exact Vm).
  cbn [f_rc f_idx f_cells]. change (0 <? 0) with false. cbv iota.
  rewrite B1.
  rewrite (parse_field_int_single line _ dh l2 hour _ E1 Dh)
    by (cbn [field_offset]; rewrite Z.sub_0_r; exact Vh).
  cbn [f_rc f_idx f_cells]. change (0 <? 0) with false. cbv iota.
  rewrite B2.
  rewrite (parse_field_int_single line _ dd l3 day _ E2 Dd) by exact Vd.
  cbn [f_rc f_idx f_cells]. change (0 <? 0) with false. cbv iota.
  rewrite B3.
  rewrite (parse_field_int_single line _ dmo l4 month _ E3 Dmo) by exact Vmo.
  cbn [f_rc f_idx f_cells]. change (0 <? 0) with false. cbv iota.
  rewrite B4.
  rewrite (parse_field_int_single line _ dw cmd weekday _ E4 Dw)
    by (cbn [field_offset]; rewrite Z.sub_0_r; exact Vw).
  cbn [f_rc f_idx f_cells field_offset]. change (0 <? 0) with false. cbv iota.
  rewrite !Z.sub_0_r. reflexivity.
Qed.

Lemma parse_command_cells (env : alloc_env) (h : heap) (line : list Z)
  (idx : nat) (job : crond_job) :
  cells (crond_crontab_parse_command env h line idx job).2 = cells job.
Proof.
  unfold crond_crontab_parse_command.
  destruct (find_stdin_start (S (length line)) line idx) as [i start].
  destruct (c_strndup _ h line idx _) as [[b1|] h1]; [|reflexivity].
  destruct start as [start|]; [|reflexivity].
  destruct (c_strdup _ h1 line start) as [[b2|] h2]; [|reflexivity].
  by destruct (stdin_lines_loop _ _ 0 0).
Qed.

Lemma parse_command_succeeds (env : alloc_env) (h : heap) (line : list Z)
  (idx : nat) (job : crond_job) :
  strndup_ok env = true -> strdup_ok env = true ->
  (crond_crontab_parse_command env h line idx job).1.1 = true.
Proof.
  intros H1 H2. unfold crond_crontab_parse_command, c_strndup, c_strdup.
  rewrite H1, H2.
  destruct (find_stdin_start (S (length line)) line idx) as [i start].
  destruct (heap_alloc h _) as [[b1|] h1] eqn:E1; [|discriminate E1].
  destruct start as [start|]; [|reflexivity].
  destruct (heap_alloc h1 _) as [[b2|] h2] eqn:E2; [|discriminate E2].
  by destruct (stdin_lines_loop _ _ 0 0).
Qed.

(** Parsed into the empty store with every allocation succeeding, the line
    gives one job, whose cells are those of the five numbers. *)
Lemma parse_line_singletons :
  exists job h',
    crond_crontab_parse_line env_ok ∅ crond_zero
      (singleton_line dm dh dd dmo dw cmd)
    = (h', mk_crond 0 (mk_timespec 0 0) [job] 1) /\
    cells job = singleton_cells (digits_value dm) (digits_value dh)
                  (digits_value dd - 1) (digits_value dmo - 1)
                  (digits_value dw).
Proof.
  destruct parse_fields_singletons as [i Hfields].
  unfold crond_crontab_parse_line.
  set (line := singleton_line dm dh dd dmo dw cmd) in *.
  assert (Hb : crond_crontab_parse_blank line 0 = (O, O)).
  { unfold crond_crontab_parse_blank. change (drop 0 line) with line.
    unfold line, singleton_line. by rewrite count_blank_digits. }
  assert (H0 : isdigit (line_at line 0) = true).
  { destruct Dm as [Hn Hall]. unfold line, singleton_line.
    destruct dm as [|a ?]; [simpl in Hn; lia|].
    by apply Forall_cons in Hall as [Ha _]. }
  apply isdigit_bounds in H0. rewrite Hb.
  destruct (Z.eqb_spec (line_at line 0) Ch.NUL) as [E|_];
    [unfold Ch.NUL in E; lia|].
  destruct (Z.eqb_spec (line_at line 0) Ch.HASH) as [E|_];
    [unfold Ch.HASH in E; lia|].
  destruct (Z.eqb_spec (line_at line 0) Ch.AT) as [E|_];
    [unfold Ch.AT in E; lia|].
  cbn [negb andb]. rewrite Hfields.
  destruct (crond_crontab_parse_blank line i) as [n i'].
  pose proof (parse_command_cells env_ok ∅ line i'
                (mk_job None None 0
                   (singleton_cells (digits_value dm) (digits_value dh)
                      (digits_value dd - 1) (digits_value dmo - 1)
                      (digits_value dw)))) as Hcells.
  pose proof (parse_command_succeeds env_ok ∅ line i'
                (mk_job None None 0
                   (singleton_cells (digits_value dm) (digits_value dh)
                      (digits_value dd - 1) (digits_value dmo - 1)
                      (digits_value dw))) eq_refl eq_refl) as Hok.
  change (command job_zero) with (@None nat).
  change (stdin_lines job_zero) with (@None nat).
  change (stdin_lines_len job_zero) with 0.
  destruct (crond_crontab_parse_command env_ok ∅ line i' _)
    as [[parsed h'] job'].
  cbn [fst snd] in Hcells, Hok. rewrite Hok.
  exists job', h'. split; [reflexivity|exact Hcells].
Qed.

(** For such a line and a time whose indices fall inside the arrays, the
    matcher returns true exactly when the time shows the five numbers. *)
Lemma singleton_line_should_run (t : tm) :
  field_index_ok minute (tm_min t) -> field_index_ok hour (tm_hour t) ->
  field_index_ok day (tm_mday t - 1) -> field_index_ok month (tm_mon t - 1) ->
  field_index_ok weekday (tm_wday t) ->
  exists job h',
    crond_crontab_parse_line env_ok ∅ crond_zero
      (singleton_line dm dh dd dmo dw cmd)
    = (h', mk_crond 0 (mk_timespec 0 0) [job] 1) /\
    crond_job_should_run t job
    = Some (bool_decide (tm_min t = digits_value dm /\
                         tm_hour t = digits_value dh /\
                         tm_mday t = digits_value dd /\
                         tm_mon t = digits_value dmo /\
                         tm_wday t = digits_value dw)).
Proof.
  intros Tm Th Td Tmo Tw.
  destruct parse_line_singletons as (job & h' & Hparse & Hcells).
  exists job, h'. split; [exact Hparse|].
  rewrite (should_run_singleton _ _ _ _ _ Vm Vh Vd Vmo Vw t job Hcells)
    by assumption.
  f_equal. apply bool_decide_ext. lia.
Qed.

End singleton_line_facts.





(** C2, the claim as it is written, at the minute field: [5-70] is accepted
    and fills the minutes from 5 on, [70-5] is rejected and fills nothing.
    In the day field [5-0] is accepted as the single day 5 and [0-5] is
    rejected. *)
Lemma range_order_matters :
  let c0 := cells job_zero in
  let st1 := crond_parse_field_int (cstr "5-70 ") 0 c0 minute 0 in
  let st2 := crond_parse_field_int (cstr "70-5 ") 0 c0 minute 0 in
  let st3 := crond_parse_field_int (cstr "5-0 ") 0 c0 day 1 in
  let st4 := crond_parse_field_int (cstr "0-5 ") 0 c0 day 1 in
  (f_rc st1 = 0 /\ f_rc st2 = -1) /\
  (field_bits (f_cells st1) minute = seqZ 5 55 /\
   field_bits (f_cells st2) minute = []) /\
  (f_rc st3 = 0 /\ f_rc st4 = -1) /\
  (field_bits (f_cells st3) day = [4] /\ field_bits (f_cells st4) day = []).
Proof. repeat split; vm_compute; reflexivity. Qed.

Lemma parse_field_int_range (line : list Z) (idx : nat) (da db rest : list Z)
  (f : field) (off : Z) (c : list bool) :
  drop idx line = da ++ Ch.MINUS :: db ++ rest ->
  is_digits da -> is_digits db -> isdigit (line_at rest 0) = false ->
  line_at rest 0 <> Ch.COMMA ->
  crond_parse_field_int line idx c f off =
  let '(rc, c') :=
    crond_field_apply f (size_wrap (digits_value da - off))
                      (size_wrap (digits_value db - off)) 0 c in
  mk_fstate (if (count_blank rest =? 0)%nat then -1 else rc)
            (idx + length da + 1 + length db + count_blank rest)%nat c'.
Proof.
  intros Hdrop Hda Hdb Hrest Hcomma.
  assert (Hdig : isdigit (line_at line idx) = true).
  { destruct Hda as [Hn Hall]. destruct da as [|a da']; [simpl in Hn; lia|].
    apply Forall_cons in Hall as [Hisd _].
    by destruct (drop_head _ _ _ _ Hdrop) as [-> _]. }
  rewrite parse_field_int_digit by exact Hdig. cbv zeta.
  cbn [crond_field_items].
  rewrite (field_item_range line idx da db rest) by (by try intros _).
  destruct (crond_field_apply _ _ _ _ _) as [rc c'].
  destruct (Z.eqb_spec (line_at rest 0) Ch.COMMA) as [|_]; [done|].
  cbn [f_idx f_rc f_cells]. unfold crond_crontab_parse_blank.
  assert (Hd : drop (idx + length da + 1 + length db) line = rest).
  { pose proof (drop_text _ _ _ _ Hdrop) as H1.
    destruct (drop_head _ _ _ _ H1) as [_ H2].
    pose proof (drop_text _ _ _ _ H2) as H3.
    rewrite <- H3. f_equal. lia. }
  by rewrite Hd.
Qed.

(** C2, amended.  For a field text [a-b], followed by anything but a digit
    or a comma, whose endpoints minus the offset are both indices of the
    field or both not, parsing [a-b] and parsing [b-a] give the same return
    code, the same cells and the same index: the texts are accepted or
    rejected together and produce the same bit-set. *)
Theorem range_endpoints_commute (pre da db rest : list Z) (f : field)
  (c : list bool) :
  is_digits da -> is_digits db ->
  isdigit (line_at rest 0) = false -> line_at rest 0 <> Ch.COMMA ->
  (size_wrap (digits_value da - field_offset f) < field_len f <->
   size_wrap (digits_value db - field_offset f) < field_len f) ->
  crond_parse_field_int (pre ++ da ++ Ch.MINUS :: db ++ rest) (length pre)
                        c f (field_offset f)
  = crond_parse_field_int (pre ++ db ++ Ch.MINUS :: da ++ rest) (length pre)
                          c f (field_offset f).
Proof.
  intros Hda Hdb Hrest Hcomma Hboth.
  rewrite (parse_field_int_range _ _ da db rest);
    [|by rewrite drop_app_length|assumption..].
  rewrite (parse_field_int_range _ _ db da rest);
    [|by rewrite drop_app_length|assumption..].
  rewrite (crond_field_apply_comm f _ _ 0 c Hboth).
  destruct (crond_field_apply _ _ _ _ _) as [rc c'].
  f_equal. lia.
Qed.

Lemma range_endpoints_commute_witness :
  let f := day in let c0 := cells job_zero in
  is_digits [51] /\ is_digits [49; 50] /\
  (size_wrap (digits_value [51] - field_offset f) < field_len f <->
   size_wrap (digits_value [49; 50] - field_offset f) < field_len f) /\
  crond_parse_field_int (cstr "0 0 3-12 * * /bin/x") 4 c0 f 1
  = crond_parse_field_int (cstr "0 0 12-3 * * /bin/x") 4 c0 f 1 /\
  f_rc (crond_parse_field_int (cstr "0 0 12-3 * * /bin/x") 4 c0 f 1) = 0 /\
  field_bits (f_cells (crond_parse_field_int (cstr "0 0 12-3 * * /bin/x") 4
                                             c0 f 1)) f
  = seqZ 2 10.
Proof.
  intros f c0.
  assert (Hda : is_digits [51])
    by (split; [simpl; lia | repeat constructor]).
  assert (Hdb : is_digits [49; 50])
    by (split; [simpl; lia | repeat constructor]).
  assert (Hboth : size_wrap (digits_value [51] - field_offset f) < field_len f
                  <-> size_wrap (digits_value [49; 50] - field_offset f)
                      < field_len f)
    by (change (2 < 31 <-> 11 < 31); lia).
  split; [exact Hda|]. split; [exact Hdb|]. split; [exact Hboth|].
  split.
  - apply (range_endpoints_commute (cstr "0 0 ") [51] [49; 50]
             (cstr " * * /bin/x") f c0 Hda Hdb eq_refl ltac:(discriminate)
             Hboth).
  - split; vm_compute; reflexivity.
Defined.


(** ** The stdin payload *)

Section payload_facts.

Lemma line_at_insert_eq (buf : list Z) (j : nat) (x : Z) :
  (j < length buf)%nat -> line_at (<[j := x]> buf) j = x.
Proof.
  intros H. unfold line_at.
  by rewrite nth_lookup, list_lookup_insert_eq.
Qed.

Lemma take_S_insert (buf : list Z) (j : nat) (x : Z) :
  (j < length buf)%nat -> take (S j) (<[j := x]> buf) = take j buf ++ [x].
Proof.
  intros H. rewrite (take_S_r _ _ x) by (by apply list_lookup_insert_eq).
  by rewrite take_insert_ge.
Qed.

(** The in-place loop computes [stdin_unescape] into the front of the
    buffer and stops inside it. *)
Lemma stdin_lines_loop_spec (fuel : nat) :
  forall (buf : list Z) (i i_fwd : nat) (rest : list Z),
    (i <= i_fwd)%nat -> drop i_fwd buf = rest ++ [Ch.NUL] ->
    Ch.NUL ∉ rest -> (length rest <= fuel)%nat ->
    exists buf' i',
      stdin_lines_loop fuel buf i i_fwd = (buf', i') /\
      take i' buf' = take i buf ++ stdin_unescape rest /\
      (i' < length buf')%nat.
Proof.
  induction fuel as [|fuel IH]; intros buf i i_fwd rest Hle Hdrop Hnn Hfuel.
  - destruct rest as [|ch rest']; [|simpl in Hfuel; lia].
    exists buf, i. split; [done|]. split; [by rewrite app_nil_r|].
    apply drop_lt_length in Hdrop. lia.
  - destruct rest as [|ch rest'].
    + simpl in Hdrop. pose proof (drop_lt_length _ _ _ _ Hdrop) as Hlt.
      destruct (drop_head _ _ _ _ Hdrop) as [Hat _].
      cbn [stdin_lines_loop]. rewrite Hat, Z.eqb_refl.
      exists buf, i. split; [done|]. split; [by rewrite app_nil_r|]. lia.
    + simpl in Hdrop. pose proof (drop_lt_length _ _ _ _ Hdrop) as Hlt.
      destruct (drop_head _ _ _ _ Hdrop) as [Hat Hd1].
      apply not_elem_of_cons in Hnn as [Hch Hnn'].
      simpl in Hfuel.
      cbn [stdin_lines_loop]. rewrite Hat.
      destruct (Z.eqb_spec ch Ch.NUL) as [|_]; [congruence|].
      destruct (Z.eqb_spec ch Ch.BACKSLASH) as [->|Hnb].
      * destruct rest' as [|next rest''].
        -- simpl in Hd1. destruct (drop_head _ _ _ _ Hd1) as [Hat1 _].
           rewrite Hat1, Z.eqb_refl. cbn [negb andb].
           change (Ch.BACKSLASH =? Ch.PERCENT) with false. cbv iota.
           rewrite Hat.
           destruct (IH (<[i := Ch.BACKSLASH]> buf) (S i) (S i_fwd) [])
             as (buf' & i' & Hrun & Htake & Hin);
             [lia|by rewrite drop_insert_lt by lia|done|simpl; lia|].
           exists buf', i'. split; [done|]. split; [|done].
           rewrite Htake, take_S_insert by lia. by rewrite app_nil_r.
        -- simpl in Hd1. destruct (drop_head _ _ _ _ Hd1) as [Hat1 Hd2].
           apply not_elem_of_cons in Hnn' as [Hnext Hnn''].
           rewrite Hat1.
           destruct (Z.eqb_spec next Ch.NUL) as [|_]; [congruence|].
           cbn [negb andb]. rewrite Hat1.
           destruct (IH (<[i := next]> buf) (S i) (S (S i_fwd)) rest'')
             as (buf' & i' & Hrun & Htake & Hin);
             [lia|by rewrite drop_insert_lt by lia|done|simpl in Hfuel; lia|].
           exists buf', i'. split; [done|]. split; [|done].
           rewrite Htake, take_S_insert by lia.
           by rewrite <- app_assoc.
      * cbn [andb].
        destruct (Z.eqb_spec ch Ch.PERCENT) as [->|Hnp].
        -- rewrite line_at_insert_eq by done.
           destruct (IH (<[i := Ch.LF]> (<[i_fwd := Ch.LF]> buf))
                        (S i) (S i_fwd) rest')
             as (buf' & i' & Hrun & Htake & Hin);
             [lia| |done|lia|].
           { rewrite !drop_insert_lt by lia. done. }
           exists buf', i'. split; [done|]. split; [|done].
           rewrite Htake, take_S_insert by (rewrite !length_insert; lia).
           rewrite !take_insert_ge by lia.
           by rewrite <- app_assoc.
        -- rewrite Hat.
           destruct (IH (<[i := ch]> buf) (S i) (S i_fwd) rest')
             as (buf' & i' & Hrun & Htake & Hin);
             [lia|by rewrite drop_insert_lt by lia|done|lia|].
           exists buf', i'. split; [done|]. split; [|done].
           rewrite Htake, take_S_insert by lia.
           cbn [stdin_unescape].
           rewrite (proj2 (Z.eqb_neq _ _) Hnb), (proj2 (Z.eqb_neq _ _) Hnp).
           by rewrite <- app_assoc.
Qed.



End payload_facts.




(** The escapes of the payload: a backslash keeps the byte after it, a bare
    percent sign is a newline. *)
Example stdin_unescape_escapes :
  stdin_unescape (cstr "a\%b%c\\d\") = cstr "a%b" ++ [Ch.LF] ++ cstr "c\d\".
Proof. vm_compute. reflexivity. Qed.

(** Scenarios 3 and 4 of the specification. *)
Example parse_line_payloads :
  let view s :=
    let r := crond_crontab_parse_line env_ok ∅ crond_zero (cstr s) in
    (fun j => (job_command r.1 j, job_payload r.1 j,
               map (field_bits (cells j)) [minute; hour; day; month]))
      <$> job_list r.2 in
  view "0 0 1 1 * /bin/yr%hello%world"%string
  = [(Some (cstr "/bin/yr"),
      Some (cstr "hello" ++ [Ch.LF] ++ cstr "world" ++ [Ch.LF]),
      [[0]; [0]; [0]; [0]])] /\
  view "0 0 1 1 * /bin/esc%a\%b"%string
  = [(Some (cstr "/bin/esc"), Some (cstr "a%b" ++ [Ch.LF]),
      [[0]; [0]; [0]; [0]])].
Proof. split; vm_compute; reflexivity. Qed.

(** The split and the payload do not escape alike: in the command section a
    percent sign right after a backslash never splits, even when that
    backslash is itself escaped, so this line has no payload. *)
Example percent_after_escaped_backslash :
  let r := crond_crontab_parse_line env_ok ∅ crond_zero
             (cstr "0 0 1 1 * /bin/x\\%data") in
  (fun j => (job_command r.1 j, job_payload r.1 j)) <$> job_list r.2
  = [(Some (cstr "/bin/x\\%data"), None)].
Proof. vm_compute. reflexivity. Qed.

(** ** Presets *)

Section preset_facts.

Lemma find_stdin_start_scan (fuel : nat) :
  forall (line : list Z) (i : nat),
    (length line - i < fuel)%nat ->
    find_stdin_start fuel line i =
    let '(r, found) := scan_split (allowed_at line i) (drop i line) in
    ((i + r)%nat, if found then Some (S (i + r)) else None).
Proof.
  induction fuel as [|fuel IH]; intros line i Hfuel; [lia|].
  cbn [find_stdin_start].
  destruct (drop i line) as [|ch s'] eqn:Hdrop.
  - rewrite (drop_nil_line_at _ _ Hdrop), Z.eqb_refl. simpl.
    by rewrite Nat.add_0_r.
  - destruct (drop_head _ _ _ _ Hdrop) as [Hat Hd1].
    pose proof (drop_lt_length _ _ _ _ Hdrop) as Hlt.
    rewrite Hat. cbn [scan_split].
    destruct (ch =? Ch.NUL); [by rewrite Nat.add_0_r|].
    rewrite <- andb_assoc. fold (allowed_at line i).
    destruct ((ch =? Ch.PERCENT) && allowed_at line i);
      [by rewrite Nat.add_0_r|].
    rewrite IH by lia. rewrite Hd1.
    assert (Hal : allowed_at line (S i) = negb (ch =? Ch.BACKSLASH)).
    { unfold allowed_at. simpl. by rewrite Nat.sub_0_r, Hat. }
    rewrite Hal. destruct (scan_split _ s') as [r found].
    replace (S i + r)%nat with (i + S r)%nat by lia. done.
Qed.

(** [crond_crontab_parse_command] looks at the line from [line_idx] on,
    and at the byte before it only to know whether it is a backslash. *)
Lemma parse_command_shift (env : alloc_env) (h : heap) (line : list Z)
  (idx : nat) (job : crond_job) :
  allowed_at line idx = true ->
  crond_crontab_parse_command env h line idx job
  = crond_crontab_parse_command env h (Ch.SPACE :: drop idx line) 1 job.
Proof.
  intros Hal. unfold crond_crontab_parse_command.
  rewrite !find_stdin_start_scan by (simpl; lia).
  rewrite Hal. change (allowed_at (Ch.SPACE :: drop idx line) 1) with true.
  change (drop 1 (Ch.SPACE :: drop idx line)) with (drop idx line).
  destruct (scan_split true (drop idx line)) as [r found].
  unfold c_strndup, c_strdup.
  replace (idx + r - idx)%nat with r by lia.
  replace (1 + r - 1)%nat with r by lia.
  change (drop 1 (Ch.SPACE :: drop idx line)) with (drop idx line).
  destruct found; [|reflexivity].
  change (drop (S (1 + r)) (Ch.SPACE :: drop idx line))
    with (drop (S r) (drop idx line)).
  rewrite drop_drop. replace (idx + S r)%nat with (S (idx + r)) by lia.
  reflexivity.
Qed.

Lemma count_blank_drop (s : list Z) : count_blank (drop (count_blank s) s) = O.
Proof.
  induction s as [|ch s IH]; [done|]. simpl.
  destruct (isblank ch) eqn:Hb; simpl; [done|by rewrite Hb].
Qed.

(** The byte before the first non-blank byte of [x :: s] is a blank. *)
Lemma blank_before (s : list Z) :
  forall x, isblank x = true ->
            isblank (line_at (x :: s) (count_blank s)) = true.
Proof.
  induction s as [|ch s IH]; intros x Hx; [done|]. simpl.
  destruct (isblank ch) eqn:Hb; [|done].
  change (line_at (x :: ch :: s) (S (count_blank s)))
    with (line_at (ch :: s) (count_blank s)).
  by apply IH.
Qed.

Lemma isblank_not_backslash (ch : Z) :
  isblank ch = true -> (ch =? Ch.BACKSLASH) = false.
Proof.
  unfold isblank, Ch.SPACE, Ch.TAB, Ch.BACKSLASH. lia.
Qed.

Lemma parse_command_after_blanks (env : alloc_env) (h : heap)
  (pre cmd : list Z) (job : crond_job) :
  crond_crontab_parse_command env h (pre ++ Ch.SPACE :: cmd)
    (length pre + S (count_blank cmd)) job
  = crond_crontab_parse_command env h
      (Ch.SPACE :: drop (count_blank cmd) cmd) 1 job.
Proof.
  assert (Hd : drop (length pre + S (count_blank cmd))
                    (pre ++ Ch.SPACE :: cmd)
               = drop (count_blank cmd) cmd).
  { rewrite <- drop_drop, drop_app_length. done. }
  rewrite parse_command_shift.
  - by rewrite Hd.
  - unfold allowed_at.
    replace (length pre + S (count_blank cmd) - 1)%nat
      with (length pre + count_blank cmd)%nat by lia.
    rewrite line_at_app_r.
    rewrite (isblank_not_backslash _ (blank_before cmd Ch.SPACE eq_refl)).
    apply andb_true_intro. split; [apply Nat.ltb_lt; lia|done].
Qed.

(** The preset path of [crond_crontab_parse_line]. *)
Lemma parse_line_preset (env : alloc_env) (h : heap) (cr : crond)
  (p : preset) (cmd : list Z) :
  crond_crontab_parse_line env h cr
    (Ch.AT :: preset_token p ++ Ch.SPACE :: cmd)
  = finish_line env h cr (preset_cells p (cells job_zero)) cmd.
Proof.
  unfold crond_crontab_parse_line.
  set (line := Ch.AT :: preset_token p ++ Ch.SPACE :: cmd).
  assert (Hb : crond_crontab_parse_blank line 0 = (O, O)) by reflexivity.
  assert (H0 : line_at line 0 = Ch.AT) by reflexivity.
  rewrite Hb, H0.
  change (negb (Ch.AT =? Ch.NUL) && negb (Ch.AT =? Ch.HASH)) with true.
  change (Ch.AT =? Ch.AT) with true. cbv iota.
  rewrite (parse_special_token p line (Ch.SPACE :: cmd) 0 (cells job_zero)
             eq_refl).
  assert (Hb2 : crond_crontab_parse_blank line (1 + length (preset_token p))
                = (S (count_blank cmd),
                   (length (Ch.AT :: preset_token p)
                    + S (count_blank cmd))%nat)).
  { unfold crond_crontab_parse_blank.
    change line with ((Ch.AT :: preset_token p) ++ Ch.SPACE :: cmd).
    rewrite (drop_app_length' (Ch.AT :: preset_token p)) by reflexivity.
    reflexivity. }
  rewrite Hb2.
  change line with ((Ch.AT :: preset_token p) ++ Ch.SPACE :: cmd).
  rewrite parse_command_after_blanks.
  reflexivity.
Qed.



End preset_facts.



(** Scenario 5 of the specification, with the job it gives. *)
Example preset_weekly :
  crond_crontab_parse_line env_ok ∅ crond_zero (cstr "@weekly /bin/w")
  = crond_crontab_parse_line env_ok ∅ crond_zero (cstr "0 0 * * 0 /bin/w") /\
  exists job, parsed_job "@weekly /bin/w" = Some job /\
  map (fun f => length (field_bits (cells job) f)) time_fields
  = [1; 1; 31; 12; 1]%nat.
Proof.
  split; [vm_compute; reflexivity|].
  eexists. split; [vm_compute; reflexivity|]. vm_compute. reflexivity.
Qed.


(** * Further properties of the daemon *)

(** ** Overflow checks of [size_t] arithmetic (src/cron.c) *)

(** X1.  Outside the test seam, [si_add_size_t] on two [size_t] values
    reports a wrap exactly when the mathematical sum does not fit in
    [size_t]; when it reports none the value stored is the sum, and when it
    reports one the value stored is the sum reduced by [2^64]. *)
Theorem si_add_size_t_sound (a b : Z) :
  0 <= a <= SIZE_MAX -> 0 <= b <= SIZE_MAX ->
  let r := si_add_size_t false a b in
  (r.1 = true <-> SIZE_MAX < a + b) /\
  (r.1 = false -> r.2 = Some (a + b)) /\
  (r.1 = true -> r.2 = Some (a + b - 2 ^ 64)).
Proof.
  unfold SIZE_MAX. intros Ha Hb. cbn [si_add_size_t fst snd]. unfold size_wrap.
  change (2 ^ 64) with 18446744073709551616 in *.
  pose proof (Z.div_mod (a + b) 18446744073709551616 ltac:(lia)) as Hdm.
  pose proof (Z.mod_pos_bound (a + b) 18446744073709551616 ltac:(lia)) as Hr.
  set (q := (a + b) / 18446744073709551616) in *.
  set (r := (a + b) mod 18446744073709551616) in *.
  assert (Hq : q = 0 \/ q = 1) by lia.
  rewrite Z.ltb_lt, Z.ltb_ge.
  split; [|split].
  - lia.
  - intros Hle. f_equal. lia.
  - intros Hlt. f_equal. lia.
Qed.

Lemma si_add_size_t_sound_witness :
  0 <= SIZE_MAX - 5 <= SIZE_MAX /\ 0 <= 6 <= SIZE_MAX /\
  (si_add_size_t false (SIZE_MAX - 5) 6).1 = true.
Proof.
  assert (H1 : 0 <= SIZE_MAX - 5 <= SIZE_MAX) by (unfold SIZE_MAX; lia).
  assert (H2 : 0 <= 6 <= SIZE_MAX) by (unfold SIZE_MAX; lia).
  split; [exact H1|]. split; [exact H2|].
  apply (si_add_size_t_sound (SIZE_MAX - 5) 6 H1 H2). lia.
Defined.

(** X2.  Outside the test seam, [si_mul_size_t] on two [size_t] values
    reports a wrap exactly when the mathematical product does not fit in
    [size_t] (a zero factor never wraps), and when it reports none the value
    stored is the product. *)
Theorem si_mul_size_t_sound (a b : Z) :
  0 <= a <= SIZE_MAX -> 0 <= b <= SIZE_MAX ->
  let r := si_mul_size_t false a b in
  (r.1 = true <-> SIZE_MAX < a * b) /\
  (r.1 = false -> r.2 = Some (a * b)).
Proof.
  intros Ha Hb. cbn [si_mul_size_t fst snd].
  assert (Hiff : negb (b =? 0) && (SIZE_MAX / b <? a) = true
                 <-> SIZE_MAX < a * b).
  { destruct (Z.eqb_spec b 0) as [->|Hb0]; simpl.
    - rewrite Z.mul_0_r. unfold SIZE_MAX. split; [done|lia].
    - rewrite Z.ltb_lt. split.
      + intros Hlt. destruct (Z_lt_le_dec SIZE_MAX (a * b)) as [|Hle]; [done|].
        assert (a <= SIZE_MAX / b); [|lia].
        apply Z.div_le_lower_bound; lia.
      + intros Hlt. apply Z.div_lt_upper_bound; lia. }
  split; [exact Hiff|].
  intros Hno. f_equal. unfold size_wrap. apply Z.mod_small.
  assert (~ SIZE_MAX < a * b) by (rewrite <- Hiff; congruence).
  unfold SIZE_MAX in *. nia.
Qed.

Lemma si_mul_size_t_sound_witness :
  0 <= 2 ^ 32 <= SIZE_MAX /\
  (si_mul_size_t false (2 ^ 32) (2 ^ 32)).1 = true /\
  (si_mul_size_t false (2 ^ 32) 0).1 = false.
Proof.
  assert (H1 : 0 <= 2 ^ 32 <= SIZE_MAX) by (unfold SIZE_MAX; lia).
  assert (H0 : 0 <= 0 <= SIZE_MAX) by (unfold SIZE_MAX; lia).
  split; [exact H1|]. split.
  - apply (si_mul_size_t_sound (2 ^ 32) (2 ^ 32) H1 H1). unfold SIZE_MAX. lia.
  - reflexivity.
Defined.

(** ** The job store across a line *)

Section store_line_facts.

Lemma crond_job_append_cases (env : alloc_env) (cr : crond) (job : crond_job) :
  crond_job_append env cr job = (crond_errx_noexit cr, false) \/
  (si_mul_seam env = false /\ realloc_ok env = true /\
   (si_mul_size_t false (size_wrap (num_jobs cr + 1)) sizeof_crond_job).1
   = false /\
   crond_job_append env cr job =
   (mk_crond (status_code cr) (mtime_crontab cr)
      (<[Z.to_nat (num_jobs cr) := job]>
         (resize (Z.to_nat (size_wrap (num_jobs cr + 1))) job_zero
                 (job_list cr)))
      (size_wrap (num_jobs cr + 1)), true)).
Proof.
  unfold crond_job_append, crond_reallocarray.
  destruct (si_mul_seam env); [by left|].
  destruct (si_mul_size_t false _ _) as [wraps res].
  destruct wraps; [by left|].
  destruct (realloc_ok env); [|by left].
  by right.
Qed.

Lemma fits_job_array (n : Z) :
  n <= SIZE_MAX / sizeof_crond_job <-> n * sizeof_crond_job <= SIZE_MAX.
Proof.
  assert (H : SIZE_MAX / sizeof_crond_job = 115292150460684697)
    by reflexivity.
  rewrite H. unfold SIZE_MAX, sizeof_crond_job. lia.
Qed.

(** A successful append on a consistent store. *)
Lemma crond_job_append_ok (env : alloc_env) (cr cr' : crond)
  (job : crond_job) :
  store_ok cr -> crond_job_append env cr job = (cr', true) ->
  cr' = mk_crond (status_code cr) (mtime_crontab cr) (job_list cr ++ [job])
                 (num_jobs cr + 1) /\
  store_ok cr'.
Proof.
  intros [Hlen Hfit] Happ.
  destruct (crond_job_append_cases env cr job)
    as [Hf|(_ & _ & Hmul & Hs)]; [congruence|].
  rewrite Hs in Happ. injection Happ as <-.
  assert (Hn : 0 <= num_jobs cr) by lia.
  assert (Hw : size_wrap (num_jobs cr + 1) = num_jobs cr + 1).
  { unfold size_wrap. apply Z.mod_small.
    unfold SIZE_MAX, sizeof_crond_job in Hfit. lia. }
  rewrite Hw in *.
  assert (Hfit' : (num_jobs cr + 1) * sizeof_crond_job <= SIZE_MAX).
  { cbn [si_mul_size_t fst] in Hmul.
    change (negb (sizeof_crond_job =? 0)) with true in Hmul.
    cbn [andb] in Hmul. apply Z.ltb_ge in Hmul. by apply fits_job_array. }
  assert (Hlist :
    <[Z.to_nat (num_jobs cr) := job]>
      (resize (Z.to_nat (num_jobs cr + 1)) job_zero (job_list cr))
    = job_list cr ++ [job]).
  { rewrite resize_spec, take_ge by lia.
    replace (Z.to_nat (num_jobs cr + 1) - length (job_list cr))%nat
      with 1%nat by lia.
    rewrite insert_app_r_alt by lia.
    replace (Z.to_nat (num_jobs cr) - length (job_list cr))%nat
      with 0%nat by lia.
    reflexivity. }
  rewrite Hlist. split; [reflexivity|].
  split; cbn [num_jobs job_list]; [|exact Hfit'].
  rewrite length_app. simpl. lia.
Qed.

(** The three ways a call of [crond_crontab_parse_line] ends: nothing
    changes; the append fails, and only the status changes; or the fields
    gave cells [c], the command section was stored and the job appended. *)
Lemma parse_line_outcome (env : alloc_env) (h : heap) (cr : crond)
  (line : list Z) :
  let r := crond_crontab_parse_line env h cr line in
  r = (h, cr) \/
  r = (h, crond_errx_noexit cr) \/
  exists (i0 i1 i : nat) (c : list bool) (job : crond_job) (cr' : crond),
    (parse_special line i0 (cells job_zero) = (true, i1, c) \/
     parse_fields time_fields line i0 (cells job_zero) = (true, i1, c)) /\
    crond_crontab_parse_command env h line i (mk_job None None 0 c)
    = (true, r.1, job) /\
    crond_job_append env cr job = (cr', true) /\
    r.2 = cr'.
Proof.
  unfold crond_crontab_parse_line.
  destruct (crond_crontab_parse_blank line 0) as [n0 i0].
  destruct (negb _ && negb _); [|by left].
  assert (Hsrc :
    forall v i1 c,
      (if line_at line i0 =? Ch.AT then parse_special line i0 (cells job_zero)
       else parse_fields time_fields line i0 (cells job_zero)) = (v, i1, c) ->
      v = true ->
      parse_special line i0 (cells job_zero) = (true, i1, c) \/
      parse_fields time_fields line i0 (cells job_zero) = (true, i1, c)).
  { intros v i1 c Hv ->. destruct (line_at line i0 =? Ch.AT); auto. }
  destruct (if line_at line i0 =? Ch.AT then _ else _) as [[valid i1] c].
  specialize (Hsrc valid i1 c eq_refl).
  destruct valid; [|by left].
  destruct (crond_crontab_parse_blank line i1) as [n2 i2].
  pose proof (parse_command_then_free env h line i2
                (mk_job None None 0 c) eq_refl eq_refl) as Hfree.
  simpl in Hfree. change (command job_zero) with (@None nat).
  change (stdin_lines job_zero) with (@None nat).
  change (stdin_lines_len job_zero) with 0.
  destruct (crond_crontab_parse_command env h line i2 _)
    as [[parsed h'] job'] eqn:Hcmd.
  simpl in Hfree. destruct parsed.
  - destruct (crond_job_append_cases env cr job') as [->|(_ & _ & _ & Hs)].
    + right; left. by rewrite Hfree.
    + right; right. rewrite Hs. cbn [fst snd].
      exists i0, i1, i2, c, job'. eexists. split; [by apply Hsrc|].
      split; [exact Hcmd|]. split; [exact Hs|reflexivity].
  - left. by rewrite Hfree.
Qed.

Lemma parse_line_mtime (env : alloc_env) (h : heap) (cr : crond)
  (line : list Z) :
  mtime_crontab (crond_crontab_parse_line env h cr line).2 = mtime_crontab cr.
Proof.
  destruct (parse_line_outcome env h cr line)
    as [->|[->|(i0 & i1 & i & c & job & cr' & _ & _ & Happ & ->)]];
    [done|done|].
  destruct (crond_job_append_cases env cr job) as [Hf|(_ & _ & _ & Hs)];
    [congruence|].
  rewrite Hs in Happ. by injection Happ as <-.
Qed.

Lemma parse_lines_mtime (fe : file_env) (ls : list (list Z)) :
  forall (n : nat) (h : heap) (cr : crond),
    mtime_crontab (parse_lines fe n h cr ls).2 = mtime_crontab cr.
Proof.
  induction ls as [|l ls IH]; intros n h cr; [done|].
  cbn [parse_lines].
  pose proof (parse_line_mtime (line_env fe n) h cr (chop_last l)) as Hm.
  destruct (crond_crontab_parse_line _ h cr _) as [h1 cr1].
  rewrite IH. exact Hm.
Qed.

End store_line_facts.

(** X3.  On a consistent store, a call of [crond_job_append] that returns
    true has put the job after the jobs already stored, which are kept in
    their order, has raised the count by one and has left the status and the
    stored timestamp alone; the store is consistent again.  The call returns
    true exactly when the seam is off, the byte size of the grown array fits
    in [size_t] and [realloc] succeeds. *)
Theorem job_append_success (env : alloc_env) (cr : crond) (job : crond_job) :
  store_ok cr ->
  let r := crond_job_append env cr job in
  (r.2 = true <->
   si_mul_seam env = false /\ realloc_ok env = true /\
   (num_jobs cr + 1) * sizeof_crond_job <= SIZE_MAX) /\
  (r.2 = true ->
   job_list r.1 = job_list cr ++ [job] /\ num_jobs r.1 = num_jobs cr + 1 /\
   status_code r.1 = status_code cr /\
   mtime_crontab r.1 = mtime_crontab cr /\ store_ok r.1).
Proof.
  intros Hok r. split.
  - subst r. destruct Hok as [Hlen Hfit].
    assert (Hw : size_wrap (num_jobs cr + 1) = num_jobs cr + 1).
    { unfold size_wrap. apply Z.mod_small.
      unfold SIZE_MAX, sizeof_crond_job in Hfit. lia. }
    assert (Hmul :
      (si_mul_size_t false (num_jobs cr + 1) sizeof_crond_job).1 = false
      <-> (num_jobs cr + 1) * sizeof_crond_job <= SIZE_MAX).
    { cbn [si_mul_size_t fst].
      change (negb (sizeof_crond_job =? 0)) with true. cbn [andb].
      rewrite Z.ltb_ge. apply fits_job_array. }
    destruct (crond_job_append_cases env cr job)
      as [Hf|(Hseam & Hre & Hm & Hs)].
    + rewrite Hf. cbn [snd]. split; [done|]. intros (Hseam & Hre & Hsz).
      exfalso. apply Hmul in Hsz. revert Hf.
      unfold crond_job_append, crond_reallocarray. rewrite Hseam, Hw.
      destruct (si_mul_size_t false _ _) as [wraps res]. simpl in Hsz.
      subst wraps. rewrite Hre. discriminate.
    + rewrite Hs. cbn [snd]. split; [|done]. intros _.
      rewrite Hw in Hm. by apply Hmul in Hm.
  - intros Htrue.
    destruct (crond_job_append_ok env cr r.1 job Hok) as [-> Hok'].
    { subst r. destruct (crond_job_append env cr job) as [cr' b].
      simpl in Htrue. by subst b. }
    by cbn [job_list num_jobs status_code mtime_crontab].
Qed.

Lemma job_append_success_witness :
  store_ok crond_zero /\
  (crond_job_append env_ok crond_zero job_zero).2 = true /\
  job_list (crond_job_append env_ok crond_zero job_zero).1 = [job_zero].
Proof.
  assert (H0 : store_ok crond_zero).
  { split; [reflexivity|]. unfold SIZE_MAX. simpl. lia. }
  destruct (job_append_success env_ok crond_zero job_zero H0) as [Hiff Hres].
  split; [exact H0|]. split; [reflexivity|].
  apply Hres. reflexivity.
Defined.

Section reparse_facts.

Lemma parse_line_store (env : alloc_env) (h : heap) (cr : crond)
  (line : list Z) :
  store_ok cr ->
  let r := crond_crontab_parse_line env h cr line in
  store_ok r.2 /\
  (job_list r.2 = job_list cr \/ exists job, job_list r.2 = job_list cr ++ [job]) /\
  (status_code r.2 = status_code cr \/ status_code r.2 = EXIT_FAILURE).
Proof.
  intros Hok r. subst r.
  destruct (parse_line_outcome env h cr line)
    as [->|[->|(i0 & i1 & i & c & job & cr' & _ & _ & Happ & ->)]].
  - auto.
  - cbn [snd crond_errx_noexit status_code job_list]. auto.
  - destruct (crond_job_append_ok env cr cr' job Hok Happ) as [-> Hok'].
    cbn [job_list status_code]. split; [exact Hok'|]. split; [|by left].
    right. by exists job.
Qed.

Lemma has_changed_settled (sr : stat_result) (cr cr2 : crond) :
  mtime_crontab cr2 = mtime_crontab (crond_crontab_has_changed sr cr).1 ->
  (forall e, sr = StatErr e -> e = ENOENT) ->
  crond_crontab_has_changed sr cr2 = (cr2, false).
Proof.
  intros Hm Hsr. destruct sr as [mt|e].
  - cbn [crond_crontab_has_changed] in *. unfold memcmp_ne in *.
    assert (Hb : timespec_bytes (mtime_crontab cr2) = timespec_bytes mt).
    { revert Hm. case_bool_decide as Heq; cbn [negb fst mtime_crontab].
      - by intros ->.
      - by intros ->. }
    by rewrite bool_decide_eq_true_2.
  - rewrite (Hsr e eq_refl) in *. cbn [crond_crontab_has_changed] in *.
    rewrite Z.eqb_refl in *.
    assert (Hz : tv_sec (mtime_crontab cr2) = 0 /\
                 tv_nsec (mtime_crontab cr2) = 0).
    { revert Hm.
      destruct (Z.eqb_spec (tv_sec (mtime_crontab cr)) 0) as [Hs|Hs];
      destruct (Z.eqb_spec (tv_nsec (mtime_crontab cr)) 0) as [Hn|Hn];
      cbn [negb orb fst mtime_crontab]; intros ->; auto. }
    destruct Hz as [-> ->]. reflexivity.
Qed.

Lemma classic_stat (sr : stat_result) :
  (forall e, sr = StatErr e -> e = ENOENT) \/
  (exists e, sr = StatErr e /\ e <> ENOENT).
Proof.
  destruct sr as [mt|e]; [by left|].
  destruct (decide (e = ENOENT)) as [->|Hne].
  - left. by intros ? [= <-].
  - right. by exists e.
Qed.

Lemma reparse_mtime (fe : file_env) (h : heap) (cr : crond) :
  mtime_crontab (crond_crontab_reparse fe h cr).2
  = mtime_crontab (crond_crontab_has_changed (stat_res fe) cr).1.
Proof.
  unfold crond_crontab_reparse.
  destruct (crond_crontab_has_changed (stat_res fe) cr) as [cra changed].
  destruct changed; [|done].
  cbn [crond_job_list_free fst].
  destruct (fopen_res fe) as [content|]; [|done].
  match goal with |- context [parse_lines fe 0 ?h0 ?cr0 ?ls] =>
    pose proof (parse_lines_mtime fe ls 0%nat h0 cr0) as Hm;
    destruct (parse_lines fe 0 h0 cr0 ls) as [h1 cr1] end.
  cbn [snd mtime_crontab] in Hm.
  destruct (ferror_set fe); [exact Hm|].
  destruct (fclose_ok fe); exact Hm.
Qed.

End reparse_facts.

(** X4.  The loop of [crond_crontab_reparse] over the lines of the file only
    ever appends: started on a consistent store, it leaves a consistent
    store that begins with the jobs held before, in their order, holds at
    most one more job per line read, keeps the stored timestamp, and has
    either the status it started with or the failure status. *)
Theorem parse_lines_append_only (fe : file_env) (ls : list (list Z)) :
  forall (n : nat) (h : heap) (cr : crond),
    store_ok cr ->
    let r := parse_lines fe n h cr ls in
    store_ok r.2 /\
    job_list cr `prefix_of` job_list r.2 /\
    (length (job_list r.2) <= length (job_list cr) + length ls)%nat /\
    mtime_crontab r.2 = mtime_crontab cr /\
    (status_code r.2 = status_code cr \/ status_code r.2 = EXIT_FAILURE).
Proof.
  induction ls as [|l ls IH]; intros n h cr Hok.
  - cbn. split; [done|]. split; [done|]. split; [lia|]. auto.
  - cbn [parse_lines].
    pose proof (parse_line_store (line_env fe n) h cr (chop_last l) Hok)
      as (Hok1 & Hjobs & Hst).
    pose proof (parse_line_mtime (line_env fe n) h cr (chop_last l)) as Hm.
    destruct (crond_crontab_parse_line _ h cr _) as [h1 cr1].
    cbn [snd] in *.
    destruct (IH (S n) h1 cr1 Hok1) as (Hok2 & Hpre & Hlen & Hm2 & Hst2).
    split; [exact Hok2|]. cbn [length].
    split; [|split; [|split]].
    + destruct Hjobs as [Heq|[job Heq]]; rewrite Heq in Hpre; [done|].
      by eapply prefix_app_l.
    + destruct Hjobs as [Heq|[job Heq]]; rewrite Heq in Hlen;
        [lia|rewrite length_app in Hlen; simpl in Hlen; lia].
    + congruence.
    + destruct Hst as [Hst|Hst], Hst2 as [Hst2|Hst2]; auto;
        [left|right]; congruence.
Qed.

Lemma parse_lines_append_only_witness :
  store_ok crond_zero /\
  let fe := mk_file_env (StatOk (mk_timespec 1 0)) None false true
                        (fun _ => env_ok) in
  (length (job_list (parse_lines fe 0 ∅ crond_zero
     [cstr "# jobs"; cstr "* * * * * /bin/a"; cstr "x"]).2) <= 0 + 3)%nat.
Proof.
  assert (H0 : store_ok crond_zero).
  { split; [reflexivity|]. unfold SIZE_MAX. simpl. lia. }
  split; [exact H0|]. intros fe.
  apply (parse_lines_append_only fe
           [cstr "# jobs"; cstr "* * * * * /bin/a"; cstr "x"] 0%nat ∅
           crond_zero H0).
Defined.

(** X5.  Once [crond_crontab_reparse] has run, running it again while
    [stat] gives the same result changes nothing, whatever the file system
    and the allocator would do: the heap and the whole context are as the
    first run left them.  In particular a crontab that could not be opened
    or read after a change is not tried again until [stat] reports something
    else. *)
Theorem reparse_settles (fe fe' : file_env) (h : heap) (cr : crond) :
  stat_res fe' = stat_res fe ->
  let r := crond_crontab_reparse fe h cr in
  crond_crontab_reparse fe' r.1 r.2 = r.
Proof.
  intros Hsr r.
  destruct (classic_stat (stat_res fe)) as [Hen|(e & Hse & Hne)].
  - pose proof (reparse_mtime fe h cr) as Hm. fold r in Hm.
    unfold crond_crontab_reparse at 1. rewrite Hsr.
    rewrite (has_changed_settled (stat_res fe) cr r.2 Hm Hen).
    by destruct r.
  - subst r. unfold crond_crontab_reparse. rewrite Hsr, Hse.
    cbn [crond_crontab_has_changed]. destruct (Z.eqb_spec e ENOENT); [done|].
    reflexivity.
Qed.

Lemma reparse_settles_witness :
  let fe := mk_file_env (StatOk (mk_timespec 5 7)) None false true
                        (fun _ => env_ok) in
  let fe' := mk_file_env (StatOk (mk_timespec 5 7))
               (Some (cstr "* * * * * /bin/true")) false true
               (fun _ => env_ok) in
  stat_res fe' = stat_res fe /\
  crond_crontab_reparse fe' (crond_crontab_reparse fe ∅ crond_zero).1
                            (crond_crontab_reparse fe ∅ crond_zero).2
  = crond_crontab_reparse fe ∅ crond_zero /\
  job_list (crond_crontab_reparse fe' ∅ crond_zero).2 <> [].
Proof.
  intros fe fe'.
  assert (H0 : stat_res fe' = stat_res fe) by reflexivity.
  split; [exact H0|]. split; [|vm_compute; discriminate].
  apply (reparse_settles fe fe' ∅ crond_zero H0).
Defined.

(** ** Ownership of the buffers *)

Section ownership_facts.

Lemma crond_job_free_blocks (h : heap) (job : crond_job) :
  crond_job_free h job = foldl (fun m b => delete b m) h (job_blocks job).
Proof.
  unfold crond_job_free, job_blocks, c_free.
  by destruct (command job), (stdin_lines job).
Qed.

Lemma foldl_job_free (jl : list crond_job) :
  forall h : heap,
    foldl crond_job_free h jl
    = foldl (fun m b => delete b m) h (concat (job_blocks <$> jl)).
Proof.
  induction jl as [|job jl IH]; intros h; [done|].
  cbn [foldl fmap list_fmap concat]. rewrite foldl_app, IH.
  by rewrite crond_job_free_blocks.
Qed.

Lemma lookup_foldl_delete (bs : list nat) :
  forall (h : heap) (k : nat),
    foldl (fun m b => delete b m) h bs !! k
    = if bool_decide (k ∈ bs) then None else h !! k.
Proof.
  induction bs as [|b bs IH]; intros h k; [done|].
  cbn [foldl]. rewrite IH.
  destruct (decide (k = b)) as [->|Hne].
  - rewrite lookup_delete_eq. rewrite (bool_decide_eq_true_2 (b ∈ b :: bs));
      [|by left]. by case_bool_decide.
  - rewrite lookup_delete_ne by done.
    case_bool_decide as Hin.
    + rewrite bool_decide_eq_true_2; [done|by right].
    + rewrite bool_decide_eq_false_2; [done|].
      intros [?|?]%elem_of_cons; done.
Qed.

Lemma owns_same_store (h0 h : heap) (cr cr' : crond) :
  job_list cr' = job_list cr -> num_jobs cr' = num_jobs cr ->
  owns h0 h cr -> owns h0 h cr'.
Proof.
  unfold owns, store_ok, store_blocks. by intros -> ->.
Qed.

Lemma owns_empty (h0 : heap) (sc : Z) (mt : timespec) :
  owns h0 h0 (mk_crond sc mt [] 0).
Proof.
  split; [|split; [|split; [|split]]].
  - split; [reflexivity|]. unfold SIZE_MAX. simpl. lia.
  - constructor.
  - intros b Hb. by apply elem_of_nil in Hb.
  - done.
  - constructor.
Qed.

(** Releasing every job of a store that owns its buffers gives back the
    base heap. *)
Lemma job_list_free_owns (h0 h : heap) (cr : crond) :
  owns h0 h cr ->
  crond_job_list_free h cr
  = (h0, mk_crond (status_code cr) (mtime_crontab cr) [] 0).
Proof.
  intros ([Hlen _] & _ & Hlive & Hrest & _).
  unfold crond_job_list_free. f_equal.
  rewrite take_ge by lia. rewrite foldl_job_free.
  apply map_eq. intros k. rewrite lookup_foldl_delete.
  fold (store_blocks cr). case_bool_decide as Hin.
  - symmetry. by apply Hlive.
  - by apply Hrest.
Qed.

Lemma parse_command_alloc (env : alloc_env) (h : heap) (line : list Z)
  (idx : nat) (c : list bool) (h1 : heap) (job : crond_job) :
  crond_crontab_parse_command env h line idx (mk_job None None 0 c)
  = (true, h1, job) ->
  exists b1 v1, h !! b1 = None /\ command job = Some b1 /\
    ((stdin_lines job = None /\ h1 = <[b1 := v1]> h) \/
     exists b2 v2, b2 <> b1 /\ h !! b2 = None /\ stdin_lines job = Some b2 /\
       h1 = <[b2 := v2]> (<[b1 := v1]> h)).
Proof.
  unfold crond_crontab_parse_command. cbn [command stdin_lines cells].
  destruct (find_stdin_start (S (length line)) line idx) as [i start].
  unfold c_strndup, c_strdup.
  destruct (strndup_ok env); [|discriminate].
  match goal with |- context [heap_alloc h ?v] =>
    destruct (heap_alloc_spec h v) as (b1 & Hb1 & ->) end.
  destruct start as [start|]; simpl.
  2: { intros [= <- <-]. exists b1. eexists. split; [done|].
       split; [done|]. by left. }
  destruct (strdup_ok env); [|discriminate].
  match goal with |- context [heap_alloc ?h1 ?v] =>
    destruct (heap_alloc_spec h1 v) as (b2 & Hb2 & ->) end.
  apply lookup_insert_None in Hb2 as [Hb2 Hne].
  rewrite lookup_insert_eq. simpl.
  destruct (stdin_lines_loop _ _ 0 0) as [buf n]. simpl.
  intros [= <- <-]. exists b1. eexists. split; [done|]. split; [done|].
  right. exists b2. eexists. split; [done|]. split; [done|].
  split; [done|]. by rewrite insert_insert_eq.
Qed.

Lemma owns_append (h0 h h1 : heap) (cr : crond) (job : crond_job)
  (sc : Z) (mt : timespec) :
  owns h0 h cr ->
  store_ok (mk_crond sc mt (job_list cr ++ [job]) (num_jobs cr + 1)) ->
  (exists b1 v1, h !! b1 = None /\ command job = Some b1 /\
    ((stdin_lines job = None /\ h1 = <[b1 := v1]> h) \/
     exists b2 v2, b2 <> b1 /\ h !! b2 = None /\ stdin_lines job = Some b2 /\
       h1 = <[b2 := v2]> (<[b1 := v1]> h))) ->
  owns h0 h1 (mk_crond sc mt (job_list cr ++ [job]) (num_jobs cr + 1)).
Proof.
  intros (Hok & Hnd & Hlive & Hrest & Hcmd) Hok' (b1 & v1 & Hb1 & Hc & Hsl).
  assert (Hfresh : forall b, h !! b = None -> b ∉ store_blocks cr).
  { intros b Hb Hin. destruct (Hlive b Hin) as [_ [x Hx]]. congruence. }
  assert (Hsb : store_blocks
                  (mk_crond sc mt (job_list cr ++ [job]) (num_jobs cr + 1))
                = store_blocks cr ++ job_blocks job).
  { unfold store_blocks. cbn [job_list].
    rewrite fmap_app, concat_app. cbn. by rewrite app_nil_r. }
  split; [exact Hok'|]. rewrite Hsb.
  assert (Hcmd' : Forall (fun j => command j <> None) (job_list cr ++ [job])).
  { apply Forall_app. split; [exact Hcmd|]. constructor; [congruence|done]. }
  destruct Hsl as [[Hs ->]|(b2 & v2 & Hne & Hb2 & Hs & ->)];
    unfold job_blocks; rewrite Hc, Hs; cbn [app].
  - split; [|split; [|split]]; [| | |exact Hcmd'].
    + apply NoDup_app. split; [done|]. split; [|apply NoDup_singleton].
      intros x Hx [->|Hn]%elem_of_cons; [by apply (Hfresh b1)|].
      by apply elem_of_nil in Hn.
    + intros b [Hin|[->|Hn]%elem_of_cons]%elem_of_app.
      * destruct (Hlive b Hin) as [H0 Hs']. split; [done|].
        apply lookup_insert_is_Some'. by right.
      * split; [|by rewrite lookup_insert_eq].
        rewrite <- Hrest by (by apply Hfresh). done.
      * by apply elem_of_nil in Hn.
    + intros b [Hn1 Hn2]%not_elem_of_app.
      rewrite lookup_insert_ne; [by apply Hrest|].
      intros ->. apply Hn2. by left.
  - split; [|split; [|split]]; [| | |exact Hcmd'].
    + apply NoDup_app. split; [done|]. split.
      * intros x Hx [->|[->|Hn]%elem_of_cons]%elem_of_cons;
          [by apply (Hfresh b1)|by apply (Hfresh b2)|].
        by apply elem_of_nil in Hn.
      * apply NoDup_cons. split; [|apply NoDup_singleton].
        intros [->|Hn]%elem_of_cons; [done|]. by apply elem_of_nil in Hn.
    + intros b [Hin|[->|[->|Hn]%elem_of_cons]%elem_of_cons]%elem_of_app.
      * destruct (Hlive b Hin) as [H0 Hs']. split; [done|].
        apply lookup_insert_is_Some'. right.
        apply lookup_insert_is_Some'. by right.
      * split; [by rewrite <- Hrest by (by apply Hfresh)|].
        apply lookup_insert_is_Some'. right. by rewrite lookup_insert_eq.
      * split; [by rewrite <- Hrest by (by apply Hfresh)|].
        by rewrite lookup_insert_eq.
      * by apply elem_of_nil in Hn.
    + intros b [Hn1 Hn2]%not_elem_of_app.
      rewrite !lookup_insert_ne; [by apply Hrest| |].
      * intros ->. apply Hn2. by left.
      * intros ->. apply Hn2. right. by left.
Qed.

Lemma parse_line_owns (env : alloc_env) (h0 h : heap) (cr : crond)
  (line : list Z) :
  owns h0 h cr ->
  let r := crond_crontab_parse_line env h cr line in owns h0 r.1 r.2.
Proof.
  intros Hown r. subst r.
  destruct (parse_line_outcome env h cr line)
    as [->|[->|(i0 & i1 & i & c & job & cr' & _ & Hcmd & Happ & Hr)]].
  - done.
  - by apply (owns_same_store h0 h cr).
  - rewrite Hr.
    destruct (crond_job_append_ok env cr cr' job (proj1 Hown) Happ)
      as [-> Hok'].
    apply owns_append with (h := h); [done|done|].
    by eapply parse_command_alloc.
Qed.


Lemma has_changed_store (sr : stat_result) (cr : crond) :
  let r := crond_crontab_has_changed sr cr in
  job_list r.1 = job_list cr /\ num_jobs r.1 = num_jobs cr.
Proof.
  destruct sr as [mt|e]; cbn [crond_crontab_has_changed].
  - by destruct (memcmp_ne _ _).
  - destruct (e =? ENOENT); [|done]. by destruct (_ || _).
Qed.

End ownership_facts.



(** X7.  [crond_job_list_free] on a store that owns its buffers releases
    every one of them and nothing else: the heap afterwards is the base
    heap, every block a stored job designated is no longer live, and the
    store is empty with a zero count, the status and the stored timestamp
    kept. *)
Theorem job_list_free_releases_all (h0 h : heap) (cr : crond) :
  owns h0 h cr ->
  let r := crond_job_list_free h cr in
  r.1 = h0 /\
  (forall b, b ∈ store_blocks cr -> is_Some (h !! b) /\ r.1 !! b = None) /\
  job_list r.2 = [] /\ num_jobs r.2 = 0 /\
  status_code r.2 = status_code cr /\ mtime_crontab r.2 = mtime_crontab cr /\
  owns h0 r.1 r.2.
Proof.
  intros Hown r. subst r. rewrite (job_list_free_owns h0 h cr Hown).
  cbn [fst snd job_list num_jobs status_code mtime_crontab].
  split; [done|]. split.
  - intros b Hb. destruct Hown as (_ & _ & Hlive & _). 
    destruct (Hlive b Hb). done.
  - repeat (split; [done|]). apply owns_empty.
Qed.

Lemma job_list_free_releases_all_witness :
  let r := crond_crontab_parse_line env_ok ∅ crond_zero
             (cstr "* * * * * /bin/cat%in") in
  owns ∅ r.1 r.2 /\ size r.1 = 2%nat /\
  (crond_job_list_free r.1 r.2).1 = ∅.
Proof.
  intros r.
  assert (H0 : owns ∅ ∅ crond_zero) by apply owns_empty.
  assert (H1 : owns ∅ r.1 r.2) by apply (parse_line_owns env_ok ∅ ∅ _ _ H0).
  split; [exact H1|]. split; [vm_compute; reflexivity|].
  apply (job_list_free_releases_all ∅ r.1 r.2 H1).
Defined.



(** ** Failed duplications *)

Lemma parse_command_strndup_fail (env : alloc_env) (h : heap) (line : list Z)
  (idx : nat) (job : crond_job) :
  strndup_ok env = false ->
  crond_crontab_parse_command env h line idx job
  = (false, h, mk_job None (stdin_lines job) 0 (cells job)).
Proof.
  intros Hs. unfold crond_crontab_parse_command, c_strndup. rewrite Hs.
  by destruct (find_stdin_start (S (length line)) line idx) as [i start].
Qed.

(** X9.  [crond_crontab_parse_command] returns false only because [strndup]
    or [strdup] failed, and then it leaves nothing behind: the heap is the
    heap before the call (the command buffer is released when the payload
    could not be duplicated) and both pointers of the job are NULL, so the
    [crond_job_free] of the caller releases nothing a second time.  When
    [strndup] fails, [crond_crontab_parse_line] drops the line without a
    trace: heap, store and status are unchanged. *)
Theorem dup_failure_drops_line (env : alloc_env) (h : heap) (cr : crond)
  (line : list Z) (idx : nat) (job : crond_job) :
  stdin_lines job = None ->
  let r := crond_crontab_parse_command env h line idx job in
  (r.1.1 = false ->
   (strndup_ok env = false \/ strdup_ok env = false) /\
   r.1.2 = h /\ command r.2 = None /\ stdin_lines r.2 = None) /\
  (strndup_ok env = false ->
   r.1.1 = false /\ crond_crontab_parse_line env h cr line = (h, cr)).
Proof.
  intros Hsl r. split.
  - subst r. unfold crond_crontab_parse_command.
    destruct (find_stdin_start (S (length line)) line idx) as [i start].
    unfold c_strndup, c_strdup. cbn [command stdin_lines cells].
    destruct (strndup_ok env); [|by auto].
    match goal with |- context [heap_alloc h ?v] =>
      destruct (heap_alloc_spec h v) as (b1 & Hb1 & ->) end.
    destruct start as [start|]; simpl; [|done].
    destruct (strdup_ok env).
    + match goal with |- context [heap_alloc ?h1 ?v] =>
        destruct (heap_alloc_spec h1 v) as (b2 & Hb2 & ->) end.
      rewrite lookup_insert_eq. simpl.
      by destruct (stdin_lines_loop _ _ 0 0) as [buf n].
    + intros _. split; [by right|]. split; [|done].
      by apply delete_insert_id.
  - intros Hs. subst r. rewrite parse_command_strndup_fail by done.
    split; [done|]. unfold crond_crontab_parse_line.
    destruct (crond_crontab_parse_blank line 0) as [n0 i0].
    destruct (negb _ && negb _); [|done].
    destruct (if line_at line i0 =? Ch.AT then _ else _) as [[valid i1] c].
    destruct valid; [|done].
    destruct (crond_crontab_parse_blank line i1) as [n2 i2].
    by rewrite parse_command_strndup_fail by done.
Qed.

Lemma dup_failure_drops_line_witness :
  let env := mk_env true false false true in
  let line := cstr "* * * * * /bin/cat%in" in
  stdin_lines job_zero = None /\
  (crond_crontab_parse_command env ∅ line 10 job_zero).1.1 = false /\
  (crond_crontab_parse_command env ∅ line 10 job_zero).1.2 = ∅.
Proof.
  intros env line.
  destruct (dup_failure_drops_line env ∅ crond_zero line 10 job_zero eq_refl)
    as [Hfail _].
  split; [reflexivity|]. split; [reflexivity|].
  apply Hfail. reflexivity.
Defined.

(** ** What a time field writes *)

Section field_write_facts.

Lemma field_base_nonneg (f : field) : 0 <= field_base f /\ 0 < field_len f.
Proof. destruct f; simpl; lia. Qed.

Lemma size_wrap_nonneg (z : Z) : 0 <= size_wrap z.
Proof. unfold size_wrap. apply Z.mod_pos_bound. lia. Qed.

Lemma set_range_get (c : list bool) (f : field) (start end_ i : Z) :
  length c = JOB_CELLS -> f <> pad ->
  0 <= start <= i -> i <= end_ -> i <= field_len f ->
  field_get (crond_set_field_range c (field_base f) start end_) f i
  = Some true.
Proof.
  intros Hlen Hf Hs He Hl. destruct (field_end_in_job f Hf) as (Hb & _ & Hend).
  unfold field_get. rewrite (proj2 (Z.leb_le _ _)) by lia.
  rewrite crond_set_field_range_lookup by lia.
  rewrite bool_decide_eq_true_2 by lia.
  destruct (lookup_lt_is_Some_2 c (Z.to_nat (field_base f + i))) as [x ->];
    [unfold JOB_CELLS in *; lia|done].
Qed.

Lemma set_range_outside (c : list bool) (f : field) (start end_ : Z)
  (k : nat) :
  0 <= start -> end_ <= field_len f ->
  ~ (field_base f <= Z.of_nat k <= field_base f + field_len f) ->
  crond_set_field_range c (field_base f) start end_ !! k = c !! k.
Proof.
  intros Hs He Hk. destruct (field_base_nonneg f) as [Hb _].
  rewrite crond_set_field_range_lookup by lia.
  by rewrite bool_decide_eq_false_2 by lia.
Qed.

(** The swap and the clamp of a range keep the fill inside
    [0 .. field_len]. *)
Lemma field_apply_cases (f : field) (d1 d2 rc : Z) (c : list bool) :
  0 <= d1 -> 0 <= d2 ->
  crond_field_apply f d1 d2 rc c = (-1, c) \/
  exists lo hi, 0 <= lo <= hi /\ lo < field_len f /\ hi <= field_len f /\
    crond_field_apply f d1 d2 rc c
    = (rc, crond_set_field_range c (field_base f) lo hi).
Proof.
  intros H1 H2. unfold crond_field_apply.
  destruct (Z.leb_spec (field_len f) d1) as [Hle|Hlt]; [by left|].
  right. destruct (Z.eqb_spec d2 SIZE_MAX) as [->|Hne].
  { exists d1, d1. repeat split; lia. }
  destruct (Z.ltb_spec d2 d1) as [Hsw|Hsw].
  - destruct (Z.leb_spec (field_len f) d1); [lia|].
    exists d2, d1. repeat split; lia.
  - destruct (Z.leb_spec (field_len f) d2).
    + exists d1, (field_len f). repeat split; lia.
    + exists d1, d2. repeat split; lia.
Qed.

(** One item either rejects the field or fills a range that starts at a
    valid index of the field and ends at most one cell past its end. *)
Lemma field_item_cases (line : list Z) (f : field) (off : Z) (st : fstate) :
  let r := (crond_field_item line f off st).1 in
  (f_rc r = -1 /\ f_cells r = f_cells st) \/
  exists lo hi, 0 <= lo <= hi /\ lo < field_len f /\ hi <= field_len f /\
    f_rc r = f_rc st /\
    f_cells r = crond_set_field_range (f_cells st) (field_base f) lo hi.
Proof.
  unfold crond_field_item.
  destruct (read_digits line (f_idx st)) as [[digit_1 i1] idx1].
  destruct (i1 =? 0)%nat; [by left|].
  assert (Happ : forall d2 idx2, 0 <= d2 ->
    let r := (let '(rc, c) :=
                crond_field_apply f (size_wrap (crond_strtoul_field digit_1 - off))
                                  d2 (f_rc st) (f_cells st) in
              if line_at line idx2 =? Ch.COMMA
              then (mk_fstate rc (S idx2) c, true)
              else (mk_fstate rc idx2 c, false)).1 in
    (f_rc r = -1 /\ f_cells r = f_cells st) \/
    exists lo hi, 0 <= lo <= hi /\ lo < field_len f /\ hi <= field_len f /\
      f_rc r = f_rc st /\
      f_cells r = crond_set_field_range (f_cells st) (field_base f) lo hi).
  { intros d2 idx2 Hd2.
    destruct (field_apply_cases f
                (size_wrap (crond_strtoul_field digit_1 - off)) d2
                (f_rc st) (f_cells st) (size_wrap_nonneg _) Hd2)
      as [->|(lo & hi & Hlo & Hlt & Hhi & ->)].
    - left. by destruct (line_at line idx2 =? Ch.COMMA).
    - right. exists lo, hi. by destruct (line_at line idx2 =? Ch.COMMA). }
  destruct (line_at line idx1 =? Ch.MINUS).
  - destruct (read_digits line (S idx1)) as [[digit_2 i2] idx2].
    destruct (i2 =? 0)%nat; [by left|].
    apply Happ, size_wrap_nonneg.
  - apply Happ. unfold SIZE_MAX. lia.
Qed.

Lemma field_items_invariant (P : list bool -> list bool -> Prop)
  (line : list Z) (f : field) (off : Z) :
  (forall c, P c c) ->
  (forall c c' lo hi, P c c' -> 0 <= lo <= hi -> lo < field_len f ->
     hi <= field_len f ->
     P c (crond_set_field_range c' (field_base f) lo hi)) ->
  forall (fuel : nat) (st : fstate) (c : list bool),
    P c (f_cells st) ->
    P c (f_cells (crond_field_items fuel line f off st)).
Proof.
  intros Hrefl Hstep. induction fuel as [|fuel IH]; intros st c HP; [done|].
  cbn [crond_field_items].
  pose proof (field_item_cases line f off st) as Hc.
  destruct (crond_field_item line f off st) as [st' comma].
  cbn [fst] in Hc.
  assert (HP' : P c (f_cells st')).
  { destruct Hc as [[_ ->]|(lo & hi & Hlo & Hlt & Hhi & _ & ->)]; [done|].
    by apply Hstep. }
  destruct comma; [by apply IH|done].
Qed.

Lemma parse_field_int_invariant (P : list bool -> list bool -> Prop)
  (line : list Z) (idx : nat) (c : list bool) (f : field) (off : Z) :
  (forall c, P c c) ->
  (forall c c' lo hi, P c c' -> 0 <= lo <= hi -> lo < field_len f ->
     hi <= field_len f ->
     P c (crond_set_field_range c' (field_base f) lo hi)) ->
  P c (f_cells (crond_parse_field_int line idx c f off)).
Proof.
  intros Hrefl Hstep. unfold crond_parse_field_int.
  destruct (field_base_nonneg f) as [_ Hlen].
  set (st := if line_at line idx =? Ch.STAR then _ else _).
  assert (HP : P c (f_cells st)).
  { subst st. destruct (line_at line idx =? Ch.STAR).
    - cbn [f_cells]. apply Hstep; [done|lia..].
    - by apply field_items_invariant. }
  by destruct (crond_crontab_parse_blank line (f_idx st)).
Qed.

Lemma field_items_sticky (line : list Z) (f : field) (off : Z) :
  forall (fuel : nat) (st : fstate),
    f_rc st = -1 -> f_rc (crond_field_items fuel line f off st) = -1.
Proof.
  induction fuel as [|fuel IH]; intros st Hrc; [done|].
  cbn [crond_field_items].
  pose proof (field_item_cases line f off st) as Hc.
  destruct (crond_field_item line f off st) as [st' comma].
  cbn [fst] in Hc.
  assert (Hrc' : f_rc st' = -1).
  { destruct Hc as [[? _]|(lo & hi & _ & _ & _ & -> & _)]; done. }
  destruct comma; [by apply IH|done].
Qed.

Lemma crond_field_items_S (fuel : nat) (line : list Z) (f : field) (off : Z)
  (st : fstate) :
  crond_field_items (S fuel) line f off st =
  let '(st', has_comma) := crond_field_item line f off st in
  if has_comma then crond_field_items fuel line f off st' else st'.
Proof. reflexivity. Qed.

Lemma field_items_accept (line : list Z) (f : field) (off : Z) :
  f <> pad ->
  forall (fuel : nat) (st : fstate),
    length (f_cells st) = JOB_CELLS -> f_rc st = 0 ->
    let r := crond_field_items (S fuel) line f off st in
    f_rc r = -1 \/ (f_rc r = 0 /\ field_nonempty (f_cells r) f).
Proof.
  intros Hf. induction fuel as [|fuel IH]; intros st Hlen Hrc;
    cbv zeta; rewrite crond_field_items_S;
    pose proof (field_item_cases line f off st) as Hc;
    destruct (crond_field_item line f off st) as [st' comma];
    cbn [fst] in Hc;
    (destruct Hc as [[Hrej _]|(lo & hi & Hlo & Hlt & Hhi & Hrc' & Hcells)];
      [left; destruct comma; [|done]; by apply field_items_sticky|]).
  - right. assert (f_rc st' = 0 /\ field_nonempty (f_cells st') f).
    { split; [congruence|]. exists lo. split; [unfold field_index_ok; lia|].
      rewrite Hcells. apply set_range_get; [done|done|lia..]. }
    by destruct comma.
  - destruct comma.
    + apply IH; [|congruence].
      by rewrite Hcells, crond_set_field_range_length.
    + right. split; [congruence|]. exists lo.
      split; [unfold field_index_ok; lia|].
      rewrite Hcells. apply set_range_get; [done|done|lia..].
Qed.

End field_write_facts.

Lemma parse_field_int_accept (line : list Z) (idx : nat)
  (c : list bool) (f : field) (off : Z) :
  f <> pad -> length c = JOB_CELLS ->
  let st := crond_parse_field_int line idx c f off in
  (f_rc st = 0 \/ f_rc st = -1) /\
  (f_rc st = 0 ->
   field_nonempty (f_cells st) f /\
   (0 < f_idx st)%nat /\
   isblank (line_at line (f_idx st - 1)) = true /\
   isblank (line_at line (f_idx st)) = false).
Proof.
  intros Hf Hlen. unfold crond_parse_field_int.
  set (st0 := if line_at line idx =? Ch.STAR then _ else _).
  assert (H0 : f_rc st0 = -1 \/
               (f_rc st0 = 0 /\ field_nonempty (f_cells st0) f)).
  { subst st0. destruct (line_at line idx =? Ch.STAR).
    - right. split; [done|]. exists 0. cbn [f_cells].
      destruct (field_end_in_job f Hf) as (_ & Hl & _).
      split; [unfold field_index_ok; lia|].
      apply set_range_get; [done|done|lia..].
    - by apply field_items_accept. }
  pose proof (crond_crontab_parse_blank_spec line (f_idx st0)) as Hb.
  destruct (crond_crontab_parse_blank line (f_idx st0)) as [nb i'].
  destruct Hb as (-> & Hblank & Hstop). cbn [f_rc f_cells f_idx].
  destruct (Nat.eqb_spec nb 0) as [->|Hnb].
  - split; [by right|]. discriminate.
  - split; [destruct H0 as [->|[-> _]]; auto|].
    intros Hrc. destruct H0 as [?|[_ Hne]]; [congruence|].
    split; [exact Hne|]. split; [lia|]. split; [|exact Hstop].
    apply Hblank. lia.
Qed.


(** X10.  [crond_parse_field_int] returns 0 or -1 and nothing else.  When it
    returns 0 on one of the five time fields, at least one valid index of
    the field is set afterwards (no accepted field is empty), the byte
    before the final index is a blank and the byte at it is not. *)
Theorem parse_field_int_accepts_nonempty (line : list Z) (idx : nat)
  (c : list bool) (f : field) (off : Z) :
  f <> pad -> length c = JOB_CELLS ->
  let st := crond_parse_field_int line idx c f off in
  (f_rc st = 0 \/ f_rc st = -1) /\
  (f_rc st = 0 ->
   field_nonempty (f_cells st) f /\
   (0 < f_idx st)%nat /\
   isblank (line_at line (f_idx st - 1)) = true /\
   isblank (line_at line (f_idx st)) = false).
Proof. apply parse_field_int_accept. Qed.

Lemma parse_field_int_accepts_nonempty_witness :
  let st := crond_parse_field_int (cstr "1,50-70 x") 0 (cells job_zero)
                                  minute 0 in
  minute <> pad /\ length (cells job_zero) = JOB_CELLS /\ f_rc st = 0 /\
  field_nonempty (f_cells st) minute.
Proof.
  intros st.
  assert (H1 : minute <> pad) by discriminate.
  assert (H2 : length (cells job_zero) = JOB_CELLS) by reflexivity.
  assert (H3 : f_rc st = 0) by reflexivity.
  split; [exact H1|]. split; [exact H2|]. split; [exact H3|].
  apply (parse_field_int_accepts_nonempty (cstr "1,50-70 x") 0
           (cells job_zero) minute 0 H1 H2). exact H3.
Defined.

(** X11.  Whatever the text of the field, [crond_parse_field_int] writes only
    cells at distance [0 .. field_len] from the start of its array, and it
    only ever sets cells: the job's cells keep their number, every cell
    outside that window holds what it held before, and every cell that was
    true stays true.  So an overrun reaches exactly one cell, the first cell
    of the member declared next, and never leaves the job object. *)
Theorem parse_field_int_confined (line : list Z) (idx : nat) (c : list bool)
  (f : field) (off : Z) :
  f <> pad ->
  let st := crond_parse_field_int line idx c f off in
  length (f_cells st) = length c /\
  (forall k : nat,
     ~ (field_base f <= Z.of_nat k <= field_base f + field_len f) ->
     f_cells st !! k = c !! k) /\
  (forall k : nat, c !! k = Some true -> f_cells st !! k = Some true) /\
  field_base f + field_len f < Z.of_nat JOB_CELLS.
Proof.
  intros Hf. split; [|split; [|split]].
  - apply (parse_field_int_invariant (fun c c' => length c' = length c));
      [done|]. intros c0 c' lo hi Hc _ _ _.
    by rewrite crond_set_field_range_length.
  - intros k Hk.
    apply (parse_field_int_invariant (fun c c' => c' !! k = c !! k));
      [done|]. intros c0 c' lo hi Hc Hlo _ Hhi.
    rewrite set_range_outside; [done|lia|lia|done].
  - intros k Hk.
    apply (parse_field_int_invariant
             (fun c c' => c !! k = Some true -> c' !! k = Some true));
      [done| |done]. intros c0 c' lo hi Hc _ _ _ H.
    by apply crond_set_field_range_mono, Hc.
  - by apply field_end_in_job.
Qed.

Lemma parse_field_int_confined_witness :
  let c := cells job_zero in
  let st := crond_parse_field_int (cstr "3-99 x") 0 c hour 0 in
  hour <> pad /\
  field_get (f_cells st) hour 24 = Some true /\
  field_get (f_cells st) day 1 = field_get c day 1.
Proof.
  intros c st.
  assert (H1 : hour <> pad) by discriminate.
  destruct (parse_field_int_confined (cstr "3-99 x") 0 c hour 0 H1)
    as (_ & Hout & _ & _).
  split; [exact H1|]. split; [reflexivity|].
  apply (Hout 85%nat). simpl. lia.
Defined.

(** ** The schedules of the stored jobs *)

Section schedule_facts.

Lemma field_nonempty_mono (c c' : list bool) (f : field) :
  (forall k : nat, c !! k = Some true -> c' !! k = Some true) ->
  field_nonempty c f -> field_nonempty c' f.
Proof.
  intros Hm (i & Hi & Hg). exists i. split; [done|].
  unfold field_get in *. destruct (0 <=? field_base f + i); [|done].
  by apply Hm.
Qed.

Lemma parse_fields_accept (line : list Z) (fs : list field) :
  forall (i : nat) (c : list bool) (i' : nat) (c' : list bool),
    (forall f, f ∈ fs -> f <> pad) -> length c = JOB_CELLS ->
    parse_fields fs line i c = (true, i', c') ->
    length c' = JOB_CELLS /\
    (forall f, f ∈ fs -> field_nonempty c' f) /\
    (forall k : nat, c !! k = Some true -> c' !! k = Some true).
Proof.
  induction fs as [|f fs IH]; intros i c i' c' Hfs Hlen.
  - intros [= <- <-]. split; [done|]. split; [|done].
    intros f Hf. by apply elem_of_nil in Hf.
  - cbn [parse_fields].
    assert (Hf : f <> pad) by (apply Hfs; by left).
    pose proof (parse_field_int_accept line i c f (field_offset f) Hf Hlen)
      as [Hrc Hacc].
    pose proof (parse_field_int_invariant
                  (fun c c' => length c' = length c) line i c f
                  (field_offset f) (fun _ => eq_refl)) as Hl.
    pose proof (fun k => parse_field_int_invariant
                  (fun c c' => c !! k = Some true -> c' !! k = Some true)
                  line i c f (field_offset f) (fun _ H => H)) as Hmono.
    destruct (crond_parse_field_int line i c f (field_offset f))
      as [rc idx1 c1]. cbn [f_rc f_idx f_cells] in *.
    destruct (Z.ltb_spec rc 0) as [|Hge]; [discriminate|].
    intros Hrest.
    assert (Hl1 : length c1 = JOB_CELLS).
    { rewrite Hl; [done|]. intros c0 c0' lo hi Hc _ _ _.
      by rewrite crond_set_field_range_length. }
    assert (Hm1 : forall k : nat, c !! k = Some true -> c1 !! k = Some true).
    { intros k. apply Hmono. intros c0 c0' lo hi Hc _ _ _ H.
      by apply crond_set_field_range_mono, Hc. }
    destruct (IH idx1 c1 i' c') as (Hl' & Hne & Hm'); [|done|done|].
    { intros g Hg. apply Hfs. by right. }
    split; [done|]. split; [|by auto].
    intros g [->|Hg]%elem_of_cons; [|by apply Hne].
    apply (field_nonempty_mono c1); [done|].
    apply Hacc. destruct Hrc; lia.
Qed.

Lemma parse_special_cases (line : list Z) (i i' : nat) (c c' : list bool) :
  parse_special line i c = (true, i', c') -> exists p, c' = preset_cells p c.
Proof.
  unfold parse_special.
  destruct (strncmp_eq line (S i) Preset.STR_YEARLY
            || strncmp_eq line (S i) Preset.STR_ANNUALLY).
  { destruct (_ =? _); intros [= <- <-]; by exists yearly. }
  destruct (strncmp_eq line (S i) Preset.STR_MONTHLY).
  { intros [= <- <-]; by exists monthly. }
  destruct (strncmp_eq line (S i) Preset.STR_WEEKLY).
  { intros [= <- <-]; by exists weekly. }
  destruct (strncmp_eq line (S i) Preset.STR_DAILY
            || strncmp_eq line (S i) Preset.STR_MIDNIGHT).
  { destruct (_ =? _); intros [= <- <-]; by exists daily. }
  destruct (strncmp_eq line (S i) Preset.STR_HOURLY); [|discriminate].
  intros [= <- <-]; by exists hourly.
Qed.

Lemma preset_cells_schedule (p : preset) (f : field) :
  f ∈ time_fields ->
  length (preset_cells p (cells job_zero)) = JOB_CELLS /\
  field_nonempty (preset_cells p (cells job_zero)) f.
Proof.
  intros Hf. split; [by destruct p|].
  exists 0. split; [destruct f; unfold field_index_ok; simpl; lia|].
  unfold time_fields in Hf.
  repeat (apply elem_of_cons in Hf as [->|Hf];
          [destruct p; vm_compute; reflexivity|]).
  by apply elem_of_nil in Hf.
Qed.

Lemma time_fields_not_pad (f : field) : f ∈ time_fields -> f <> pad.
Proof.
  unfold time_fields. intros Hf ->.
  repeat (apply elem_of_cons in Hf as [?|Hf]; [discriminate|]).
  by apply elem_of_nil in Hf.
Qed.

Lemma parse_line_schedule (env : alloc_env) (h : heap) (cr : crond)
  (line : list Z) :
  store_ok cr -> Forall job_schedule_ok (job_list cr) ->
  Forall job_schedule_ok (job_list (crond_crontab_parse_line env h cr line).2).
Proof.
  intros Hok Hall.
  destruct (parse_line_outcome env h cr line)
    as [->|[->|(i0 & i1 & i & c & job & cr' & Hc & Hcmd & Happ & ->)]];
    [done|done|].
  destruct (crond_job_append_ok env cr cr' job Hok Happ) as [-> _].
  cbn [job_list]. apply Forall_app. split; [done|].
  constructor; [|done].
  pose proof (parse_command_cells env h line i (mk_job None None 0 c)) as Hcells.
  rewrite Hcmd in Hcells. cbn [snd cells] in Hcells.
  unfold job_schedule_ok. rewrite Hcells.
  destruct Hc as [Hsp|Hpf].
  - apply parse_special_cases in Hsp as [p ->].
    split; [by destruct p|]. intros f Hf. by apply preset_cells_schedule.
  - apply parse_fields_accept in Hpf as (Hl & Hne & _);
      [done|apply time_fields_not_pad|done].
Qed.

Lemma parse_lines_schedule (fe : file_env) (ls : list (list Z)) :
  forall (n : nat) (h : heap) (cr : crond),
    store_ok cr -> Forall job_schedule_ok (job_list cr) ->
    Forall job_schedule_ok (job_list (parse_lines fe n h cr ls).2).
Proof.
  induction ls as [|l ls IH]; intros n h cr Hok Hall; [done|].
  cbn [parse_lines].
  pose proof (parse_line_schedule (line_env fe n) h cr (chop_last l) Hok Hall)
    as H1.
  pose proof (parse_line_store (line_env fe n) h cr (chop_last l) Hok)
    as (Hok1 & _).
  destruct (crond_crontab_parse_line _ h cr _) as [h1 cr1].
  by apply IH.
Qed.

End schedule_facts.

(** X12.  Every job that [crond_crontab_parse_line] or
    [crond_crontab_reparse] puts in the store has a usable schedule: its
    cells are all there and each of its five time fields has at least one
    valid index set, whether the line gave five fields or a preset.  A line
    with a field that allows nothing is never stored. *)
Theorem stored_jobs_have_schedule (fe : file_env) (env : alloc_env)
  (h : heap) (cr : crond) (line : list Z) :
  store_ok cr -> Forall job_schedule_ok (job_list cr) ->
  Forall job_schedule_ok (job_list (crond_crontab_parse_line env h cr line).2)
  /\
  Forall job_schedule_ok (job_list (crond_crontab_reparse fe h cr).2).
Proof.
  intros Hok Hall. split; [by apply parse_line_schedule|].
  unfold crond_crontab_reparse.
  pose proof (has_changed_store (stat_res fe) cr) as [Hjl Hnj].
  destruct (crond_crontab_has_changed (stat_res fe) cr) as [cra changed].
  cbn [fst] in Hjl, Hnj.
  destruct changed; [|cbn [snd]; by rewrite Hjl].
  cbn [crond_job_list_free].
  destruct (fopen_res fe) as [content|]; [|by cbn].
  pose proof (parse_lines_schedule fe (getlines [] content) 0%nat
    (foldl crond_job_free h (take (Z.to_nat (num_jobs cra)) (job_list cra)))
    (mk_crond (status_code cra) (mtime_crontab cra) [] 0)) as Hp.
  destruct (parse_lines fe 0 _ _ _) as [h1 cr1]. cbn [snd] in Hp.
  destruct (ferror_set fe); [by cbn|].
  destruct (fclose_ok fe); [|by cbn].
  cbn [snd]. apply Hp; [|by cbn].
  split; [reflexivity|]. unfold SIZE_MAX. simpl. lia.
Qed.

Lemma stored_jobs_have_schedule_witness :
  let fe := mk_file_env (StatOk (mk_timespec 5 7))
              (Some (cstr "@weekly /bin/w")) false true (fun _ => env_ok) in
  store_ok crond_zero /\
  Forall job_schedule_ok (job_list (crond_crontab_reparse fe ∅ crond_zero).2) /\
  length (job_list (crond_crontab_reparse fe ∅ crond_zero).2) = 1%nat.
Proof.
  intros fe.
  assert (H0 : store_ok crond_zero).
  { split; [reflexivity|]. unfold SIZE_MAX. simpl. lia. }
  split; [exact H0|]. split; [|reflexivity].
  apply (stored_jobs_have_schedule fe env_ok ∅ crond_zero [] H0).
  constructor.
Defined.

(** ** When the stored jobs run *)

Section due_facts.

(** The condition of the matcher as a conjunction, when the five cells it
    may read are inside the job. *)
Lemma should_run_bits (t : tm) (job : crond_job) (bw bmo bd bh bm : bool) :
  field_get (cells job) weekday (tm_wday t) = Some bw ->
  field_get (cells job) month (tm_mon t - 1) = Some bmo ->
  field_get (cells job) day (tm_mday t - 1) = Some bd ->
  field_get (cells job) hour (tm_hour t) = Some bh ->
  field_get (cells job) minute (tm_min t) = Some bm ->
  crond_job_should_run t job = Some (bw && bmo && bd && bh && bm).
Proof.
  intros Hw Hmo Hd Hh Hm.
  unfold crond_job_should_run, should_run_lookups, and_lookup.
  rewrite Hw. destruct bw; [|done]. rewrite Hmo. destruct bmo; [|done].
  rewrite Hd. destruct bd; [|done]. rewrite Hh. destruct bh; [|done].
  by rewrite Hm.
Qed.

Lemma field_get_table (c : list bool) (f : field) (lo n : Z)
  (P : Z -> bool) :
  forallb (fun i => bool_decide (field_get c f i = Some (P i))) (seqZ lo n)
  = true ->
  forall i, lo <= i < lo + n -> field_get c f i = Some (P i).
Proof.
  intros Hall i Hi. rewrite forallb_forall in Hall.
  specialize (Hall i). rewrite bool_decide_eq_true in Hall. apply Hall.
  apply list_elem_of_In, elem_of_seqZ. lia.
Qed.

Lemma preset_cells_bits (p : preset) (f : field) (lo n i : Z) :
  forallb (fun i => bool_decide
             (field_get (preset_cells p (cells job_zero)) f i
              = Some (preset_bit p f i))) (seqZ lo n) = true ->
  lo <= i < lo + n ->
  field_get (preset_cells p (cells job_zero)) f i = Some (preset_bit p f i).
Proof. intros Hall. by apply (field_get_table _ f lo n (preset_bit p f)). Qed.

Lemma preset_cells_due (p : preset) (t : tm) (job : crond_job) :
  tm_valid t -> cells job = preset_cells p (cells job_zero) ->
  crond_job_should_run t job = Some (preset_due p t).
Proof.
  intros (Hs & Hm & Hh & Hd & Hmo & Hw) Hc.
  assert (Hrun : crond_job_should_run t job
    = Some (preset_bit p weekday (tm_wday t)
            && preset_bit p month (tm_mon t - 1)
            && preset_bit p day (tm_mday t - 1)
            && preset_bit p hour (tm_hour t)
            && preset_bit p minute (tm_min t))).
  { apply should_run_bits; rewrite Hc.
    - apply (preset_cells_bits p weekday 0 7);
        [destruct p; vm_compute; reflexivity|lia].
    - apply (preset_cells_bits p month (-1) 12);
        [destruct p; vm_compute; reflexivity|lia].
    - apply (preset_cells_bits p day 0 31);
        [destruct p; vm_compute; reflexivity|lia].
    - apply (preset_cells_bits p hour 0 24);
        [destruct p; vm_compute; reflexivity|lia].
    - apply (preset_cells_bits p minute 0 60);
        [destruct p; vm_compute; reflexivity|lia]. }
  rewrite Hrun. f_equal.
  destruct p; unfold preset_bit, preset_due; cbn [andb];
    repeat match goal with
           | |- context [?a =? ?b] => destruct (Z.eqb_spec a b)
           end; cbn [andb negb]; try reflexivity; lia.
Qed.

Lemma finish_line_jobs (env : alloc_env) (h : heap) (cr : crond)
  (c : list bool) (cmd : list Z) (job : crond_job) :
  store_ok cr ->
  job ∈ job_list (finish_line env h cr c cmd).2 ->
  job ∈ job_list cr \/ (cells job = c /\ command job <> None).
Proof.
  intros Hok. unfold finish_line.
  pose proof (parse_command_cells env h
                (Ch.SPACE :: drop (count_blank cmd) cmd) 1
                (mk_job None None 0 c)) as Hcells.
  destruct (crond_crontab_parse_command env h _ 1 _)
    as [[parsed h'] job'] eqn:Hcmd.
  cbn [snd cells] in Hcells.
  destruct parsed; [|by left].
  destruct (crond_job_append env cr job') as [cr' appended] eqn:Happ.
  destruct appended.
  - destruct (crond_job_append_ok env cr cr' job' Hok Happ) as [-> _].
    cbn [snd job_list]. intros [Hin|Hin]%elem_of_app; [by left|].
    apply list_elem_of_singleton in Hin as ->. right. split; [done|].
    apply parse_command_alloc in Hcmd as (b1 & v1 & _ & -> & _). done.
  - destruct (crond_job_append_cases env cr job') as [Hf|(_ & _ & _ & Hs)];
      [|congruence].
    rewrite Hf in Happ. injection Happ as <-. by left.
Qed.

Lemma parse_line_fields_finish (env : alloc_env) (h : heap) (cr : crond)
  (x : Z) (pre cmd : list Z) (c : list bool) :
  isblank x = false -> x <> Ch.NUL -> x <> Ch.HASH -> x <> Ch.AT ->
  parse_fields time_fields ((x :: pre) ++ Ch.SPACE :: cmd) 0 (cells job_zero)
  = (true, (length (x :: pre) + S (count_blank cmd))%nat, c) ->
  crond_crontab_parse_line env h cr ((x :: pre) ++ Ch.SPACE :: cmd)
  = finish_line env h cr c cmd.
Proof.
  intros Hx Hnul Hhash Hat Hpf. unfold crond_crontab_parse_line.
  set (line := (x :: pre) ++ Ch.SPACE :: cmd) in *.
  assert (Hb : crond_crontab_parse_blank line 0 = (O, O)).
  { unfold crond_crontab_parse_blank, line. cbn. by rewrite Hx. }
  assert (H0 : line_at line 0 = x) by reflexivity.
  rewrite Hb, H0.
  destruct (Z.eqb_spec x Ch.NUL) as [|_]; [done|].
  destruct (Z.eqb_spec x Ch.HASH) as [|_]; [done|].
  destruct (Z.eqb_spec x Ch.AT) as [|_]; [done|].
  cbn [negb andb]. rewrite Hpf.
  assert (Hb2 : crond_crontab_parse_blank line
                  (length (x :: pre) + S (count_blank cmd))
                = (O, (length (x :: pre) + S (count_blank cmd))%nat)).
  { unfold crond_crontab_parse_blank, line.
    rewrite <- drop_drop, drop_app_length.
    change (drop (S (count_blank cmd)) (Ch.SPACE :: cmd))
      with (drop (count_blank cmd) cmd).
    by rewrite count_blank_drop, Nat.add_0_r. }
  rewrite Hb2. unfold line.
  rewrite parse_command_after_blanks.
  reflexivity.
Qed.

End due_facts.

(** X13.  When the jobs of the preset lines run.  A job that
    [crond_crontab_parse_line] stores from the line made of ['@'], a preset
    token, a space and a command is run by [crond_job_should_run], at a
    valid local time, exactly as follows: [@hourly] when the minute is 0;
    [@daily] and [@midnight] when also the hour is 0; [@weekly] when also
    [tm_wday] is 0; [@monthly] when minute and hour are 0, the day of the
    month is 1 and [tm_mon] is not 0; [@yearly] and [@annually] when minute
    and hour are 0, the day of the month is 1 and [tm_mon] is 1. *)
Theorem preset_job_due (env : alloc_env) (h : heap) (cr : crond)
  (p : preset) (cmd : list Z) (t : tm) (job : crond_job) :
  store_ok cr -> tm_valid t ->
  job ∈ job_list (crond_crontab_parse_line env h cr
                    (Ch.AT :: preset_token p ++ Ch.SPACE :: cmd)).2 ->
  job ∈ job_list cr \/ crond_job_should_run t job = Some (preset_due p t).
Proof.
  intros Hok Ht. rewrite parse_line_preset. intros Hin.
  apply finish_line_jobs in Hin as [Hin|[Hc _]]; [by left| |done].
  right. by apply preset_cells_due.
Qed.

Lemma preset_job_due_witness :
  let r := crond_crontab_parse_line env_ok ∅ crond_zero
             (cstr "@yearly /bin/y") in
  store_ok crond_zero /\ tm_valid (mk_tm 0 0 0 1 1 4) /\
  exists job, job_list r.2 = [job] /\
    crond_job_should_run (mk_tm 0 0 0 1 1 4) job = Some true /\
    crond_job_should_run (mk_tm 0 0 0 1 0 4) job = Some false.
Proof.
  intros r.
  assert (H0 : store_ok crond_zero).
  { split; [reflexivity|]. unfold SIZE_MAX. simpl. lia. }
  assert (H1 : tm_valid (mk_tm 0 0 0 1 1 4)) by (unfold tm_valid; simpl; lia).
  split; [exact H0|]. split; [exact H1|].
  eexists. split; [vm_compute; reflexivity|].
  split; [|vm_compute; reflexivity].
  match goal with |- crond_job_should_run _ ?j = _ =>
    destruct (preset_job_due env_ok ∅ crond_zero yearly (cstr "/bin/y")
                (mk_tm 0 0 0 1 1 4) j H0 H1) as [Hin|Hrun] end.
  - vm_compute. left.
  - by apply elem_of_nil in Hin.
  - exact Hrun.
Defined.

Section all_star_facts.

Lemma parse_fields_all_star (cmd : list Z) :
  parse_fields time_fields (STR_ALL_STAR ++ Ch.SPACE :: cmd) 0
               (cells job_zero)
  = (true, (length STR_ALL_STAR + S (count_blank cmd))%nat,
     replicate 135 true ++ [false]).
Proof. vm_compute. reflexivity. Qed.

Lemma all_star_cells_due (t : tm) (job : crond_job) :
  tm_valid t -> cells job = replicate 135 true ++ [false] ->
  crond_job_should_run t job = Some true.
Proof.
  intros (Hs & Hm & Hh & Hd & Hmo & Hw) Hc.
  change (Some true) with (Some (true && true && true && true && true)).
  apply should_run_bits; rewrite Hc.
  - apply (field_get_table _ weekday 0 7 (fun _ => true));
      [vm_compute; reflexivity|lia].
  - apply (field_get_table _ month (-1) 12 (fun _ => true));
      [vm_compute; reflexivity|lia].
  - apply (field_get_table _ day 0 31 (fun _ => true));
      [vm_compute; reflexivity|lia].
  - apply (field_get_table _ hour 0 24 (fun _ => true));
      [vm_compute; reflexivity|lia].
  - apply (field_get_table _ minute 0 60 (fun _ => true));
      [vm_compute; reflexivity|lia].
Qed.

End all_star_facts.

(** X14.  A job stored from a line whose five fields are all ['*'] is run at
    every valid local time, January included: there the matcher reads the
    month array at index -1, which is the last cell of the day array, and
    the star of the day field has set it. *)
Theorem all_star_job_always_due (env : alloc_env) (h : heap) (cr : crond)
  (cmd : list Z) (t : tm) (job : crond_job) :
  store_ok cr -> tm_valid t ->
  job ∈ job_list (crond_crontab_parse_line env h cr
                    (STR_ALL_STAR ++ Ch.SPACE :: cmd)).2 ->
  job ∈ job_list cr \/ crond_job_should_run t job = Some true.
Proof.
  intros Hok Ht.
  change (STR_ALL_STAR ++ Ch.SPACE :: cmd)
    with ((Ch.STAR :: drop 1 STR_ALL_STAR) ++ Ch.SPACE :: cmd).
  rewrite (parse_line_fields_finish env h cr Ch.STAR
             (drop 1 STR_ALL_STAR) cmd (replicate 135 true ++ [false]));
    [|done..|apply parse_fields_all_star].
  intros Hin.
  apply finish_line_jobs in Hin as [Hin|[Hc _]]; [by left| |done].
  right. by apply all_star_cells_due.
Qed.

Lemma all_star_job_always_due_witness :
  let r := crond_crontab_parse_line env_ok ∅ crond_zero
             (cstr "* * * * * /bin/true") in
  store_ok crond_zero /\ tm_valid (mk_tm 59 30 12 31 0 3) /\
  exists job, job_list r.2 = [job] /\
    crond_job_should_run (mk_tm 59 30 12 31 0 3) job = Some true.
Proof.
  intros r.
  assert (H0 : store_ok crond_zero).
  { split; [reflexivity|]. unfold SIZE_MAX. simpl. lia. }
  assert (H1 : tm_valid (mk_tm 59 30 12 31 0 3))
    by (unfold tm_valid; simpl; lia).
  split; [exact H0|]. split; [exact H1|].
  eexists. split; [vm_compute; reflexivity|].
  match goal with |- crond_job_should_run _ ?j = _ =>
    destruct (all_star_job_always_due env_ok ∅ crond_zero
                (cstr "/bin/true") (mk_tm 59 30 12 31 0 3) j H0 H1)
      as [Hin|Hrun] end.
  - vm_compute. left.
  - by apply elem_of_nil in Hin.
  - exact Hrun.
Defined.

(** ** The stored payload, for any line *)

Lemma c_string_no_nul (s : list Z) : Ch.NUL ∉ take (c_strlen s) s.
Proof.
  induction s as [|ch s IH]; cbn [c_strlen]; [by intros ?%elem_of_nil|].
  destruct (Z.eqb_spec ch Ch.NUL) as [|Hne]; [by intros ?%elem_of_nil|].
  cbn [take]. intros [?|?]%elem_of_cons; [congruence|done].
Qed.

Lemma stdin_unescape_length (n : nat) :
  forall s : list Z,
    (length s <= n)%nat -> (length (stdin_unescape s) <= length s)%nat.
Proof.
  induction n as [|n IH]; intros [|ch s'] Hn; cbn [length] in *;
    [done|lia|done|].
  cbn [stdin_unescape]. destruct (ch =? Ch.BACKSLASH).
  - destruct s' as [|nx s'']; [done|]. cbn [length] in *.
    specialize (IH s''). lia.
  - destruct (ch =? Ch.PERCENT); cbn [length]; specialize (IH s'); lia.
Qed.

(** X15.  Whatever the line, when [crond_crontab_parse_command] succeeds on
    a job that holds no payload, the job afterwards either has no payload
    and a zero payload length, or points to a live buffer of which the
    payload length covers a non-empty prefix: that prefix is the unescaped
    text of a NUL-free string followed by one newline, it is not longer than
    that string plus one, and its last byte is the newline.  So the length
    later handed to the writer never reaches past the buffer. *)
Theorem payload_within_buffer (env : alloc_env) (h : heap) (line : list Z)
  (idx : nat) (job : crond_job) :
  stdin_lines job = None ->
  let r := crond_crontab_parse_command env h line idx job in
  r.1.1 = true ->
  (stdin_lines r.2 = None /\ stdin_lines_len r.2 = 0) \/
  exists b buf rest,
    stdin_lines r.2 = Some b /\ r.1.2 !! b = Some buf /\
    1 <= stdin_lines_len r.2 <= Z.of_nat (length buf) /\
    stdin_lines_len r.2 <= Z.of_nat (length rest) + 1 /\
    (Ch.NUL ∉ rest) /\
    job_payload r.1.2 r.2 = Some (stdin_unescape rest ++ [Ch.LF]) /\
    line_at buf (Z.to_nat (stdin_lines_len r.2 - 1)) = Ch.LF.
Proof.
  intros Hsl r. subst r. unfold crond_crontab_parse_command.
  destruct (find_stdin_start (S (length line)) line idx) as [i start].
  unfold c_strndup, c_strdup. cbn [command stdin_lines cells]. rewrite Hsl.
  destruct (strndup_ok env); [|discriminate].
  match goal with |- context [heap_alloc h ?v] =>
    destruct (heap_alloc_spec h v) as (b1 & Hb1 & ->) end.
  destruct start as [start|]; [|by left].
  destruct (strdup_ok env); [|discriminate].
  match goal with |- context [heap_alloc ?h1 ?v] =>
    destruct (heap_alloc_spec h1 v) as (b2 & Hb2 & ->) end.
  rewrite lookup_insert_eq. cbn [from_option]. unfold id.
  set (rest := take (c_strlen (drop start line)) (drop start line)).
  destruct (stdin_lines_loop_spec (length (rest ++ [Ch.NUL]))
              (rest ++ [Ch.NUL]) 0 0 rest)
    as (buf' & i' & -> & Htake & Hin);
    [lia|done|apply c_string_no_nul|rewrite length_app; lia|].
  intros _. right. exists b2, (<[i' := Ch.LF]> buf'), rest.
  cbn [fst snd stdin_lines stdin_lines_len].
  assert (Hpay : take (S i') (<[i' := Ch.LF]> buf')
                 = stdin_unescape rest ++ [Ch.LF]).
  { rewrite take_S_insert by done. by rewrite Htake. }
  assert (Hi : (i' <= length rest)%nat).
  { apply (f_equal length) in Htake. rewrite length_take in Htake.
    cbn [take app] in Htake.
    assert (Hb : (i' < length (stdin_unescape rest ++ [Ch.LF]))%nat).
    { rewrite <- Hpay, length_take, length_insert. lia. }
    rewrite length_app in Hb. cbn in Hb.
    pose proof (stdin_unescape_length (length rest) rest). lia. }
  split; [done|]. split; [by rewrite lookup_insert_eq|].
  rewrite length_insert. split; [lia|]. split; [lia|].
  split; [apply c_string_no_nul|]. split.
  - unfold job_payload, deref.
    cbn [stdin_lines stdin_lines_len mbind option_bind].
    rewrite lookup_insert_eq. cbn [fmap option_fmap option_map].
    f_equal. replace (Z.to_nat (Z.of_nat i' + 1)) with (S i') by lia.
    exact Hpay.
  - replace (Z.to_nat (Z.of_nat i' + 1 - 1)) with i' by lia.
    by apply line_at_insert_eq.
Qed.

Lemma payload_within_buffer_witness :
  let r := crond_crontab_parse_command env_ok ∅
             (cstr "0 0 1 1 * /bin/esc%a\%b") 10 job_zero in
  stdin_lines job_zero = None /\ r.1.1 = true /\
  stdin_lines_len r.2 = 4 /\
  job_payload r.1.2 r.2 = Some (cstr "a%b" ++ [Ch.LF]).
Proof.
  intros r.
  assert (H0 : stdin_lines job_zero = None) by reflexivity.
  assert (H1 : r.1.1 = true) by reflexivity.
  split; [exact H0|]. split; [exact H1|]. split; [reflexivity|].
  destruct (payload_within_buffer env_ok ∅
              (cstr "0 0 1 1 * /bin/esc%a\%b") 10 job_zero H0 H1)
    as [[Hn _]|(b & buf & rest & _ & _ & _ & _ & _ & _ & _)].
  - vm_compute in Hn. discriminate Hn.
  - vm_compute. reflexivity.
Defined.

(** ** Lists of numbers and ranges *)

Section item_list_facts.

Context (f : field) (Hf : f <> pad).

Lemma size_wrap_index (v : Z) : field_index_ok f v -> size_wrap v = v.
Proof.
  unfold field_index_ok, size_wrap. intros Hv. apply Z.mod_small.
  destruct f; simpl in Hv; lia.
Qed.

Lemma index_below_size_max (v : Z) : field_index_ok f v -> v <> SIZE_MAX.
Proof.
  unfold field_index_ok, SIZE_MAX. intros Hv.
  destruct f; simpl in Hv; lia.
Qed.

Lemma field_item_single (line : list Z) (idx : nat) (ds rest : list Z)
  (off rc : Z) (c : list bool) :
  drop idx line = ds ++ rest -> is_digits ds ->
  isdigit (line_at rest 0) = false -> line_at rest 0 <> Ch.MINUS ->
  crond_field_item line f off (mk_fstate rc idx c) =
  let '(rc', c') :=
    crond_field_apply f (size_wrap (digits_value ds - off)) SIZE_MAX rc c in
  if line_at rest 0 =? Ch.COMMA
  then (mk_fstate rc' (S (idx + length ds)) c', true)
  else (mk_fstate rc' (idx + length ds) c', false).
Proof.
  intros Hdrop Hds Hrest Hminus. unfold crond_field_item.
  cbn [f_idx f_rc f_cells].
  destruct (read_digits_text line idx ds rest Hdrop Hds (fun _ => Hrest))
    as (buf1 & -> & Hv1).
  assert (Hla : (length ds =? 0)%nat = false)
    by (destruct Hds as [? _]; apply Nat.eqb_neq; lia).
  rewrite Hla.
  pose proof (drop_text _ _ _ _ Hdrop) as Hd1.
  rewrite (line_at_text _ _ _ Hd1).
  destruct (Z.eqb_spec (line_at rest 0) Ch.MINUS) as [|_]; [done|].
  by rewrite Hv1, (line_at_text _ _ _ Hd1).
Qed.

Lemma field_apply_item (it : item) (rc : Z) (c : list bool) :
  item_ok f it ->
  crond_field_apply f
    (size_wrap (match it with
                | ItemSingle ds | ItemRange ds _ =>
                  digits_value ds - field_offset f
                end))
    (match it with
     | ItemSingle _ => SIZE_MAX
     | ItemRange _ db => size_wrap (digits_value db - field_offset f)
     end) rc c
  = (rc, crond_set_field_range c (field_base f)
           (item_bounds (field_offset f) it).1
           (item_bounds (field_offset f) it).2).
Proof.
  unfold crond_field_apply.
  destruct it as [ds|da db]; cbn [item_ok item_bounds fst snd].
  - intros [_ Hv]. rewrite (size_wrap_index _ Hv).
    unfold field_index_ok in Hv.
    destruct (Z.leb_spec (field_len f) (digits_value ds - field_offset f));
      [lia|].
    by rewrite Z.eqb_refl.
  - intros (_ & _ & Ha & Hb).
    rewrite (size_wrap_index _ Ha), (size_wrap_index _ Hb).
    pose proof (index_below_size_max _ Hb) as Hne.
    unfold field_index_ok in Ha, Hb.
    set (a := digits_value da - field_offset f) in *.
    set (b := digits_value db - field_offset f) in *.
    destruct (Z.leb_spec (field_len f) a); [lia|].
    destruct (Z.eqb_spec b SIZE_MAX); [done|].
    destruct (Z.ltb_spec b a).
    + destruct (Z.leb_spec (field_len f) a); [lia|].
      by rewrite Z.min_r, Z.max_l by lia.
    + destruct (Z.leb_spec (field_len f) b); [lia|].
      by rewrite Z.min_l, Z.max_r by lia.
Qed.

(** One iteration of the loop on the text of a valid item that a comma or a
    space follows. *)
Lemma field_item_on_text (line : list Z) (idx : nat) (it : item)
  (x : Z) (rest : list Z) (rc : Z) (c : list bool) :
  item_ok f it -> drop idx line = item_text it ++ x :: rest ->
  x = Ch.COMMA \/ x = Ch.SPACE ->
  crond_field_item line f (field_offset f) (mk_fstate rc idx c) =
  let c' := crond_set_field_range c (field_base f)
              (item_bounds (field_offset f) it).1
              (item_bounds (field_offset f) it).2 in
  if x =? Ch.COMMA
  then (mk_fstate rc (S (idx + length (item_text it))) c', true)
  else (mk_fstate rc (idx + length (item_text it)) c', false).
Proof.
  intros Hok Hdrop Hx.
  assert (Hnd : isdigit x = false) by (by destruct Hx as [-> | ->]).
  assert (Hnm : x <> Ch.MINUS) by (by destruct Hx as [-> | ->]).
  pose proof (field_apply_item it rc c Hok) as Happ.
  destruct it as [ds|da db]; cbn [item_text item_ok] in *.
  - destruct Hok as [Hds _].
    rewrite (field_item_single line idx ds (x :: rest)) by done.
    rewrite Happ. reflexivity.
  - destruct Hok as (Hda & Hdb & _).
    rewrite (field_item_range line idx da db (x :: rest));
      [|by rewrite Hdrop, <- app_assoc|done|done|done].
    rewrite Happ. cbn [line_at nth]. rewrite length_app. cbn [length].
    replace (idx + length da + 1 + length db)%nat
      with (idx + (length da + S (length db)))%nat by lia.
    reflexivity.
Qed.

Lemma item_text_nonempty (it : item) :
  item_ok f it -> (0 < length (item_text it))%nat.
Proof.
  destruct it as [ds|da db]; cbn [item_ok item_text].
  - intros [[Hl _] _]. lia.
  - intros ([Hl _] & _). rewrite length_app. lia.
Qed.

Lemma items_text_cons (it it2 : item) (its : list item) :
  items_text (it :: it2 :: its)
  = item_text it ++ Ch.COMMA :: items_text (it2 :: its).
Proof. reflexivity. Qed.

(** The loop on the text of a list of valid items that a space follows. *)
Lemma field_items_on_text (line rest : list Z) (its : list item) :
  its <> [] -> Forall (item_ok f) its ->
  forall (fuel idx : nat) (c : list bool),
    (length line - idx < fuel)%nat ->
    drop idx line = items_text its ++ Ch.SPACE :: rest ->
    crond_field_items fuel line f (field_offset f) (mk_fstate 0 idx c)
    = mk_fstate 0 (idx + length (items_text its))
        (foldl (fun c it =>
                  crond_set_field_range c (field_base f)
                    (item_bounds (field_offset f) it).1
                    (item_bounds (field_offset f) it).2) c its).
Proof.
  induction its as [|it its IH]; [done|]. intros _ Hall.
  apply Forall_cons in Hall as [Hit Hall].
  intros fuel idx c Hfuel Hdrop.
  destruct fuel as [|fuel]; [lia|]. rewrite crond_field_items_S.
  destruct its as [|it2 its].
  - cbn [items_text] in *.
    rewrite (field_item_on_text line idx it Ch.SPACE rest 0 c Hit Hdrop)
      by (by right).
    reflexivity.
  - rewrite items_text_cons in *. rewrite <- app_assoc in Hdrop.
    cbn [app] in Hdrop.
    rewrite (field_item_on_text line idx it Ch.COMMA _ 0 c Hit Hdrop)
      by (by left).
    cbv zeta. rewrite Z.eqb_refl.
    pose proof (item_text_nonempty it Hit) as Hlen.
    pose proof (drop_text _ _ _ _ Hdrop) as Hd1.
    destruct (drop_head _ _ _ _ Hd1) as [_ Hd2].
    assert (Hlt : (idx < length line)%nat).
    { destruct (decide (idx < length line)%nat) as [|Hge]; [done|].
      rewrite drop_ge in Hdrop by lia.
      by destruct (item_text it). }
    rewrite IH; [|done|done|lia|].
    + cbn [foldl f_idx]. rewrite length_app. cbn [length].
      f_equal. lia.
    + rewrite <- Hd2. f_equal. 
Qed.

Lemma foldl_item_fill_lookup (its : list item) (k : nat) :
  Forall (item_ok f) its ->
  forall c : list bool,
    foldl (fun c it =>
             crond_set_field_range c (field_base f)
               (item_bounds (field_offset f) it).1
               (item_bounds (field_offset f) it).2) c its !! k
    = if bool_decide (Exists (item_covers f k) its)
      then (fun _ => true) <$> c !! k else c !! k.
Proof.
  induction its as [|it its IH]; intros Hall c.
  - cbn [foldl]. rewrite bool_decide_eq_false_2; [done|].
    by intros ?%Exists_nil.
  - apply Forall_cons in Hall as [Hit Hall]. cbn [foldl].
    rewrite (IH Hall).
    assert (Hlo : 0 <= field_base f + (item_bounds (field_offset f) it).1).
    { destruct (field_base_nonneg f) as [Hb _].
      destruct it as [ds|da db]; cbn [item_ok item_bounds fst] in *;
        unfold field_index_ok in *; lia. }
    rewrite crond_set_field_range_lookup by exact Hlo.
    fold (item_covers f k it).
    destruct (decide (item_covers f k it)) as [Hc|Hc];
      destruct (decide (Exists (item_covers f k) its)) as [He|He].
    + rewrite !bool_decide_eq_true_2; [|by left|done|done].
      by destruct (c !! k).
    + rewrite (bool_decide_eq_false_2 _ He), (bool_decide_eq_true_2 _ Hc).
      rewrite bool_decide_eq_true_2; [done|by left].
    + rewrite (bool_decide_eq_true_2 _ He), (bool_decide_eq_false_2 _ Hc).
      rewrite bool_decide_eq_true_2; [done|by right].
    + rewrite (bool_decide_eq_false_2 _ He), (bool_decide_eq_false_2 _ Hc).
      rewrite bool_decide_eq_false_2; [done|].
      by intros [?|?]%Exists_cons.
Qed.

End item_list_facts.

(** X16.  The text of a time field made of numbers and ranges separated by
    commas and followed by a space, every number a valid index of the field
    once the offset is taken off, is accepted; the index moves past the
    text, the space and the blanks after it; and the cells of the job
    afterwards are the cells before with exactly the positions that some
    item names set to true (a range names the indices between its two
    numbers, in whichever order they are written).  No cell outside the
    array is written. *)
Theorem parse_field_int_list (line rest : list Z) (idx : nat)
  (its : list item) (f : field) (c : list bool) :
  f <> pad -> its <> [] -> Forall (item_ok f) its ->
  drop idx line = items_text its ++ Ch.SPACE :: rest ->
  let st := crond_parse_field_int line idx c f (field_offset f) in
  f_rc st = 0 /\
  f_idx st = (idx + length (items_text its) + S (count_blank rest))%nat /\
  (forall k : nat,
     f_cells st !! k
     = if bool_decide (Exists (item_covers f k) its)
       then (fun _ => true) <$> c !! k else c !! k) /\
  (forall k : nat, Exists (item_covers f k) its ->
     field_index_ok f (Z.of_nat k - field_base f)).
Proof.
  intros Hf Hne Hall Hdrop.
  assert (Hdig : isdigit (line_at line idx) = true).
  { destruct its as [|it its]; [done|].
    apply Forall_cons in Hall as [Hit _].
    assert (Hhd : exists d tl, isdigit d = true /\ item_text it = d :: tl).
    { destruct it as [ds|da db]; cbn [item_ok item_text] in *.
      - destruct Hit as [[Hl Hd] _]. destruct ds as [|d tl]; [simpl in Hl; lia|].
        apply Forall_cons in Hd as [Hd _]. by exists d, tl.
      - destruct Hit as ([Hl Hd] & _).
        destruct da as [|d tl]; [simpl in Hl; lia|].
        apply Forall_cons in Hd as [Hd _]. by eexists d, _. }
    destruct Hhd as (d & tl & Hd & Htl).
    assert (Hx : exists tl', drop idx line = d :: tl').
    { rewrite Hdrop. destruct its; cbn [items_text]; rewrite Htl;
        by eexists. }
    destruct Hx as [tl' Hx].
    by destruct (drop_head _ _ _ _ Hx) as [-> _]. }
  rewrite parse_field_int_digit by exact Hdig. cbv zeta.
  rewrite (field_items_on_text f Hf line rest its Hne Hall) by (done || lia).
  cbn [f_idx f_rc f_cells]. unfold crond_crontab_parse_blank.
  rewrite (drop_text _ _ _ _ Hdrop).
  change (count_blank (Ch.SPACE :: rest)) with (S (count_blank rest)).
  cbn [Nat.eqb f_rc f_idx f_cells].
  split; [done|]. split; [done|]. split.
  - intros k. by apply foldl_item_fill_lookup.
  - intros k Hex. apply Exists_exists in Hex as (it & Hin & Hcov).
    rewrite Forall_forall in Hall. specialize (Hall it Hin).
    unfold item_covers in Hcov.
    destruct it as [ds|da db]; cbn [item_ok item_bounds fst snd] in *;
      unfold field_index_ok in *; lia.
Qed.

Lemma parse_field_int_list_witness :
  let its := [ItemSingle [49]; ItemRange [55] [53]; ItemSingle [51; 48]] in
  let line := cstr "1,7-5,30 x" in
  let st := crond_parse_field_int line 0 (cells job_zero) minute 0 in
  minute <> pad /\ Forall (item_ok minute) its /\
  drop 0 line = items_text its ++ Ch.SPACE :: cstr "x" /\
  f_rc st = 0 /\ field_bits (f_cells st) minute = [1; 5; 6; 7; 30].
Proof.
  intros its line st.
  assert (H1 : minute <> pad) by discriminate.
  assert (H2 : its <> []) by discriminate.
  assert (H3 : Forall (item_ok minute) its).
  { repeat constructor; vm_compute; congruence. }
  assert (H4 : drop 0 line = items_text its ++ Ch.SPACE :: cstr "x")
    by reflexivity.
  split; [exact H1|]. split; [exact H3|]. split; [exact H4|].
  split; [|vm_compute; reflexivity].
  apply (parse_field_int_list line (cstr "x") 0 its minute (cells job_zero)
           H1 H2 H3 H4).
Defined.

(** ** The pipe to the child *)

Section fd_write_facts.

Context (data : list Z) (datasz : Z).
Context (Hmax : datasz <= SIZE_MAX).

Lemma fd_write_loop_spec (ws : list write_result) :
  forall (btw : Z) (st : fd_write_state),
    0 <= btw <= datasz ->
    fw_sent st = take (Z.to_nat (datasz - btw)) data ->
    Forall (call_ok datasz) (fw_calls st) ->
    let r := fd_write_loop ws data datasz btw st in
    (exists btw', 0 <= btw' <= btw /\
       fw_sent r.2 = take (Z.to_nat (datasz - btw')) data /\
       (r.1 = Returned -> btw' = 0)) /\
    Forall (call_ok datasz) (fw_calls r.2) /\
    (r.1 = Exited -> exists errno, WriteErr errno ∈ ws /\ errno <> EINTR) /\
    (btw = 0 -> fw_calls r.2 = fw_calls st).
Proof.
  induction ws as [|w ws IH]; intros btw st Hb Hsent Hcalls r; subst r.
  - cbn [fd_write_loop]. destruct (Z.eqb_spec btw 0) as [->|Hne]; cbn [fst snd].
    + split; [exists 0; by rewrite Hsent|]. by repeat split.
    + split; [exists btw; repeat split; [lia|lia|done|done]|].
      by repeat split.
  - cbn [fd_write_loop]. destruct (Z.eqb_spec btw 0) as [->|Hne]; cbn [fst snd].
    { split; [exists 0; by rewrite Hsent|]. by repeat split. }
    assert (Hoff : size_wrap (datasz - btw) = datasz - btw).
    { unfold size_wrap. apply Z.mod_small. unfold SIZE_MAX in Hmax. lia. }
    rewrite Hoff.
    assert (Hcalls' : Forall (call_ok datasz) (fw_calls st ++ [(datasz - btw, btw)])).
    { apply Forall_app. split; [done|]. constructor; [|done].
      unfold call_ok. cbn [fst snd]. lia. }
    destruct w as [errno|room].
    + destruct (Z.eqb_spec errno EINTR) as [->|Herr].
      * destruct (IH btw (mk_fd_write (fw_calls st ++ [(datasz - btw, btw)])
                                      (fw_sent st)) Hb Hsent Hcalls')
          as (Hs & Hc & Hex & _).
        split; [exact Hs|]. split; [exact Hc|]. split; [|lia].
        intros Hx. destruct (Hex Hx) as (e & Hin & He).
        exists e. split; [by right|done].
      * cbn [fst snd fw_sent fw_calls]. split.
        { exists btw. repeat split; [lia|lia|done|done]. }
        split; [done|]. split; [|lia].
        intros _. exists errno. split; [by left|done].
    + cbn [fw_calls fw_sent].
      set (n := Z.min (Z.of_nat room) btw).
      assert (Hn : 0 <= n <= btw) by lia.
      assert (Hw : size_wrap (btw - n) = btw - n).
      { unfold size_wrap. apply Z.mod_small. unfold SIZE_MAX in Hmax. lia. }
      rewrite Hw.
      destruct (IH (btw - n)
                  (mk_fd_write (fw_calls st ++ [(datasz - btw, btw)])
                     (fw_sent st ++ take (Z.to_nat n)
                                      (drop (Z.to_nat (datasz - btw)) data))))
        as ((btw' & Hb' & Hs' & Hr') & Hc & Hex & _).
      * lia.
      * cbn [fw_sent]. rewrite Hsent, take_take_drop. f_equal. lia.
      * exact Hcalls'.
      * split; [exists btw'; repeat split; [lia|lia|done|done]|].
        split; [exact Hc|]. split; [|lia].
        intros Hx. destruct (Hex Hx) as (e & Hin & He).
        exists e. split; [by right|done].
Qed.

Lemma fd_write_loop_progress (ws : list write_result) :
  forall (btw : Z) (st : fd_write_state),
    0 <= btw <= datasz ->
    Forall (fun w => exists room, w = WriteOk room /\ (0 < room)%nat) ws ->
    btw <= Z.of_nat (length ws) ->
    (fd_write_loop ws data datasz btw st).1 = Returned.
Proof.
  induction ws as [|w ws IH]; intros btw st Hb Hall Hlen.
  - cbn [fd_write_loop length] in *.
    by destruct (Z.eqb_spec btw 0) as [|]; [|lia].
  - cbn [fd_write_loop]. destruct (Z.eqb_spec btw 0) as [|Hne]; [done|].
    apply Forall_cons in Hall as [(room & -> & Hroom) Hall].
    set (n := Z.min (Z.of_nat room) btw).
    assert (Hw : size_wrap (btw - n) = btw - n).
    { unfold size_wrap. apply Z.mod_small. unfold SIZE_MAX in Hmax. lia. }
    rewrite Hw. apply IH; [lia|done|]. cbn [length] in Hlen. lia.
Qed.

End fd_write_facts.

(** X17.  [crond_fd_write] on [datasz] bytes that the data buffer holds.
    Every call of [write] is given the offset of the first byte not yet
    written and the count that reaches the end of the data, never more; the
    bytes the pipe has taken are at every moment a prefix of the data;
    when the function returns, they are exactly the [datasz] bytes, in
    order and once each; it calls [exit] only when a [close] fails or
    [write] fails with an error other than EINTR; with nothing to write it
    makes no call of [write]; and when both [close] succeed and every
    [write] takes at least one byte, it returns after at most [datasz]
    calls. *)
Theorem fd_write_sends_data (e : fd_write_env) (data : list Z) (datasz : Z) :
  0 <= datasz <= Z.of_nat (length data) -> datasz <= SIZE_MAX ->
  let r := crond_fd_write e data datasz in
  Forall (fun call => 0 <= call.1 /\ 0 < call.2 /\ call.1 + call.2 = datasz)
         (fw_calls r.2) /\
  fw_sent r.2 `prefix_of` take (Z.to_nat datasz) data /\
  (r.1 = Returned -> fw_sent r.2 = take (Z.to_nat datasz) data) /\
  (r.1 = Exited ->
   close_read_end_ok e = false \/ close_write_end_ok e = false \/
   exists errno, WriteErr errno ∈ write_results e /\ errno <> EINTR) /\
  (datasz = 0 -> fw_calls r.2 = []) /\
  (close_read_end_ok e = true -> close_write_end_ok e = true ->
   Forall (fun w => exists room, w = WriteOk room /\ (0 < room)%nat)
          (write_results e) ->
   datasz <= Z.of_nat (length (write_results e)) ->
   r.1 = Returned).
Proof.
  intros Hsz Hmax r. subst r. unfold crond_fd_write.
  destruct (close_read_end_ok e) eqn:Hcr.
  2: { cbn [fst snd fw_calls fw_sent]. split; [done|].
       split; [apply prefix_nil|]. split; [done|]. split; [by left|].
       split; [done|]. done. }
  pose proof (fd_write_loop_spec data datasz Hmax (write_results e)
                datasz (mk_fd_write [] []) ltac:(lia)) as Hspec.
  pose proof (fd_write_loop_progress data datasz Hmax (write_results e)
                datasz (mk_fd_write [] []) ltac:(lia)) as Hprog.
  cbn [fw_sent fw_calls] in Hspec.
  rewrite Z.sub_diag in Hspec. specialize (Hspec eq_refl ltac:(constructor)).
  destruct (fd_write_loop (write_results e) data datasz datasz _)
    as [en st]. cbn [fst snd] in Hspec, Hprog.
  destruct Hspec as ((btw' & Hb' & Hsent & Hret) & Hcalls & Hex & Hzero).
  assert (Hpre : fw_sent st `prefix_of` take (Z.to_nat datasz) data).
  { rewrite Hsent.
    exists (take (Z.to_nat btw') (drop (Z.to_nat (datasz - btw')) data)).
    rewrite take_take_drop. f_equal. lia. }
  assert (Hall : en = Returned -> fw_sent st = take (Z.to_nat datasz) data).
  { intros Hr. rewrite Hsent, (Hret Hr). f_equal. lia. }
  destruct en; [|destruct (close_write_end_ok e) eqn:Hcw|]; cbn [fst snd].
  - split; [done|]. split; [done|]. split; [done|].
    split; [intros _; right; right; by apply Hex|]. split; [done|].
    intros _ _ Hws Hlen. by apply Hprog.
  - split; [done|]. split; [done|]. split; [done|]. split; [done|].
    split; [done|]. done.
  - split; [done|]. split; [done|]. split; [done|].
    split; [intros _; right; by left|]. split; [done|]. done.
  - split; [done|]. split; [done|]. split; [done|]. split; [done|].
    split; [done|]. intros _ _ Hws Hlen. by apply Hprog.
Qed.

Lemma fd_write_sends_data_witness :
  let e := mk_fd_write_env true
             [WriteOk 2; WriteErr EINTR; WriteOk 1; WriteOk 9] true in
  let data := cstr "hello" ++ [Ch.LF] in
  0 <= 6 <= Z.of_nat (length data) /\ 6 <= SIZE_MAX /\
  (crond_fd_write e data 6).1 = Returned /\
  fw_sent (crond_fd_write e data 6).2 = data /\
  fw_calls (crond_fd_write e data 6).2 = [(0, 6); (2, 4); (2, 4); (3, 3)].
Proof.
  intros e data.
  assert (H1 : 0 <= 6 <= Z.of_nat (length data)) by (simpl; lia).
  assert (H2 : 6 <= SIZE_MAX) by (unfold SIZE_MAX; lia).
  destruct (fd_write_sends_data e data 6 H1 H2) as (_ & _ & Hret & _).
  split; [exact H1|]. split; [exact H2|]. split; [reflexivity|].
  split; [|reflexivity]. apply Hret. reflexivity.
Defined.

(** ** The output of a job *)

Section read_loop_facts.

Lemma size_wrap_add_checked (a b : Z) :
  0 <= a <= SIZE_MAX -> 0 <= b <= SIZE_MAX ->
  (size_wrap (a + b) <? a) = false ->
  size_wrap (a + b) = a + b /\ a + b <= SIZE_MAX.
Proof.
  unfold SIZE_MAX, size_wrap. intros Ha Hb Hw. apply Z.ltb_ge in Hw.
  change (2 ^ 64) with 18446744073709551616 in *.
  pose proof (Z.div_mod (a + b) 18446744073709551616 ltac:(lia)) as Hdm.
  pose proof (Z.mod_pos_bound (a + b) 18446744073709551616 ltac:(lia)) as Hr.
  set (q := (a + b) / 18446744073709551616) in *.
  set (r := (a + b) mod 18446744073709551616) in *.
  assert (Hq : q = 0 \/ q = 1) by lia.
  lia.
Qed.

Lemma read_loop_spec (fill : Z) (rs : list read_result) :
  Forall read_ok rs ->
  forall (mb : option (list Z)) (sz : Z) (acc : list Z),
    (mb = None /\ acc = []) \/ (mb = Some acc /\ acc <> []) ->
    sz = Z.of_nat (length acc) -> sz <= SIZE_MAX ->
    let r := read_loop rs fill mb sz in
    r.1.1 = Returned ->
    let out := acc ++ output_read rs in
    ((r.1.2 = None /\ out = []) \/ (r.1.2 = Some out /\ out <> [])) /\
    r.2 = Z.of_nat (length out) /\ r.2 <= SIZE_MAX.
Proof.
  induction rs as [|x rs IH]; intros Hall mb sz acc Hinv Hsz Hmax;
    [discriminate|].
  apply Forall_cons in Hall as [Hx Hall]. cbn [read_loop output_read].
  destruct x as [errno|chunk seam re].
  - destruct (errno =? EINTR); [by apply IH|discriminate].
  - destruct chunk as [|ch chunk].
    { cbn [length Z.of_nat Z.eqb fst snd]. intros _. rewrite app_nil_r.
      split; [|by split]. destruct Hinv as [[-> ->]|[-> Hne]]; auto. }
    set (ck := ch :: chunk) in *.
    assert (Hlen : 0 < Z.of_nat (length ck)) by (subst ck; cbn [length]; lia).
    destruct (Z.eqb_spec (Z.of_nat (length ck)) 0) as [|_]; [lia|].
    unfold si_add_size_t. destruct seam; [discriminate|].
    destruct (size_wrap (sz + Z.of_nat (length ck)) <? sz) eqn:Hw;
      [discriminate|].
    cbn [read_ok] in Hx. unfold CRON_READ_BUFFER_SZ in Hx.
    destruct (size_wrap_add_checked sz (Z.of_nat (length ck))) as [Hres Hfit];
      [lia|unfold SIZE_MAX; lia|done|].
    assert (Hd : default [] mb = acc)
      by (by destruct Hinv as [[-> ->]|[-> _]]).
    rewrite Hd. cbn [from_option]. unfold id. rewrite Hres.
    destruct re; [|discriminate].
    assert (Hbody :
      memcpy_at (resize (Z.to_nat (sz + Z.of_nat (length ck))) fill acc)
                (Z.to_nat sz) ck
      = acc ++ ck).
    { unfold memcpy_at.
      rewrite resize_spec, (take_ge acc) by lia.
      replace (Z.to_nat sz) with (length acc) by lia.
      rewrite take_app_length.
      rewrite drop_app_ge by lia. rewrite drop_ge; [by rewrite app_nil_r|].
      rewrite length_replicate. lia. }
    rewrite Hbody. intros Hret.
    destruct (IH Hall (Some (acc ++ ck)) (sz + Z.of_nat (length ck))
                (acc ++ ck)) as (Hr1 & Hr2 & Hr3).
    + right. split; [done|]. subst ck. by destruct acc.
    + rewrite length_app. lia.
    + exact Hfit.
    + exact Hret.
    + rewrite <- app_assoc in Hr1, Hr2. done.
Qed.

End read_loop_facts.

(** X18.  The monitor process of [crond_job_run], with [read] giving at most
    the size of its buffer per call.  When the part from the first [read]
    to the decision to mail runs to its end, [crond_mailx] is called exactly
    when the job wrote something to its output, and then with a body that is
    the bytes read before the end of file, in order and complete, and a size
    that is their number (which fits in [size_t]); reads that fail with
    EINTR are retried and leave no trace, and the bytes [realloc] leaves
    unset never reach the body. *)
Theorem job_output_mailed (rs : list read_result) (fill : Z)
  (close_ok : bool) (ws : list (option Z)) :
  Forall read_ok rs ->
  let r := crond_job_run_collect rs fill close_ok ws in
  r.1 = Returned ->
  close_ok = true /\ crond_waitpid ws = Returned /\
  match r.2 with
  | None => output_read rs = []
  | Some (body, sz) =>
    body = output_read rs /\ body <> [] /\
    sz = Z.of_nat (length body) /\ sz <= SIZE_MAX
  end.
Proof.
  intros Hall r. subst r. unfold crond_job_run_collect.
  pose proof (read_loop_spec fill rs Hall None 0 [] (or_introl (conj eq_refl eq_refl))
                eq_refl ltac:(unfold SIZE_MAX; lia)) as Hspec.
  destruct (read_loop rs fill None 0) as [[en mb] sz].
  cbn [fst snd app] in Hspec.
  destruct en; cbn [fst]; [discriminate| |discriminate].
  destruct close_ok; [|discriminate].
  destruct (crond_waitpid ws); cbn [fst snd]; [discriminate| |discriminate].
  intros _. split; [done|]. split; [done|].
  destruct (Hspec eq_refl) as ([[-> Hout]|[-> Hout]] & Hsz & Hmax); [done|].
  by rewrite <- Hsz.
Qed.

Lemma job_output_mailed_witness :
  let rs := [ReadOk (cstr "ab") false true; ReadErr EINTR;
             ReadOk (cstr "c") false true; ReadOk [] false true] in
  Forall read_ok rs /\
  crond_job_run_collect rs 0 true [Some EINTR; None]
  = (Returned, Some (cstr "abc", 3)) /\
  output_read rs = cstr "abc".
Proof.
  intros rs.
  assert (H1 : Forall read_ok rs).
  { subst rs.
    repeat (apply Forall_cons; split;
            [cbn; try done; unfold CRON_READ_BUFFER_SZ; lia|]).
    constructor. }
  pose proof (job_output_mailed rs 0 true [Some EINTR; None] H1 eq_refl)
    as (_ & _ & Hbody).
  split; [exact H1|]. split; [reflexivity|].
  vm_compute in Hbody. destruct Hbody as [Hb _]. symmetry. exact Hb.
Defined.

(** ** Paths *)

Section path_facts.

Lemma c_strlen_c_string (s : list Z) : length (c_string s) = c_strlen s.
Proof.
  unfold c_string. rewrite length_take.
  assert (c_strlen s <= length s)%nat; [|lia].
  induction s as [|ch s IH]; cbn [c_strlen length]; [done|].
  destruct (ch =? Ch.NUL); lia.
Qed.

Lemma c_string_app_nul (l rest : list Z) :
  c_string (l ++ Ch.NUL :: rest) = c_string l.
Proof.
  unfold c_string. induction l as [|ch l IH]; cbn [app c_strlen].
  - by rewrite Z.eqb_refl.
  - destruct (ch =? Ch.NUL); [done|]. cbn [take]. by rewrite IH.
Qed.

(** [stpcpy] to the end of what a buffer holds so far, with room left. *)
Lemma c_stpcpy_spec (buf pre src : list Z) :
  (length pre + c_strlen src + 1 <= length buf)%nat ->
  take (length pre) buf = pre ->
  c_stpcpy buf (length pre) src
  = Some (pre ++ c_string src ++ Ch.NUL ::
            drop (length pre + c_strlen src + 1) buf,
          (length pre + c_strlen src)%nat).
Proof.
  intros Hfit Hpre. unfold c_stpcpy.
  rewrite length_app, c_strlen_c_string. cbn [length].
  destruct (Nat.leb_spec (length pre + (c_strlen src + 1)) (length buf));
    [|lia].
  unfold memcpy_at. rewrite Hpre, length_app, c_strlen_c_string.
  cbn [length]. rewrite <- app_assoc. cbn [app].
  by rewrite Nat.add_assoc.
Qed.

Lemma c_stpcpy_length (buf pre src : list Z) :
  (length pre + c_strlen src + 1 <= length buf)%nat ->
  length (pre ++ c_string src ++ Ch.NUL ::
            drop (length pre + c_strlen src + 1) buf)
  = length buf.
Proof.
  intros Hfit. rewrite !length_app, c_strlen_c_string. cbn [length].
  rewrite length_drop. lia.
Qed.

(** Two strings copied one after the other into a block that has exactly
    the room for them and one terminator. *)
Lemma c_stpcpy_pair (buf x y : list Z) :
  length buf = (c_strlen x + c_strlen y + 1)%nat ->
  exists buf1,
    c_stpcpy buf 0 x = Some (buf1, c_strlen x) /\
    c_stpcpy buf1 (c_strlen x) y
    = Some (c_string x ++ c_string y ++ [Ch.NUL],
            (c_strlen x + c_strlen y)%nat).
Proof.
  intros Hlen.
  pose proof (c_stpcpy_spec buf [] x) as H1. cbn [length app] in H1.
  rewrite Nat.add_0_l in H1.
  eexists. split; [apply H1; [lia|by rewrite take_0]|].
  set (buf1 := c_string x ++ Ch.NUL :: drop (c_strlen x + 1) buf).
  pose proof (c_stpcpy_spec buf1 (c_string x) y) as H2.
  rewrite c_strlen_c_string in H2.
  assert (Hl1 : length buf1 = length buf).
  { unfold buf1. rewrite length_app, c_strlen_c_string. cbn [length].
    rewrite length_drop. lia. }
  rewrite H2; [|lia|].
  - rewrite drop_ge by lia. done.
  - unfold buf1. rewrite <- (c_strlen_c_string x). apply take_app_length.
Qed.

(** The string a duplicated C string holds. *)
Lemma c_strdup_spec (h : heap) (s : list Z) :
  exists b, h !! b = None /\
    c_strdup true h s 0 = (Some b, <[b := c_string s ++ [Ch.NUL]]> h).
Proof.
  unfold c_strdup. rewrite drop_0. fold (c_string s). apply heap_alloc_spec.
Qed.

Lemma c_strlen_terminated (s : list Z) :
  c_strlen (c_string s ++ [Ch.NUL]) = c_strlen s.
Proof.
  rewrite (c_strlen_no_nul (c_string s) [] (c_string_no_nul s)).
  apply c_strlen_c_string.
Qed.

End path_facts.

Section path_alloc_facts.

Lemma si_add_strlen (seam : bool) (a : nat) (k : Z) :
  0 <= k < 2 ^ 32 ->
  (exists r, si_add_size_t seam (Z.of_nat a) (size_wrap k) = (true, r)) \/
  (seam = false /\ Z.of_nat a + k <= SIZE_MAX /\
   si_add_size_t seam (Z.of_nat a) (size_wrap k)
   = (false, Some (Z.of_nat a + k))).
Proof.
  intros Hk. unfold si_add_size_t. destruct seam; [left; by eexists|].
  assert (Hwk : size_wrap k = k).
  { unfold size_wrap. apply Z.mod_small. lia. }
  rewrite Hwk.
  destruct (size_wrap (Z.of_nat a + k) <? Z.of_nat a) eqn:Hw;
    [left; by eexists|].
  right. split; [done|].
  assert (Ha : Z.of_nat a <= SIZE_MAX).
  { apply Z.ltb_ge in Hw. unfold size_wrap, SIZE_MAX in *.
    pose proof (Z.mod_pos_bound (Z.of_nat a + k) (2 ^ 64) ltac:(lia)). lia. }
  destruct (size_wrap_add_checked (Z.of_nat a) k) as [-> Hfit];
    [lia|unfold SIZE_MAX; lia|done|done].
Qed.

Lemma si_add_strlen_fits (a : nat) (k : Z) :
  0 <= k < 2 ^ 32 -> Z.of_nat a + k <= SIZE_MAX ->
  si_add_size_t false (Z.of_nat a) (size_wrap k)
  = (false, Some (Z.of_nat a + k)).
Proof.
  intros Hk Hfit. unfold si_add_size_t.
  assert (Hwk : size_wrap k = k).
  { unfold size_wrap. apply Z.mod_small. lia. }
  rewrite Hwk.
  assert (Hw : size_wrap (Z.of_nat a + k) = Z.of_nat a + k).
  { unfold size_wrap. apply Z.mod_small. unfold SIZE_MAX in Hfit. lia. }
  rewrite Hw. by rewrite (proj2 (Z.ltb_ge _ _)) by lia.
Qed.

Lemma malloc_stpcpy_pair (fill : Z) (h : heap) (x y : list Z) (n : Z) :
  n = Z.of_nat (c_strlen x) + (Z.of_nat (c_strlen y) + 1) ->
  exists b buf1,
    h !! b = None /\
    c_malloc true fill h n = (Some b, <[b := replicate (Z.to_nat n) fill]> h) /\
    c_stpcpy (replicate (Z.to_nat n) fill) 0 x = Some (buf1, c_strlen x) /\
    c_stpcpy buf1 (c_strlen x) y
    = Some (c_string x ++ c_string y ++ [Ch.NUL],
            (c_strlen x + c_strlen y)%nat).
Proof.
  intros ->. unfold c_malloc.
  match goal with |- context [heap_alloc h ?v] =>
    destruct (heap_alloc_spec h v) as (b & Hb & ->) end.
  destruct (c_stpcpy_pair
              (replicate (Z.to_nat (Z.of_nat (c_strlen x)
                                    + (Z.of_nat (c_strlen y) + 1))) fill) x y)
    as (buf1 & H1 & H2).
  { rewrite length_replicate. lia. }
  by exists b, buf1.
Qed.

End path_alloc_facts.

(** X19.  [cron_get_path_crontab] never writes past the block it allocates,
    whatever the home directory is.  It returns NULL with the heap as it
    was before the call, or a fresh block that holds exactly the home
    directory followed by [/.config/.crontab] and the terminator, with
    nothing else allocated: the copy of the home directory is released on
    every path.  It returns a block whenever a home directory is found,
    [strdup] and [malloc] succeed, the seam is off and the length fits in
    [size_t]. *)
Theorem path_crontab_built (pe : path_env) (h : heap) :
  exists p h',
    cron_get_path_crontab pe h = Some (p, h') /\
    match p with
    | None => h' = h
    | Some b =>
      h !! b = None /\
      exists home, home_source pe = Some home /\
        h' = <[b := c_string home ++ PATH_CRONTAB ++ [Ch.NUL]]> h
    end /\
    (forall home, home_source pe = Some home ->
       path_strdup_ok pe = true -> path_add_seam pe = false ->
       path_malloc_ok pe = true ->
       Z.of_nat (c_strlen home) + 18 <= SIZE_MAX -> p <> None).
Proof.
  assert (Hhome :
    (cron_get_path_home pe h = (None, h) /\
     (home_source pe = None \/ path_strdup_ok pe = false)) \/
    exists home bh, home_source pe = Some home /\ path_strdup_ok pe = true /\
      h !! bh = None /\
      cron_get_path_home pe h
      = (Some bh, <[bh := c_string home ++ [Ch.NUL]]> h)).
  { unfold cron_get_path_home, home_source.
    destruct (getenv_home pe) as [s|]; [|destruct (getpwuid_dir pe) as [s|]];
      [| |left; by auto];
      (destruct (path_strdup_ok pe); [|left; by auto]);
      destruct (c_strdup_spec h s) as (b & Hb & Heq);
      right; by exists s, b. }
  unfold cron_get_path_crontab.
  destruct Hhome as [[-> Hno]|(home & bh & Hsrc & Hdup & Hbh & ->)].
  { exists None, h. split; [done|]. split; [done|].
    intros home Hs Hd. destruct Hno as [Hn|Hn]; congruence. }
  rewrite lookup_insert_eq. cbn [from_option]. unfold id.
  rewrite c_strlen_terminated.
  change (Z.of_nat (c_strlen PATH_CRONTAB) + 1) with 18.
  assert (Hfree : delete bh (<[bh := c_string home ++ [Ch.NUL]]> h) = h)
    by (by apply delete_insert_id).
  destruct (si_add_strlen (path_add_seam pe) (c_strlen home) 18 ltac:(lia))
    as [[r Hadd]|(Hseam & Hfit & Hadd)]; rewrite Hadd.
  { exists None, h. cbn [c_free]. split; [by rewrite Hfree|]. split; [done|].
    intros home' Hs _ Hse _ Hf. exfalso.
    assert (home' = home) by congruence. subst home'.
    rewrite Hse, si_add_strlen_fits in Hadd by (done || lia).
    discriminate Hadd. }
  cbn [from_option]. unfold id.
  destruct (path_malloc_ok pe) eqn:Hmalloc.
  2: { exists None, h. cbn [c_malloc c_free].
       split; [by rewrite Hfree|]. split; [done|]. congruence. }
  destruct (malloc_stpcpy_pair (path_malloc_fill pe)
              (<[bh := c_string home ++ [Ch.NUL]]> h)
              (c_string home ++ [Ch.NUL]) PATH_CRONTAB
              (Z.of_nat (c_strlen home) + 18))
    as (b & buf1 & Hb & -> & H1 & H2).
  { by rewrite c_strlen_terminated. }
  rewrite lookup_insert_eq. cbn [from_option]. unfold id.
  rewrite H1, H2.
  apply lookup_insert_None in Hb as [Hb Hne].
  exists (Some b). eexists. split; [reflexivity|]. split; [|done].
  split; [done|]. exists home. split; [done|].
  cbn [c_free]. rewrite insert_insert_eq, delete_insert_ne by done.
  rewrite Hfree. f_equal.
  rewrite (c_string_terminated (c_string home) [] (c_string_no_nul home)).
  reflexivity.
Qed.

Lemma path_crontab_built_witness :
  let pe := mk_path_env (Some (cstr "/home/u")) None true false true 170 in
  Z.of_nat (c_strlen (cstr "/home/u")) + 18 <= SIZE_MAX /\
  exists b h',
    cron_get_path_crontab pe ∅ = Some (Some b, h') /\
    h' !! b = Some (cstr "/home/u/.config/.crontab" ++ [Ch.NUL]).
Proof.
  intros pe.
  assert (Hfit : Z.of_nat (c_strlen (cstr "/home/u")) + 18 <= SIZE_MAX)
    by (vm_compute; congruence).
  split; [exact Hfit|].
  destruct (path_crontab_built pe ∅) as (p & h' & Heq & Hp & Hsome).
  specialize (Hsome (cstr "/home/u") eq_refl eq_refl eq_refl eq_refl Hfit).
  destruct p as [b|]; [|done].
  destruct Hp as (_ & home & Hsrc & ->).
  injection Hsrc as <-.
  exists b. eexists. split; [exact Heq|].
  rewrite lookup_insert_eq. vm_compute. reflexivity.
Defined.

Section lock_facts.

Lemma get_path_lock_file_spec (pe : path_env) (h : heap) (bc : nat)
  (s : list Z) :
  h !! bc = Some s ->
  exists p h',
    crond_get_path_lock_file pe h (Some bc) = Some (p, h') /\
    match p with
    | None => h' = h
    | Some b =>
      h !! b = None /\
      h' = <[b := c_string s ++ LOCK_FILE_SUFFIX ++ [Ch.NUL]]> h
    end /\
    (path_add_seam pe = false -> path_malloc_ok pe = true ->
     Z.of_nat (c_strlen s) + 6 <= SIZE_MAX -> p <> None).
Proof.
  intros Hs. unfold crond_get_path_lock_file. rewrite Hs.
  cbn [from_option]. unfold id.
  change (Z.of_nat (c_strlen LOCK_FILE_SUFFIX) + 1) with 6.
  destruct (si_add_strlen (path_add_seam pe) (c_strlen s) 6 ltac:(lia))
    as [[r Hadd]|(Hseam & Hfit & Hadd)]; rewrite Hadd.
  { exists None, h. split; [done|]. split; [done|].
    intros Hse _ Hf. exfalso.
    rewrite Hse, si_add_strlen_fits in Hadd by (done || lia).
    discriminate Hadd. }
  cbn [from_option]. unfold id.
  destruct (path_malloc_ok pe) eqn:Hmalloc.
  2: { exists None, h. cbn [c_malloc]. split; [done|]. split; [done|].
       congruence. }
  destruct (malloc_stpcpy_pair (path_malloc_fill pe) h s LOCK_FILE_SUFFIX
              (Z.of_nat (c_strlen s) + 6))
    as (b & buf1 & Hb & -> & H1 & H2); [done|].
  rewrite lookup_insert_eq. cbn [from_option]. unfold id.
  rewrite H1, H2.
  exists (Some b). eexists. split; [reflexivity|]. split; [|done].
  split; [done|]. by rewrite insert_insert_eq.
Qed.

Lemma lock_removed (lp : list Z) (fs : files) :
  lp ∉ fs -> ({[lp]} ∪ fs) ∖ {[lp]} = fs.
Proof.
  intros Hn. apply set_eq. intros x.
  rewrite elem_of_difference, elem_of_union, !elem_of_singleton.
  split; [by intros [[->|?] ?]|].
  intros Hx. split; [by right|]. by intros ->.
Qed.

Lemma should_exit_failure (cr : crond) (g : signals) :
  crond_should_exit (crond_errx_noexit cr) g = true.
Proof. reflexivity. Qed.

End lock_facts.

(** X20.  [crond_get_path_lock_file] on the path of the crontab never writes
    past the block it allocates.  It returns NULL with the heap unchanged
    (always so for a NULL path), or a fresh block that holds exactly the
    path followed by [.lock] and the terminator, the block of the path left
    as it was; it returns a block whenever the seam is off, [malloc]
    succeeds and the length fits in [size_t]. *)
Theorem path_lock_file_built (pe : path_env) (h : heap) (bc : nat)
  (s : list Z) :
  h !! bc = Some s ->
  crond_get_path_lock_file pe h None = Some (None, h) /\
  exists p h',
    crond_get_path_lock_file pe h (Some bc) = Some (p, h') /\
    match p with
    | None => h' = h
    | Some b =>
      h !! b = None /\
      h' = <[b := c_string s ++ LOCK_FILE_SUFFIX ++ [Ch.NUL]]> h
    end /\
    (path_add_seam pe = false -> path_malloc_ok pe = true ->
     Z.of_nat (c_strlen s) + 6 <= SIZE_MAX -> p <> None).
Proof. intros Hs. split; [done|]. by apply get_path_lock_file_spec. Qed.

Lemma path_lock_file_built_witness :
  let pe := mk_path_env None None true false true 170 in
  let h : heap := {[ 7%nat := cstr "/h/.crontab" ++ [Ch.NUL] ]} in
  h !! 7%nat = Some (cstr "/h/.crontab" ++ [Ch.NUL]) /\
  exists b h',
    crond_get_path_lock_file pe h (Some 7%nat) = Some (Some b, h') /\
    h' !! b = Some (cstr "/h/.crontab.lock" ++ [Ch.NUL]).
Proof.
  intros pe h.
  assert (H0 : h !! 7%nat = Some (cstr "/h/.crontab" ++ [Ch.NUL]))
    by reflexivity.
  split; [exact H0|].
  destruct (path_lock_file_built pe h 7 _ H0)
    as (_ & p & h' & Heq & Hp & Hsome).
  destruct p as [b|].
  - destruct Hp as (_ & ->). exists b. eexists. split; [exact Heq|].
    rewrite lookup_insert_eq. vm_compute. reflexivity.
  - exfalso. apply Hsome; [reflexivity|reflexivity| |reflexivity].
    vm_compute. congruence.
Defined.

(** X21.  A second instance leaves the lock of the first alone.  When the
    lock file of the crontab path exists, [crond_lock_file_create] on a
    freshly zeroed descriptor member fails whatever the allocator and [open]
    would do: the files are unchanged, the status is the failure status, so
    that [crond_should_exit] is true before the first pass of the main loop,
    and the [crond_lock_file_delete] that follows removes nothing. *)
Theorem lock_file_held (le le' : lock_env) (fs : files) (h : heap)
  (c : crond_ctx) (bc : nat) (s : list Z) (g : signals) :
  path_crontab c = Some bc -> h !! bc = Some s -> fd_lock_file c = 0 ->
  c_string s ++ LOCK_FILE_SUFFIX ∈ fs ->
  exists h' c',
    crond_lock_file_create le fs h c = Some (fs, h', c') /\
    status_code (ctx c') = EXIT_FAILURE /\
    crond_should_exit (ctx c') g = true /\
    crond_lock_file_delete le' fs h' c' = (fs, c').
Proof.
  intros Hpc Hs Hfd Hin. unfold crond_lock_file_create. rewrite Hpc.
  destruct (get_path_lock_file_spec (lock_path_env le) h bc s Hs)
    as (p & h' & -> & Hp & _).
  destruct p as [b|].
  - destruct Hp as [Hb ->]. rewrite lookup_insert_eq.
    cbn [from_option]. unfold id.
    assert (Hpath : c_string (c_string s ++ LOCK_FILE_SUFFIX ++ [Ch.NUL])
                    = c_string s ++ LOCK_FILE_SUFFIX).
    { rewrite app_assoc. apply c_string_terminated.
      intros [Hn|Hn]%elem_of_app; [by apply (c_string_no_nul s)|].
      vm_compute in Hn. by repeat (apply elem_of_cons in Hn as [Hn|Hn];
                                    [discriminate Hn|]);
                          apply elem_of_nil in Hn. }
    rewrite Hpath. unfold c_open_excl.
    rewrite bool_decide_eq_true_2 by done. cbn [Z.ltb Z.compare Z.eqb EEXIST].
    eexists _, _. split; [reflexivity|].
    split; [reflexivity|]. split; [reflexivity|].
    unfold crond_lock_file_delete. reflexivity.
  - subst h'. eexists _, _. split; [reflexivity|].
    split; [reflexivity|]. split; [reflexivity|].
    unfold crond_lock_file_delete. cbn [ctx_errx_noexit fd_lock_file].
    by rewrite Hfd.
Qed.

Lemma lock_file_held_witness :
  let pe := mk_path_env None None true false true 170 in
  let le := mk_lock_env pe (OpenFd 3) true true in
  let h : heap := {[ 7%nat := cstr "/h/.crontab" ++ [Ch.NUL] ]} in
  let fs : files := {[ cstr "/h/.crontab.lock" ]} in
  let c := mk_ctx crond_zero 0 None (Some 7%nat) in
  (c_string (cstr "/h/.crontab" ++ [Ch.NUL]) ++ LOCK_FILE_SUFFIX ∈ fs) /\
  exists h' c',
    crond_lock_file_create le fs h c = Some (fs, h', c') /\
    status_code (ctx c') = EXIT_FAILURE.
Proof.
  intros pe le h fs c.
  assert (Hin : c_string (cstr "/h/.crontab" ++ [Ch.NUL]) ++ LOCK_FILE_SUFFIX
                ∈ fs).
  { apply elem_of_singleton. vm_compute. reflexivity. }
  split; [exact Hin|].
  destruct (lock_file_held le le fs h c 7 _ (mk_signals 0 0)
              eq_refl eq_refl eq_refl Hin)
    as (h' & c' & Hc & Hst & _).
  by exists h', c'.
Defined.

(** X22.  The life of the lock file.  When the lock file does not exist, the
    path can be built and [open] gives a descriptor, [crond_lock_file_create]
    creates the file, stores the descriptor and leaves the status alone.
    The [crond_lock_file_delete] that follows removes the file only when the
    descriptor is greater than 0: the file is still there afterwards exactly
    when [open] gave descriptor 0 or [remove] failed.  A failed [close] sets
    the failure status, and the file is removed all the same. *)
Theorem lock_file_lifecycle (le le' : lock_env) (fs : files) (h : heap)
  (c : crond_ctx) (bc : nat) (s : list Z) (fd : nat) :
  path_crontab c = Some bc -> h !! bc = Some s ->
  (c_string s ++ LOCK_FILE_SUFFIX ∉ fs) ->
  path_add_seam (lock_path_env le) = false ->
  path_malloc_ok (lock_path_env le) = true ->
  Z.of_nat (c_strlen s) + 6 <= SIZE_MAX ->
  open_res le = OpenFd fd ->
  let lp := c_string s ++ LOCK_FILE_SUFFIX in
  exists h' c',
    crond_lock_file_create le fs h c = Some ({[lp]} ∪ fs, h', c') /\
    ctx c' = ctx c /\ fd_lock_file c' = Z.of_nat fd /\
    let r := crond_lock_file_delete le' ({[lp]} ∪ fs) h' c' in
    (lp ∈ r.1 <-> fd = 0%nat \/ remove_lock_ok le' = false) /\
    ((0 < fd)%nat -> remove_lock_ok le' = true -> r.1 = fs) /\
    (status_code (ctx r.2) =
     if (0 <? Z.of_nat fd) && negb (close_lock_ok le')
     then EXIT_FAILURE else status_code (ctx c)).
Proof.
  intros Hpc Hs Hnin Hseam Hmalloc Hfit Hopen lp.
  unfold crond_lock_file_create. rewrite Hpc.
  destruct (get_path_lock_file_spec (lock_path_env le) h bc s Hs)
    as (p & h' & -> & Hp & Hsome).
  destruct p as [b|]; [|by destruct (Hsome Hseam Hmalloc Hfit)].
  destruct Hp as [Hb ->]. rewrite lookup_insert_eq.
  cbn [from_option]. unfold id.
  assert (Hpath : c_string (c_string s ++ LOCK_FILE_SUFFIX ++ [Ch.NUL]) = lp).
  { rewrite app_assoc. apply c_string_terminated.
    intros [Hn|Hn]%elem_of_app; [by apply (c_string_no_nul s)|].
    vm_compute in Hn. by repeat (apply elem_of_cons in Hn as [Hn|Hn];
                                  [discriminate Hn|]);
                        apply elem_of_nil in Hn. }
  rewrite Hpath. unfold c_open_excl.
  rewrite bool_decide_eq_false_2 by done. rewrite Hopen.
  destruct (Z.ltb_spec (Z.of_nat fd) 0) as [|_]; [lia|].
  eexists _, _. split; [reflexivity|]. cbn [ctx fd_lock_file].
  split; [done|]. split; [done|].
  unfold crond_lock_file_delete. cbn [fd_lock_file].
  change (lp ∉ fs) in Hnin. clearbody lp.
  destruct (Z.ltb_spec 0 (Z.of_nat fd)) as [Hpos|Hzero]; cbn [fst snd andb].
  - destruct (close_lock_ok le'), (remove_lock_ok le');
      cbn [ctx_errx_noexit path_lock_file ctx mbind option_bind negb
           crond_errx_noexit status_code];
      rewrite ?lookup_insert_eq; cbn [from_option]; unfold id;
      rewrite ?Hpath, ?(lock_removed lp fs Hnin);
      (split; [|split; [|done]]); try done;
      try (split; [done|intros [->|?]; [lia|done]]);
      try (split; [intros _; by right|intros _; apply elem_of_union_l;
                                        by apply elem_of_singleton]).
  - assert (fd = 0%nat) as -> by lia.
    split; [|split]; [|lia|done].
    split; [intros _; by left|].
    intros _. apply elem_of_union_l. by apply elem_of_singleton.
Qed.

Lemma lock_file_lifecycle_witness :
  let pe := mk_path_env None None true false true 170 in
  let le := mk_lock_env pe (OpenFd 0) true true in
  let h : heap := {[ 7%nat := cstr "/h/.crontab" ++ [Ch.NUL] ]} in
  let c := mk_ctx crond_zero 0 None (Some 7%nat) in
  let lp := c_string (cstr "/h/.crontab" ++ [Ch.NUL]) ++ LOCK_FILE_SUFFIX in
  (lp ∉ (∅ : files)) /\
  exists h' c',
    crond_lock_file_create le ∅ h c = Some ({[lp]} ∪ ∅, h', c') /\
    lp ∈ (crond_lock_file_delete le ({[lp]} ∪ ∅) h' c').1.
Proof.
  intros pe le h c lp.
  assert (Hnin : lp ∉ (∅ : files)) by apply not_elem_of_empty.
  assert (Hfit : Z.of_nat (c_strlen (cstr "/h/.crontab" ++ [Ch.NUL])) + 6
                 <= SIZE_MAX) by (vm_compute; congruence).
  split; [exact Hnin|].
  destruct (lock_file_lifecycle le le ∅ h c 7 _ 0 eq_refl eq_refl Hnin
              eq_refl eq_refl Hfit eq_refl)
    as (h' & c' & Hc & _ & _ & Hdel & _).
  exists h', c'. split; [exact Hc|]. apply Hdel. by left.
Defined.

Section signal_facts.

Lemma deliver_sigterm (sigs : list Z) :
  forall g : signals,
    g_signal_sigterm (deliver sigs g) <> 0
    <-> g_signal_sigterm g <> 0 \/ SIGTERM ∈ sigs.
Proof.
  unfold deliver. induction sigs as [|x sigs IH]; intros g; cbn [foldl].
  - split; [by left|]. intros [?|?%elem_of_nil]; done.
  - rewrite IH. unfold crond_signal_handler.
    destruct (Z.eqb_spec x SIGTERM) as [->|Hne]; cbn [g_signal_sigterm].
    + split; [intros _; right; by left|intros _; by left].
    + destruct (x =? SIGINT); cbn [g_signal_sigterm];
        (split; [intros [?|?]; [by left|right; by right]
                |intros [?|[?|?]%elem_of_cons]; [by left|done|by right]]).
Qed.

Lemma deliver_sigint (sigs : list Z) :
  forall g : signals,
    g_signal_sigint (deliver sigs g) <> 0
    <-> g_signal_sigint g <> 0 \/ SIGINT ∈ sigs.
Proof.
  unfold deliver. induction sigs as [|x sigs IH]; intros g; cbn [foldl].
  - split; [by left|]. intros [?|?%elem_of_nil]; done.
  - rewrite IH. unfold crond_signal_handler.
    destruct (Z.eqb_spec x SIGTERM) as [->|Hne]; cbn [g_signal_sigint].
    + split; [intros [?|?]; [by left|right; by right]
             |intros [?|[?|?]%elem_of_cons]; [by left|done|by right]].
    + destruct (Z.eqb_spec x SIGINT) as [->|Hne2]; cbn [g_signal_sigint].
      * split; [intros _; right; by left|intros _; by left].
      * split; [intros [?|?]; [by left|right; by right]
               |intros [?|[?|?]%elem_of_cons]; [by left|done|by right]].
Qed.

End signal_facts.

(** X23.  After any sequence of signals handled by [crond_signal_handler],
    [crond_should_exit] is true exactly when the status is not 0, an
    indicator was already set, or SIGTERM or SIGINT is among the signals
    handled: the indicators are never cleared, and SIGHUP and every other
    signal leave them as they are.  In particular it is true after every
    [crond_errx_noexit]. *)
Theorem should_exit_after_signals (cr : crond) (g : signals)
  (sigs : list Z) :
  (crond_should_exit cr (deliver sigs g) = true <->
   status_code cr <> 0 \/ g_signal_sigterm g <> 0 \/ g_signal_sigint g <> 0 \/
   SIGTERM ∈ sigs \/ SIGINT ∈ sigs) /\
  crond_should_exit (crond_errx_noexit cr) (deliver sigs g) = true.
Proof.
  split; [|reflexivity].
  pose proof (deliver_sigterm sigs g) as Ht.
  pose proof (deliver_sigint sigs g) as Hi.
  unfold crond_should_exit.
  destruct (Z.eqb_spec (status_code cr) 0) as [Hs|Hs]; cbn [andb].
  2: { split; [by left|done]. }
  destruct (Z.eqb_spec (g_signal_sigterm (deliver sigs g)) 0) as [Ht0|Ht0];
    cbn [andb].
  2: { split; [|done]. intros _. apply Ht in Ht0. tauto. }
  destruct (Z.eqb_spec (g_signal_sigint (deliver sigs g)) 0) as [Hi0|Hi0].
  2: { split; [|done]. intros _. apply Hi in Hi0. tauto. }
  split; [done|]. intros Hany. exfalso.
  destruct Hany as [?|[H|[H|[H|H]]]]; [done| | | |].
  - apply (proj2 Ht); [by left|done].
  - apply (proj2 Hi); [by left|done].
  - apply (proj2 Ht); [by right|done].
  - apply (proj2 Hi); [by right|done].
Qed.

(** ** The mail address *)

Section email_facts.

Lemma insert_last_nul (buf : list Z) (n : nat) :
  length buf = S n -> <[n := Ch.NUL]> buf = take n buf ++ [Ch.NUL].
Proof.
  intros Hlen. rewrite <- (take_drop n buf) at 1.
  rewrite insert_app_r_alt by (rewrite length_take; lia).
  rewrite length_take, Nat.min_l, Nat.sub_diag by lia.
  destruct (drop n buf) as [|x [|y tl]] eqn:Hd.
  - apply (f_equal length) in Hd. rewrite length_drop in Hd. simpl in Hd. lia.
  - reflexivity.
  - apply (f_equal length) in Hd. rewrite length_drop in Hd. simpl in Hd. lia.
Qed.

Lemma c_strlen_le (s : list Z) : (c_strlen s <= length s)%nat.
Proof.
  induction s as [|ch s IH]; cbn [c_strlen length]; [done|].
  destruct (ch =? Ch.NUL); lia.
Qed.

(** The string left in a 256-byte array by [strncpy] and the forced
    terminator. *)
Lemma strncpy_terminated_string (cs : list Z) (n : nat) :
  Ch.NUL ∉ cs ->
  c_string (<[n := Ch.NUL]> (take (S n) (cs ++ replicate (S n) Ch.NUL)))
  = take n cs.
Proof.
  intros Hnn.
  rewrite insert_last_nul
    by (rewrite length_take, length_app, length_replicate; lia).
  rewrite take_take, Nat.min_l by lia.
  rewrite take_app, take_replicate, <- app_assoc.
  assert (Hr : exists r, replicate (Nat.min (n - length cs) (S n)) Ch.NUL
                         ++ [Ch.NUL] = Ch.NUL :: r).
  { destruct (Nat.min (n - length cs) (S n)); cbn; by eexists. }
  destruct Hr as [r ->].
  apply c_string_terminated. intros Hin. apply Hnn.
  by eapply subseteq_take.
Qed.

Lemma user_name_spec (ie : id_env) :
  exists user_name,
    crond_get_user_name ie (replicate CROND_MAX_USER_NAME (stack_fill ie))
                        CROND_MAX_USER_NAME = Some user_name /\
    c_string user_name = take 255 (c_string (user_source ie)).
Proof.
  unfold crond_get_user_name, c_strncpy, CROND_MAX_USER_NAME.
  rewrite length_replicate. rewrite Nat.leb_refl.
  change (match getenv_logname ie with
          | Some env_logname => env_logname
          | None => match getpwuid_name ie with
                    | Some pw_name => pw_name
                    | None => []
                    end
          end) with (user_source ie).
  set (cs := c_string (user_source ie)).
  assert (Hcopy : memcpy_at (replicate 256 (stack_fill ie)) 0
                    (take 256 (cs ++ replicate 256 Ch.NUL))
                  = take 256 (cs ++ replicate 256 Ch.NUL)).
  { unfold memcpy_at. rewrite take_0. cbn [app].
    rewrite drop_ge; [by rewrite app_nil_r|].
    rewrite length_replicate, length_take, length_app, length_replicate. lia. }
  rewrite Hcopy.
  assert (Hl : length (take 256 (cs ++ replicate 256 Ch.NUL)) = 256%nat).
  { rewrite length_take, length_app, length_replicate. lia. }
  rewrite Hl. cbn [Nat.ltb Nat.leb andb Nat.sub].
  eexists. split; [reflexivity|].
  apply (strncpy_terminated_string cs 255), c_string_no_nul.
Qed.

End email_facts.

(** X24.  [crond_get_email_to] never writes past [crond->email_to] nor past
    the two arrays on its stack, whatever the login name and the host name
    are.  The array keeps its size and holds afterwards, as a string, the
    first 255 bytes at most of the user name, an ['@'], and the host name
    cut at 255 bytes at most. *)
Theorem email_to_fits (ie : id_env) (email_to : list Z) :
  length email_to = EMAIL_TO_SZ ->
  let user := take 255 (c_string (user_source ie)) in
  let host :=
    c_string (take 255 (resize CROND_MAX_HOST_NAME_SZ (stack_fill ie)
                               (gethostname_buf ie))) in
  exists email,
    crond_get_email_to ie email_to = Some email /\
    length email = EMAIL_TO_SZ /\
    c_string email = user ++ Ch.AT :: host /\
    (length user <= 255)%nat /\ (length host <= 255)%nat.
Proof.
  intros Hlen user host. unfold crond_get_email_to.
  destruct (user_name_spec ie) as (un & -> & Hun). fold user in Hun.
  set (hn := <[(CROND_MAX_HOST_NAME_SZ - 1)%nat := Ch.NUL]>
               (resize CROND_MAX_HOST_NAME_SZ (stack_fill ie)
                       (gethostname_buf ie))).
  assert (Hhn : c_string hn = host).
  { unfold hn. rewrite (insert_last_nul _ 255) by (by rewrite length_resize).
    apply c_string_app_nul. }
  assert (Hlu : (length user <= 255)%nat)
    by (unfold user; rewrite length_take; lia).
  assert (Hlh : (length host <= 255)%nat).
  { unfold host. rewrite c_strlen_c_string.
    etrans; [apply c_strlen_le|]. rewrite length_take. lia. }
  assert (Hsu : c_strlen un = length user)
    by (by rewrite <- c_strlen_c_string, Hun).
  assert (Hsh : c_strlen hn = length host)
    by (by rewrite <- c_strlen_c_string, Hhn).
  unfold EMAIL_TO_SZ, CROND_MAX_HOST_NAME_SZ, CROND_MAX_USER_NAME in *.
  (* the user name *)
  pose proof (c_stpcpy_spec email_to [] un) as H1.
  cbn [length app Nat.add] in H1. rewrite H1; [|lia|by rewrite ?take_0].
  rewrite Hun, Hsu.
  set (e1 := user ++ Ch.NUL :: drop (length user + 1) email_to).
  assert (Hl1 : length e1 = 513%nat).
  { unfold e1. rewrite length_app. cbn [length]. rewrite length_drop. lia. }
  (* the at sign *)
  pose proof (c_stpcpy_spec e1 user [Ch.AT]) as H2.
  change (c_strlen [Ch.AT]) with 1%nat in H2.
  change (c_string [Ch.AT]) with [Ch.AT] in H2.
  rewrite H2; [|lia|apply take_app_length].
  set (e2 := user ++ [Ch.AT] ++ Ch.NUL :: drop (length user + 1 + 1) e1).
  assert (Hl2 : length e2 = 513%nat).
  { unfold e2. rewrite !length_app. cbn [length]. rewrite length_drop. lia. }
  (* the host name *)
  pose proof (c_stpcpy_spec e2 (user ++ [Ch.AT]) hn) as H3.
  rewrite length_app in H3. cbn [length] in H3.
  rewrite H3; [|lia|unfold e2; rewrite app_assoc;
                     rewrite <- (length_app user [Ch.AT]) at 1;
                     apply take_app_length].
  - rewrite Hhn, Hsh. eexists. split; [reflexivity|].
    split; [|split; [|done]].
    + rewrite !length_app. cbn [length]. rewrite length_drop. lia.
    + rewrite <- app_assoc. cbn [app].
      change (user ++ Ch.AT :: host ++ Ch.NUL :: ?r)
        with (user ++ (Ch.AT :: host) ++ Ch.NUL :: r).
      rewrite app_assoc. apply c_string_terminated.
      intros [Hn|[Hn|Hn]%elem_of_cons]%elem_of_app.
      * revert Hn. unfold user. intros Hn.
        apply (c_string_no_nul (user_source ie)). by eapply subseteq_take.
      * discriminate Hn.
      * by apply (c_string_no_nul _) in Hn.
Qed.

Lemma email_to_fits_witness :
  let ie := mk_id_env (Some (cstr "ann")) None (cstr "box" ++ [Ch.NUL]) 170 in
  length (replicate EMAIL_TO_SZ 0) = EMAIL_TO_SZ /\
  exists email,
    crond_get_email_to ie (replicate EMAIL_TO_SZ 0) = Some email /\
    c_string email = cstr "ann@box".
Proof.
  intros ie.
  assert (H0 : length (replicate EMAIL_TO_SZ 0) = EMAIL_TO_SZ)
    by apply length_replicate.
  split; [exact H0|].
  destruct (email_to_fits ie (replicate EMAIL_TO_SZ 0) H0)
    as (email & Heq & _ & Hstr & _).
  exists email. split; [exact Heq|]. rewrite Hstr. vm_compute. reflexivity.
Defined.

(** ** Lines with a preset, lines that are ignored *)

Section preset_tail_facts.





End preset_tail_facts.


(** X26.  The lines [crond_crontab_parse_line] ignores without a trace: a
    line whose first byte after the leading blanks is the terminator (an
    empty or blank line) or ['#'] (a comment), and a line that has ['@']
    there followed by a text that none of the seven preset tokens begins.
    Heap, store, status and timestamp are unchanged, whatever the allocator
    would do. *)
Theorem ignored_lines (env : alloc_env) (h : heap) (cr : crond)
  (line : list Z) :
  (let c := line_at line (count_blank line) in
   c = Ch.NUL \/ c = Ch.HASH \/
   (c = Ch.AT /\
    forall p, ~ preset_token p `prefix_of` drop (S (count_blank line)) line)) ->
  crond_crontab_parse_line env h cr line = (h, cr).
Proof.
  intros Hc. unfold crond_crontab_parse_line, crond_crontab_parse_blank.
  rewrite drop_0. cbn [Nat.add].
  destruct Hc as [->|[->|[-> Hno]]]; [done|done|].
  change (negb (Ch.AT =? Ch.NUL) && negb (Ch.AT =? Ch.HASH)) with true.
  change (Ch.AT =? Ch.AT) with true. cbv iota.
  assert (Hcmp : forall p,
            strncmp_eq line (S (count_blank line)) (preset_token p) = false).
  { intros p. unfold strncmp_eq. apply bool_decide_eq_false_2.
    intros Heq. apply (Hno p).
    exists (drop (length (preset_token p))
                 (drop (S (count_blank line)) line)).
    rewrite <- Heq at 1. by rewrite take_drop. }
  pose proof (Hcmp yearly) as Hy. pose proof (Hcmp annually) as Ha.
  pose proof (Hcmp monthly) as Hm. pose proof (Hcmp weekly) as Hw.
  pose proof (Hcmp daily) as Hd. pose proof (Hcmp midnight) as Hn.
  pose proof (Hcmp hourly) as Hh. cbn [preset_token] in Hy, Ha, Hm, Hw, Hd, Hn, Hh.
  unfold parse_special. rewrite Hy, Ha, Hm, Hw, Hd, Hn, Hh.
  reflexivity.
Qed.

Lemma ignored_lines_witness :
  crond_crontab_parse_line env_ok ∅ crond_zero (cstr "  # @daily /bin/x")
  = (∅, crond_zero) /\
  crond_crontab_parse_line env_ok ∅ crond_zero (cstr "@reboot /bin/x")
  = (∅, crond_zero).
Proof.
  split.
  - apply (ignored_lines env_ok ∅ crond_zero (cstr "  # @daily /bin/x")).
    right; left. reflexivity.
  - apply (ignored_lines env_ok ∅ crond_zero (cstr "@reboot /bin/x")).
    right; right. split; [reflexivity|].
    intros p [k Hk]. destruct p; vm_compute in Hk; discriminate Hk.
Defined.

(** ** One pass of the main loop *)

Section main_pass_facts.

Lemma field_get_inside (c : list bool) (f : field) (i : Z) :
  length c = JOB_CELLS -> 0 <= field_base f + i < Z.of_nat JOB_CELLS ->
  exists b, field_get c f i = Some b.
Proof.
  intros Hlen Hi. unfold field_get.
  rewrite (proj2 (Z.leb_le _ _)) by lia.
  apply lookup_lt_is_Some_2. lia.
Qed.

Lemma should_run_total (t : tm) (job : crond_job) :
  tm_valid t -> length (cells job) = JOB_CELLS ->
  exists b, crond_job_should_run t job = Some b.
Proof.
  intros (Hs & Hm & Hh & Hd & Hmo & Hw) Hlen.
  destruct (field_get_inside (cells job) weekday (tm_wday t) Hlen)
    as [bw Hbw]; [unfold JOB_CELLS; cbn [field_base]; lia|].
  destruct (field_get_inside (cells job) month (tm_mon t - 1) Hlen)
    as [bmo Hbmo]; [unfold JOB_CELLS; cbn [field_base]; lia|].
  destruct (field_get_inside (cells job) day (tm_mday t - 1) Hlen)
    as [bd Hbd]; [unfold JOB_CELLS; cbn [field_base]; lia|].
  destruct (field_get_inside (cells job) hour (tm_hour t) Hlen)
    as [bh Hbh]; [unfold JOB_CELLS; cbn [field_base]; lia|].
  destruct (field_get_inside (cells job) minute (tm_min t) Hlen)
    as [bm Hbm]; [unfold JOB_CELLS; cbn [field_base]; lia|].
  eexists. by apply (should_run_bits t job bw bmo bd bh bm).
Qed.

Lemma job_list_run_steps (cr : crond) (t : tm) :
  tm_valid t ->
  forall (jl2 jl1 acc : list crond_job),
    job_list cr = jl1 ++ jl2 ->
    Forall (fun job => length (cells job) = JOB_CELLS) jl2 ->
    foldl (job_list_run_step cr (Some t)) (Some acc)
          (seq (length jl1) (length jl2))
    = Some (acc ++ filter (fun job => crond_job_should_run t job = Some true)
                          jl2).
Proof.
  intros Ht. induction jl2 as [|job jl2 IH]; intros jl1 acc Hjl Hall.
  - cbn. by rewrite app_nil_r.
  - apply Forall_cons in Hall as [Hjob Hall].
    cbn [length seq foldl]. unfold job_list_run_step at 2.
    rewrite Hjl, list_lookup_middle by done.
    destruct (should_run_total t job Ht Hjob) as [b Hb]. rewrite Hb.
    specialize (IH (jl1 ++ [job])).
    rewrite length_app, Nat.add_1_r in IH.
    rewrite filter_cons.
    destruct b.
    + rewrite decide_True by done.
      rewrite IH; [|by rewrite <- app_assoc|done].
      by rewrite <- app_assoc.
    + rewrite decide_False by (rewrite Hb; discriminate).
      rewrite IH; [done|by rewrite <- app_assoc|done].
Qed.

Lemma job_list_run_stuck (cr : crond) (tmp : option tm) (ks : list nat) :
  foldl (job_list_run_step cr tmp) None ks = None.
Proof. by induction ks. Qed.

Lemma job_list_run_null (cr : crond) :
  0 < num_jobs cr -> crond_job_list_run cr None = None.
Proof.
  intros Hn. unfold crond_job_list_run.
  destruct (Z.to_nat (num_jobs cr)) as [|n] eqn:Hz; [lia|].
  cbn [seq foldl].
  assert (Hstep : job_list_run_step cr None (Some []) 0 = None).
  { unfold job_list_run_step. by destruct (job_list cr !! 0%nat). }
  rewrite Hstep. apply job_list_run_stuck.
Qed.

End main_pass_facts.

(** X27.  [crond_job_list_run] on a consistent store whose jobs have all
    their cells.  At a valid local time it reads nothing outside the job
    array and the job objects, and hands to [crond_job_run] exactly the
    stored jobs for which [crond_job_should_run] is true, each once and in
    the order of the store.  With a NULL [crond->tm] it reads through the
    NULL pointer as soon as the store holds a job, and runs nothing when the
    store is empty. *)
Theorem job_list_run_spec (cr : crond) :
  store_ok cr ->
  Forall (fun job => length (cells job) = JOB_CELLS) (job_list cr) ->
  (forall t, tm_valid t ->
     crond_job_list_run cr (Some t)
     = Some (filter (fun job => crond_job_should_run t job = Some true)
                    (job_list cr))) /\
  (job_list cr <> [] -> crond_job_list_run cr None = None) /\
  (job_list cr = [] -> crond_job_list_run cr None = Some []).
Proof.
  intros [Hlen _] Hall. split; [|split].
  - intros t Ht. unfold crond_job_list_run.
    rewrite Hlen, Nat2Z.id.
    exact (job_list_run_steps cr t Ht (job_list cr) [] [] eq_refl Hall).
  - intros Hne. apply job_list_run_null. rewrite Hlen.
    destruct (job_list cr); [done|]. cbn [length]. lia.
  - intros Hnil. unfold crond_job_list_run. by rewrite Hlen, Hnil.
Qed.

Lemma job_list_run_spec_witness :
  let cr := (crond_crontab_parse_line env_ok ∅ crond_zero
               (cstr "@hourly /bin/h")).2 in
  store_ok cr /\
  length (default [] (crond_job_list_run cr (Some (mk_tm 0 0 7 9 3 2))))
  = 1%nat /\
  crond_job_list_run cr (Some (mk_tm 0 5 7 9 3 2)) = Some [] /\
  crond_job_list_run cr None = None.
Proof.
  intros cr.
  assert (H0 : store_ok cr).
  { split; [reflexivity|vm_compute; congruence]. }
  assert (H1 : Forall (fun job => length (cells job) = JOB_CELLS)
                      (job_list cr)).
  { repeat constructor. }
  destruct (job_list_run_spec cr H0 H1) as (_ & Hnull & _).
  split; [exact H0|]. split; [reflexivity|]. split; [reflexivity|].
  apply Hnull. discriminate.
Defined.

(** X28.  The pass of the main loop never reads [crond->tm] through a NULL
    pointer when it computes the time to sleep: the pass fails only inside
    [crond_job_list_run].  When it sleeps, the status is 0, the second
    [crond_gettime] has succeeded and [crond->tm] is the time it gave; for a
    second count in [0, 60] the pass sleeps between 1 and 60 seconds, up to
    the start of the next minute, and one second when the count is 60.  It
    does not sleep exactly when [crond_should_exit] is true. *)
Theorem main_pass_sleep (pe : pass_env) (h : heap) (cr : crond)
  (tmp : option tm) :
  let r1 := crond_crontab_reparse (pass_files pe) h cr in
  let g1 := crond_gettime (pass_time_1 pe) r1.2 tmp in
  (crond_main_pass pe h cr tmp = None <->
   crond_job_list_run g1.1 g1.2 = None) /\
  forall r, crond_main_pass pe h cr tmp = Some r ->
    (pr_sleep r = None <->
     crond_should_exit (pr_crond r) (pass_signals pe) = true) /\
    forall s, pr_sleep r = Some s ->
      status_code (pr_crond r) = 0 /\
      exists t, localtime_res (pass_time_2 pe) = Some t /\ pr_tm r = Some t /\
        (0 <= tm_sec t <= 60 ->
         1 <= s <= 60 /\
         (tm_sec t + s = 60 \/ (tm_sec t = 60 /\ s = 1))).
Proof.
  intros r1 g1. subst r1 g1. unfold crond_main_pass.
  destruct (crond_crontab_reparse (pass_files pe) h cr) as [h1 cr1].
  cbn [snd].
  destruct (crond_gettime (pass_time_1 pe) cr1 tmp) as [cr2 tmp2].
  cbn [fst snd].
  destruct (crond_job_list_run cr2 tmp2) as [ran|]; [|by split].
  unfold crond_gettime.
  assert (Hexit : forall c g, status_code c <> 0 ->
                              crond_should_exit c g = true).
  { intros c g Hs. unfold crond_should_exit.
    by destruct (Z.eqb_spec (status_code c) 0). }
  assert (Hzero : forall c g, crond_should_exit c g = false ->
                              status_code c = 0).
  { intros c g. unfold crond_should_exit.
    by destruct (Z.eqb_spec (status_code c) 0). }
  destruct (clock_gettime_ok (pass_time_2 pe));
    [destruct (localtime_res (pass_time_2 pe)) as [t|]|].
  - destruct (crond_should_exit cr2 (pass_signals pe)) eqn:Hex.
    + split; [done|]. intros r [= <-]. cbn. by split.
    + split; [done|]. intros r [= <-]. cbn [pr_sleep pr_crond pr_tm].
      split; [by rewrite Hex|]. intros s [= <-].
      split; [by eapply Hzero|]. exists t. split; [done|]. split; [done|].
      intros Hsec. unfold uint_wrap.
      rewrite (Z.mod_small (tm_sec t)) by lia.
      rewrite (Z.mod_small (60 - tm_sec t)) by lia.
      destruct (Z.eqb_spec (60 - tm_sec t) 0) as [Hz|Hz].
      * rewrite Hz, (Z.mod_small (0 + 1)) by lia. lia.
      * lia.
  - rewrite Hexit by done. split; [done|]. intros r [= <-]. cbn. by split.
  - rewrite Hexit by done. split; [done|]. intros r [= <-]. cbn. by split.
Qed.

Lemma main_pass_sleep_witness :
  let fe := mk_file_env (StatOk (mk_timespec 5 7))
              (Some (cstr "@hourly /bin/h" ++ [Ch.LF])) false true
              (fun _ => env_ok) in
  let pe := mk_pass_env fe (mk_time_env true (Some (mk_tm 59 0 7 9 3 2)))
              (mk_time_env true (Some (mk_tm 15 1 7 9 3 2)))
              (mk_signals 0 0) in
  exists r, crond_main_pass pe ∅ crond_zero None = Some r /\
    length (pr_ran r) = 1%nat /\ pr_sleep r = Some 45 /\
    status_code (pr_crond r) = 0.
Proof.
  intros fe pe.
  destruct (crond_main_pass pe ∅ crond_zero None) as [r|] eqn:Hr;
    [|vm_compute in Hr; discriminate Hr].
  destruct (main_pass_sleep pe ∅ crond_zero None) as [_ Hsome].
  destruct (Hsome r Hr) as [_ Hsleep].
  assert (Hs : pr_sleep r = Some 45).
  { vm_compute in Hr. injection Hr as <-. reflexivity. }
  exists r. split; [reflexivity|]. split.
  - vm_compute in Hr. injection Hr as <-. reflexivity.
  - split; [exact Hs|]. by destruct (Hsleep 45 Hs) as [H0 _].
Defined.

(** X29.  A failed clock on a pass that starts with a NULL [crond->tm], as
    the first pass does, is not caught before the jobs are examined: when
    [clock_gettime] fails, or [localtime] gives NULL, and the store holds a
    job after the reparse, the pass reads through the NULL [crond->tm] in
    [crond_job_list_run]. *)
Theorem main_pass_null_time (pe : pass_env) (h : heap) (cr : crond)
  (tmp : option tm) :
  (clock_gettime_ok (pass_time_1 pe) = false /\ tmp = None) \/
  (clock_gettime_ok (pass_time_1 pe) = true /\
   localtime_res (pass_time_1 pe) = None) ->
  0 < num_jobs (crond_crontab_reparse (pass_files pe) h cr).2 ->
  crond_main_pass pe h cr tmp = None.
Proof.
  intros Hclock Hjobs. unfold crond_main_pass.
  destruct (crond_crontab_reparse (pass_files pe) h cr) as [h1 cr1].
  cbn [snd] in Hjobs. unfold crond_gettime at 1.
  assert (Hnull : forall c, num_jobs c = num_jobs cr1 ->
                            crond_job_list_run c None = None).
  { intros c Hc. apply job_list_run_null. by rewrite Hc. }
  destruct Hclock as [[-> ->]|[-> ->]]; by rewrite Hnull.
Qed.

Lemma main_pass_null_time_witness :
  let fe := mk_file_env (StatOk (mk_timespec 5 7))
              (Some (cstr "* * * * * /bin/true" ++ [Ch.LF])) false true
              (fun _ => env_ok) in
  let pe := mk_pass_env fe (mk_time_env false None)
              (mk_time_env true (Some (mk_tm 0 0 0 1 0 0)))
              (mk_signals 0 0) in
  0 < num_jobs (crond_crontab_reparse fe ∅ crond_zero).2 /\
  crond_main_pass pe ∅ crond_zero None = None.
Proof.
  intros fe pe.
  assert (H1 : 0 < num_jobs (crond_crontab_reparse fe ∅ crond_zero).2)
    by (vm_compute; reflexivity).
  split; [exact H1|].
  apply (main_pass_null_time pe ∅ crond_zero None); [|exact H1].
  left. split; reflexivity.
Defined.

(** ** Installing a crontab *)

Section file_set_facts.

Import Crontab.

Lemma copy_file_in_error (steps : list copy_step) :
  forall (ct : crontab) (st : stream_state),
    in_error st = true -> reaches_eof steps ->
    exists ct' st',
      crontab_copy_file steps ct st = (Returned, ct', st') /\
      out_bytes st' = out_bytes st /\
      status_code ct' = EXIT_FAILURE /\
      path_crontab ct' = path_crontab ct /\
      path_crontab_tmp ct' = path_crontab_tmp ct.
Proof.
  induction steps as [|s steps IH]; intros ct st Hin Heof.
  - by apply Exists_nil in Heof.
  - cbn [crontab_copy_file]. rewrite Hin. cbn [orb].
    destruct (fread_eof s) eqn:He.
    + by eexists _, _.
    + apply Exists_cons in Heof as [Heof|Heof]; [congruence|].
      destruct (IH (crontab_errx_noexit ct)
                   (mk_stream true (out_error st) (out_bytes st))
                   eq_refl Heof) as (ct' & st' & -> & Ho & Hs & Hp1 & Hp2).
      by eexists _, _.
Qed.

Lemma copy_file_spec (steps : list copy_step) :
  forall (ct : crontab) (st : stream_state),
    in_error st = false -> reaches_eof steps ->
    exists ct' st',
      crontab_copy_file steps ct st = (Returned, ct', st') /\
      out_bytes st' = out_bytes st ++ copied steps /\
      status_code ct' =
        (if clean steps && negb (out_error st) then status_code ct
         else EXIT_FAILURE) /\
      path_crontab ct' = path_crontab ct /\
      path_crontab_tmp ct' = path_crontab_tmp ct.
Proof.
  induction steps as [|s steps IH]; intros ct st Hin Heof.
  - by apply Exists_nil in Heof.
  - cbn [crontab_copy_file copied clean]. rewrite Hin. cbn [orb].
    destruct (fread_error s) eqn:Hre; cbn [negb andb].
    + destruct (fread_eof s) eqn:He.
      * eexists _, _. split; [reflexivity|]. by rewrite app_nil_r.
      * apply Exists_cons in Heof as [Heof|Heof]; [congruence|].
        destruct (copy_file_in_error steps (crontab_errx_noexit ct)
                    (mk_stream true (out_error st) (out_bytes st))
                    eq_refl Heof) as (ct' & st' & -> & Ho & Hs & Hp1 & Hp2).
        eexists _, _. split; [reflexivity|]. by rewrite app_nil_r.
    + destruct (fread_eof s) eqn:He.
      * eexists _, _. split; [reflexivity|]. cbn [out_bytes].
        rewrite app_nil_r. split; [done|].
        by destruct (out_error st), (fwrite_error s).
      * apply Exists_cons in Heof as [Heof|Heof]; [congruence|].
        destruct (IH (if out_error st || fwrite_error s
                      then crontab_errx_noexit ct else ct)
                     (mk_stream false (out_error st || fwrite_error s)
                                (out_bytes st ++ written s))
                     eq_refl Heof) as (ct' & st' & -> & Ho & Hs & Hp1 & Hp2).
        eexists _, _. split; [reflexivity|]. cbn [out_bytes out_error] in *.
        rewrite Ho, Hs, Hp1, Hp2, <- app_assoc.
        by destruct (out_error st), (fwrite_error s), (clean steps).
Qed.

Lemma clean_copied (steps : list copy_step) :
  clean steps = true -> copied steps = input_read steps.
Proof.
  induction steps as [|s steps IH]; [done|].
  cbn [clean copied input_read]. unfold written.
  destruct (fread_error s), (fwrite_error s); cbn [negb andb]; try done.
  destruct (fread_eof s); [done|]. intros Hc. by rewrite IH.
Qed.

Lemma create_config_dir_ok (pe : path_env) (mk : mkdir_result) (h : heap)
  (ct : crontab) (home : list Z) :
  home_source pe = Some home -> path_strdup_ok pe = true ->
  path_add_seam pe = false -> path_malloc_ok pe = true ->
  Z.of_nat (c_strlen home) + 9 <= SIZE_MAX ->
  mk = MkdirOk \/ mk = MkdirErr EEXIST ->
  crontab_create_config_dir pe mk h ct = Some (h, ct, status_code ct).
Proof.
  intros Hsrc Hdup Hseam Hmalloc Hfit Hmk.
  assert (Hhome : exists bh, h !! bh = None /\
            cron_get_path_home pe h
            = (Some bh, <[bh := c_string home ++ [Ch.NUL]]> h)).
  { unfold cron_get_path_home. unfold home_source in Hsrc. rewrite Hdup.
    destruct (getenv_home pe) as [s|].
    - injection Hsrc as ->. apply c_strdup_spec.
    - rewrite Hsrc. apply c_strdup_spec. }
  destruct Hhome as (bh & Hbh & Hh).
  unfold crontab_create_config_dir. rewrite Hh.
  rewrite lookup_insert_eq. cbn [from_option]. unfold id.
  rewrite c_strlen_terminated.
  change (Z.of_nat (c_strlen PATH_APPEND_CONFIG) + 1) with 9.
  rewrite Hseam, si_add_strlen_fits by (done || lia).
  cbn [from_option]. unfold id. rewrite Hmalloc.
  destruct (malloc_stpcpy_pair (path_malloc_fill pe)
              (<[bh := c_string home ++ [Ch.NUL]]> h)
              (c_string home ++ [Ch.NUL]) PATH_APPEND_CONFIG
              (Z.of_nat (c_strlen home) + 9))
    as (b & buf1 & Hb & -> & H1 & H2).
  { by rewrite c_strlen_terminated. }
  rewrite lookup_insert_eq. cbn [from_option]. unfold id.
  rewrite H1, H2.
  apply lookup_insert_None in Hb as [Hb Hne].
  assert (Hheap :
    c_free (c_free (<[b := c_string (c_string home ++ [Ch.NUL])
                            ++ c_string PATH_APPEND_CONFIG ++ [Ch.NUL]]>
                      (<[b := replicate
                               (Z.to_nat (Z.of_nat (c_strlen home) + 9))
                               (path_malloc_fill pe)]>
                         (<[bh := c_string home ++ [Ch.NUL]]> h)))
                   (Some b)) (Some bh) = h).
  { cbn [c_free]. rewrite insert_insert_eq.
    rewrite delete_insert_id by (by rewrite lookup_insert_ne).
    by apply delete_insert_id. }
  rewrite Hheap.
  destruct Hmk as [-> | ->]; [done|]. by rewrite Z.eqb_refl.
Qed.

End file_set_facts.

(** X30.  [crontab_file_set] installs whatever the copy loop wrote.  When the
    configuration directory can be made (or exists), the temporary file
    opens, the input reaches its end, [fclose] and [rename] succeed, the
    crontab file afterwards holds the bytes of the turns of
    [crontab_copy_file] before the first read error, and the temporary file
    is gone.  If no turn set an error indicator these are all the bytes
    read and the status stays 0.  If one did, the status is the failure
    status and the crontab file is replaced all the same: after a read
    error nothing more is written, even by turns whose read succeeds,
    because the indicator is never cleared.  The heap is as before the
    call. *)
Theorem file_set_installs_copy (e : file_set_env) (fs : file_contents)
  (h : heap) (ct : Crontab.crontab) (home : list Z) :
  Crontab.status_code ct = 0 ->
  home_source (set_path_env e) = Some home ->
  path_strdup_ok (set_path_env e) = true ->
  path_add_seam (set_path_env e) = false ->
  path_malloc_ok (set_path_env e) = true ->
  Z.of_nat (c_strlen home) + 9 <= SIZE_MAX ->
  set_mkdir e = MkdirOk \/ set_mkdir e = MkdirErr EEXIST ->
  set_fopen_ok e = true -> set_fclose_ok e = true ->
  set_rename_ok e = true ->
  Crontab.reaches_eof (set_steps e) ->
  exists ct',
    Crontab.crontab_file_set e fs h ct
    = Some (Returned,
            <[Crontab.path_crontab ct := Crontab.copied (set_steps e)]>
              (delete (Crontab.path_crontab_tmp ct) fs),
            h, ct') /\
    Crontab.path_crontab ct' = Crontab.path_crontab ct /\
    Crontab.path_crontab_tmp ct' = Crontab.path_crontab_tmp ct /\
    Crontab.status_code ct' =
      (if Crontab.clean (set_steps e) then 0 else EXIT_FAILURE) /\
    (Crontab.clean (set_steps e) = true ->
     Crontab.copied (set_steps e) = Crontab.input_read (set_steps e)).
Proof.
  intros Hst Hsrc Hdup Hseam Hmalloc Hfit Hmk Hopen Hclose Hren Heof.
  unfold Crontab.crontab_file_set.
  rewrite (create_config_dir_ok _ _ h ct home) by done.
  rewrite Hst. cbn [Z.eqb]. rewrite Hopen.
  destruct (copy_file_spec (set_steps e) ct (mk_stream false false [])
              eq_refl Heof) as (ct' & st' & -> & Ho & Hs & Hp1 & Hp2).
  cbn [out_bytes out_error negb app] in Ho, Hs.
  rewrite andb_true_r, Hst in Hs.
  rewrite Hclose. unfold Crontab.crontab_rename_file. rewrite Hren.
  rewrite Hp1, Hp2, Ho, lookup_insert_eq.
  exists ct'. split; [|by auto using clean_copied].
  do 3 f_equal. by rewrite insert_insert_eq, delete_insert_eq.
Qed.

Lemma file_set_installs_copy_witness :
  let pe := mk_path_env (Some (cstr "/home/u")) None true false true 170 in
  let steps :=
    [mk_copy_step (cstr "a") false false false 0;
     mk_copy_step (cstr "b") true false false 0;
     mk_copy_step (cstr "c") false true false 0] in
  let e := mk_file_set_env pe (MkdirErr EEXIST) true steps true 0 true in
  let ct := Crontab.mk_crontab (cstr "/home/u/.config/.crontab")
              (cstr "/home/u/.config/.crontab.edit") 0 0 in
  let fs : file_contents := {[ Crontab.path_crontab ct := cstr "old" ]} in
  Crontab.reaches_eof steps /\
  Crontab.input_read steps = cstr "abc" /\
  exists fs' ct',
    Crontab.crontab_file_set e fs ∅ ct = Some (Returned, fs', ∅, ct') /\
    fs' !! Crontab.path_crontab ct = Some (cstr "a") /\
    Crontab.status_code ct' = EXIT_FAILURE.
Proof.
  intros pe steps e ct fs.
  assert (Heof : Crontab.reaches_eof steps).
  { unfold Crontab.reaches_eof, steps. do 2 apply Exists_cons_tl.
    by apply Exists_cons_hd. }
  assert (Hfit : Z.of_nat (c_strlen (cstr "/home/u")) + 9 <= SIZE_MAX)
    by (vm_compute; congruence).
  split; [exact Heof|]. split; [reflexivity|].
  destruct (file_set_installs_copy e fs ∅ ct (cstr "/home/u")
              eq_refl eq_refl eq_refl eq_refl eq_refl Hfit
              (or_intror eq_refl) eq_refl eq_refl eq_refl Heof)
    as (ct' & Heq & _ & _ & Hs & _).
  eexists _, ct'. split; [exact Heq|].
  split; [by rewrite lookup_insert_eq|exact Hs].
Defined.
